(** * CAT Mastery Tracker: derived metrics, period aggregation, keyword
      analysis and daily goal progress of [src/App.tsx].

    The development is a shallow embedding of the computations of the React
    components [DailyTargetProgress], [PerformanceCharts] and [AIInsights]
    and of the helpers [calculateTotalSets], [calculateAccuracy] and
    [calculateSpeed].

    Conventions of the embedding.
    - A JavaScript number that the entry form stores (set counts, minutes,
      question counts) is an integer, modelled as [Z].  A quotient or a
      percentage has two readings.  The helpers [calculateAccuracy] and
      [calculateSpeed] and the progress of the daily target give the exact
      rational value of the expression, which the comparisons and zero
      tests of the program are stated on.  Wherever the program prints a
      number with [toFixed], the expression is evaluated as the program
      evaluates it, every operation rounded to binary64
      ([JSNumber.numberValue], module [Binary64]); the rounded value lies
      within a relative [2^-50] of the exact one ([percent64_close]), and
      for counts of the sizes the form can hold it is below 60 exactly
      when the exact one is ([below_60_binary64]).
    - Text is ASCII: a JavaScript string all of whose code units are below
      U+0080 is the [string] with the same characters.  [toLowerCase] and
      [toUpperCase] are the case mappings of that range; statements that
      depend on the case mapping carry the hypothesis that the text is
      ASCII.
    - A [Date] is its time value, an integer count of milliseconds since the
      epoch; [None] is the time value [NaN] of an "Invalid Date".  Local
      calendar fields are read at a fixed offset [tz] (minutes east of UTC).
    - A plain object used as a dictionary is the list of its own properties
      in creation order; enumeration order is that of [Object.entries]. *)

From Stdlib Require Import ZArith QArith Qround Qminmax Qabs Qpower.
From Stdlib Require Import List String Ascii Bool.
From Stdlib Require Import Lia Lqa Permutation Sorted DecimalString.
From Stdlib Require DecimalPos DecimalZ SpecFloat.
Import ListNotations.

Open Scope string_scope.
Open Scope Z_scope.

(** ** JavaScript strings *)

Module JSString.

(** Membership in the class [\s], also the set removed by [trim]. *)
Definition isWhiteSpace (c : ascii) : bool :=
  let n := N_of_ascii c in
  (N.leb 9 n && N.leb n 13 || N.eqb n 32)%bool.

Definition isEmpty (s : string) : bool :=
  match s with EmptyString => true | String _ _ => false end.

Fixpoint trimStart (s : string) : string :=
  match s with
  | EmptyString => EmptyString
  | String c s' => if isWhiteSpace c then trimStart s' else s
  end.

Fixpoint trimEnd (s : string) : string :=
  match s with
  | EmptyString => EmptyString
  | String c s' =>
      let t := trimEnd s' in
      if (isWhiteSpace c && isEmpty t)%bool then EmptyString else String c t
  end.

(** [s.trim()] *)
Definition trim (s : string) : string := trimEnd (trimStart s).

Definition lowerChar (c : ascii) : ascii :=
  let n := N_of_ascii c in
  if (N.leb 65 n && N.leb n 90)%bool then ascii_of_N (n + 32) else c.

Definition upperChar (c : ascii) : ascii :=
  let n := N_of_ascii c in
  if (N.leb 97 n && N.leb n 122)%bool then ascii_of_N (n - 32) else c.

Fixpoint mapChars (f : ascii -> ascii) (s : string) : string :=
  match s with
  | EmptyString => EmptyString
  | String c s' => String (f c) (mapChars f s')
  end.

(** [s.toLowerCase()] and [s.toUpperCase()] on ASCII text: the letters
    [A-Z] and [a-z] are mapped, every other character below U+0080 is
    kept.  (Beyond that range JavaScript applies the Unicode mappings,
    which may change the length of the text.) *)
Definition toLowerCase : string -> string := mapChars lowerChar.
Definition toUpperCase : string -> string := mapChars upperChar.

(** The character class [[.,]]. *)
Definition isDotOrComma (c : ascii) : bool :=
  (Ascii.eqb c "." || Ascii.eqb c ",")%bool.

(** [s.replace(/[.,]/g, '')] *)
Fixpoint stripDotComma (s : string) : string :=
  match s with
  | EmptyString => EmptyString
  | String c s' =>
      if isDotOrComma c then stripDotComma s' else String c (stripDotComma s')
  end.

(** [s.split(/\s+/)]: [cur] is the piece being read, [inRun] tells that
    the previous character belonged to a separator.  A separator at either
    end of the text leaves an empty piece there, and the empty text splits
    into one empty piece. *)
Fixpoint splitWS_from (s : string) (cur : string) (inRun : bool)
  : list string :=
  match s with
  | EmptyString => [cur]
  | String c s' =>
      if isWhiteSpace c then
        if inRun then splitWS_from s' cur true
        else cur :: splitWS_from s' EmptyString true
      else splitWS_from s' (cur ++ String c EmptyString) false
  end.

Definition splitWS (s : string) : list string :=
  splitWS_from s EmptyString false.

(** [s.split(sep)] for a one-character separator. *)
Fixpoint splitChar_from (sep : ascii) (s : string) (cur : string)
  : list string :=
  match s with
  | EmptyString => [cur]
  | String c s' =>
      if Ascii.eqb c sep then cur :: splitChar_from sep s' EmptyString
      else splitChar_from sep s' (cur ++ String c EmptyString)
  end.

Definition splitChar (sep : ascii) (s : string) : list string :=
  splitChar_from sep s EmptyString.

(** [xs.join(sep)] *)
Fixpoint join (sep : string) (xs : list string) : string :=
  match xs with
  | [] => EmptyString
  | [x] => x
  | x :: rest => x ++ sep ++ join sep rest
  end.

(** [String(n)] for an integer [n]. *)
Definition ofZ (n : Z) : string := NilZero.string_of_int (Z.to_int n).

(** [s.padStart(2, '0')] *)
Definition padStart2 (s : string) : string :=
  match String.length s with
  | O => "00" ++ s
  | S O => "0" ++ s
  | _ => s
  end.

Definition digitValue (c : ascii) : option Z :=
  let n := N_of_ascii c in
  if (N.leb 48 n && N.leb n 57)%bool then Some (Z.of_N n - 48) else None.

Fixpoint digitsPrefix (s : string) (acc : option Z) : option Z :=
  match s with
  | EmptyString => acc
  | String c s' =>
      match digitValue c with
      | Some d =>
          digitsPrefix s'
            (Some (10 * match acc with Some a => a | None => 0 end + d))
      | None => acc
      end
  end.

(** [parseInt(s)] on a text without a [0x] prefix: blanks, a sign, then
    the longest run of decimal digits; [None] is [NaN]. *)
Definition parseInt (s : string) : option Z :=
  match trimStart s with
  | String "-" s' => option_map Z.opp (digitsPrefix s' None)
  | String "+" s' => digitsPrefix s' None
  | s' => digitsPrefix s' None
  end.

(** [s.charAt(0).toUpperCase() + s.slice(1)] *)
Definition capitalize (s : string) : string :=
  match s with
  | EmptyString => EmptyString
  | String c s' => String (upperChar c) s'
  end.

End JSString.

(** ** Arrays *)

Module JSArray.

Section Sort.
Context {A : Type}.
(** The compare function; [None] is a [NaN] result, which the sort reads
    as [+0]. *)
Variable comparefn : A -> A -> option Z.

Definition notAfter (x y : A) : bool :=
  match comparefn x y with
  | Some v => v <=? 0
  | None => true
  end.

Fixpoint insert (x : A) (l : list A) : list A :=
  match l with
  | [] => [x]
  | y :: l' => if notAfter x y then x :: l else y :: insert x l'
  end.

(** [xs.sort(comparefn)]: an element is placed in front of the later
    elements that do not compare below it.  When the compare function,
    with [NaN] read as [+0], is a consistent comparator for the elements,
    this is the order that ECMA-262 prescribes, sorted and stable.
    Otherwise the standard leaves the order to the implementation, and
    only that the result holds the same elements is common to all of
    them. *)
Fixpoint sort (l : list A) : list A :=
  match l with
  | [] => []
  | x :: l' => insert x (sort l')
  end.
End Sort.

(** [xs.slice(-n)] for [n > 0]. *)
Definition sliceLast {A : Type} (n : nat) (l : list A) : list A :=
  skipn (List.length l - n) l.

(** [xs.slice(0, n)] *)
Definition sliceFirst {A : Type} (n : nat) (l : list A) : list A :=
  firstn n l.

End JSArray.

(** ** Plain objects as dictionaries *)

Module JSObject.

(** Own properties, in creation order. *)
Definition t (V : Type) : Type := list (string * V).

Section Own.
Context {V : Type}.

Fixpoint getOwn (o : t V) (k : string) : option V :=
  match o with
  | [] => None
  | (k', v) :: o' => if String.eqb k' k then Some v else getOwn o' k
  end.

(** Assignment to an own data property: an existing property keeps its
    place, a new one is created last. *)
Fixpoint setOwn (o : t V) (k : string) (v : V) : t V :=
  match o with
  | [] => [(k, v)]
  | (k', v') :: o' =>
      if String.eqb k' k then (k', v) :: o' else (k', v') :: setOwn o' k v
  end.

Fixpoint allDigits (s : string) (acc : Z) : option Z :=
  match s with
  | EmptyString => Some acc
  | String c s' =>
      match JSString.digitValue c with
      | Some d => allDigits s' (10 * acc + d)
      | None => None
      end
  end.

(** A property key is an array index when it is the canonical decimal
    text of an integer of [0 .. 2^32 - 2]. *)
Definition arrayIndex (k : string) : option Z :=
  match k with
  | EmptyString => None
  | _ =>
      match allDigits k 0 with
      | Some n =>
          if (String.eqb (JSString.ofZ n) k && (n <=? 4294967294))%bool
          then Some n else None
      | None => None
      end
  end.

Definition isArrayIndex (k : string) : bool :=
  match arrayIndex k with Some _ => true | None => false end.

Definition indexOrder (p q : string * V) : option Z :=
  match arrayIndex (fst p), arrayIndex (fst q) with
  | Some i, Some j => Some (i - j)
  | _, _ => None
  end.

(** [Object.entries(o)]: array-index keys in ascending numeric order,
    then every other key in creation order. *)
Definition entries (o : t V) : list (string * V) :=
  JSArray.sort indexOrder (filter (fun p => isArrayIndex (fst p)) o)
  ++ filter (fun p => negb (isArrayIndex (fst p))) o.
End Own.

End JSObject.

(** ** Dates (ECMA-262, "Date Objects") *)

Module JSDate.

Definition msPerDay : Z := 86400000.
Definition msPerMinute : Z := 60000.

Definition Day (t : Z) : Z := t / msPerDay.

Definition DaysInYear (y : Z) : Z :=
  if negb (y mod 4 =? 0) then 365
  else if negb (y mod 100 =? 0) then 366
  else if negb (y mod 400 =? 0) then 365
  else 366.

Definition DayFromYear (y : Z) : Z :=
  365 * (y - 1970) + (y - 1969) / 4 - (y - 1901) / 100 + (y - 1601) / 400.

Definition TimeFromYear (y : Z) : Z := msPerDay * DayFromYear y.

(** The largest [y] with [TimeFromYear y <= t]: the mean-year estimate is
    at most one year off. *)
Definition YearFromTime (t : Z) : Z :=
  let d := Day t in
  let y := 1970 + (400 * d) / 146097 in
  if DayFromYear (y + 1) <=? d then y + 1
  else if DayFromYear y <=? d then y
  else y - 1.

Definition InLeapYear (t : Z) : Z :=
  if DaysInYear (YearFromTime t) =? 366 then 1 else 0.

Definition DayWithinYear (t : Z) : Z := Day t - DayFromYear (YearFromTime t).

(** First day within the year of month [m] (0-based), [L] being 1 in a
    leap year. *)
Definition monthStart (m L : Z) : Z :=
  match m with
  | 0 => 0
  | 1 => 31
  | 2 => 59 + L
  | 3 => 90 + L
  | 4 => 120 + L
  | 5 => 151 + L
  | 6 => 181 + L
  | 7 => 212 + L
  | 8 => 243 + L
  | 9 => 273 + L
  | 10 => 304 + L
  | 11 => 334 + L
  | _ => 365 + L
  end.

Definition monthOfDay (d L : Z) : Z :=
  if d <? 31 then 0
  else if d <? 59 + L then 1
  else if d <? 90 + L then 2
  else if d <? 120 + L then 3
  else if d <? 151 + L then 4
  else if d <? 181 + L then 5
  else if d <? 212 + L then 6
  else if d <? 243 + L then 7
  else if d <? 273 + L then 8
  else if d <? 304 + L then 9
  else if d <? 334 + L then 10
  else 11.

Definition MonthFromTime (t : Z) : Z :=
  monthOfDay (DayWithinYear t) (InLeapYear t).

Definition DateFromTime (t : Z) : Z :=
  DayWithinYear t - monthStart (MonthFromTime t) (InLeapYear t) + 1.

Definition WeekDay (t : Z) : Z := (Day t + 4) mod 7.

Definition MakeDay (year month date : Z) : Z :=
  let ym := year + month / 12 in
  let mn := month mod 12 in
  DayFromYear ym + monthStart mn (if DaysInYear ym =? 366 then 1 else 0)
  + date - 1.

Definition MakeDate (day time : Z) : Z := day * msPerDay + time.

Section Zone.
(** Offset of local time, in minutes east of UTC. *)
Variable tz : Z.

Definition LocalTime (t : Z) : Z := t + tz * msPerMinute.
Definition UTC (t : Z) : Z := t - tz * msPerMinute.

(** A Date object is its time value. *)
Definition getTime (d : option Z) : option Z := d.

Definition getFullYear (d : option Z) : option Z :=
  option_map (fun t => YearFromTime (LocalTime t)) d.

Definition getMonth (d : option Z) : option Z :=
  option_map (fun t => MonthFromTime (LocalTime t)) d.

Definition getDate (d : option Z) : option Z :=
  option_map (fun t => DateFromTime (LocalTime t)) d.

Definition getDay (d : option Z) : option Z :=
  option_map (fun t => WeekDay (LocalTime t)) d.

(** [new Date(year, month, date)] and [new Date(year, month)] (with
    [date = 1]), read in local time; a year of [0 .. 99] stands for
    [1900 + year]. *)
Definition fromFields (year month : option Z) (date : Z) : option Z :=
  match year, month with
  | Some y, Some m =>
      let yr := if ((0 <=? y) && (y <=? 99))%bool then 1900 + y else y in
      Some (UTC (MakeDate (MakeDay yr m date) 0))
  | _, _ => None
  end.
End Zone.

Definition twoDigits (a b : ascii) : option Z :=
  match JSString.digitValue a, JSString.digitValue b with
  | Some x, Some y => Some (10 * x + y)
  | _, _ => None
  end.

Definition fourDigits (a b c d : ascii) : option Z :=
  match twoDigits a b, twoDigits c d with
  | Some x, Some y => Some (100 * x + y)
  | _, _ => None
  end.

Definition DaysInMonth (y m : Z) : Z :=
  let L := if DaysInYear y =? 366 then 1 else 0 in
  monthStart (m + 1) L - monthStart m L.

(** The year, month and day of a text in the date-only form
    [YYYY-MM-DD] that names a calendar date. *)
Definition dateFields (s : string) : option (Z * Z * Z) :=
  match s with
  | String y1 (String y2 (String y3 (String y4 (String sep1
      (String m1 (String m2 (String sep2
      (String d1 (String d2 EmptyString))))))))) =>
      if (Ascii.eqb sep1 "-" && Ascii.eqb sep2 "-")%bool then
        match fourDigits y1 y2 y3 y4, twoDigits m1 m2, twoDigits d1 d2 with
        | Some y, Some m, Some d =>
            if ((1 <=? m) && (m <=? 12) && (1 <=? d)
                && (d <=? DaysInMonth y (m - 1)))%bool
            then Some (y, m, d)
            else None
        | _, _, _ => None
        end
      else None
  | _ => None
  end.

(** [new Date(s)] for a text in the date-only form, which is read as
    midnight UTC.  The date input of the entry form yields this form or the
    empty text; every other text is taken here as the Invalid Date. *)
Definition parse (s : string) : option Z :=
  match dateFields s with
  | Some (y, m, d) => Some (MakeDate (MakeDay y (m - 1) d) 0)
  | None => None
  end.

Definition monthShort (m : Z) : string :=
  match m with
  | 0 => "Jan" | 1 => "Feb" | 2 => "Mar" | 3 => "Apr"
  | 4 => "May" | 5 => "Jun" | 6 => "Jul" | 7 => "Aug"
  | 8 => "Sep" | 9 => "Oct" | 10 => "Nov" | _ => "Dec"
  end.

(** [d.toLocaleDateString('en-US', { month: 'short', day: 'numeric' })] *)
Definition toMonthDay (tz : Z) (d : option Z) : string :=
  match getMonth tz d, getDate tz d with
  | Some m, Some dd => monthShort m ++ " " ++ JSString.ofZ dd
  | _, _ => "Invalid Date"
  end.

(** [d.toLocaleString('en-US', { month: 'short', year: 'numeric' })], for
    a year of the common era. *)
Definition toMonthYear (tz : Z) (d : option Z) : string :=
  match getMonth tz d, getFullYear tz d with
  | Some m, Some y => monthShort m ++ " " ++ JSString.ofZ y
  | _, _ => "Invalid Date"
  end.

End JSDate.

(** ** Numbers *)

Module JSNumber.

(** [x || 0] for an optional number. *)
Definition orZero (x : option Z) : Z :=
  match x with Some n => n | None => 0 end.

(** [String(x)], [None] being [NaN]. *)
Definition toString (x : option Z) : string :=
  match x with Some n => JSString.ofZ n | None => "NaN" end.

Definition Qltb (a b : Q) : bool := negb (Qle_bool b a).

Definition roundHalfUp2 (x : Q) : Q := Qred (Qfloor (x * 100 + (1 # 2)) # 100).

(** [parseFloat(x.toFixed(2))] for the Number of value [x]: the multiple
    of 1/100 nearest to [x], the larger magnitude on a tie.  The result
    stands for the Number that [parseFloat] reads from the two-decimal
    text. *)
Definition toFixed2 (x : Q) : Q :=
  if Qle_bool 0 x then roundHalfUp2 x else Qred (- roundHalfUp2 (- x)).

(** [Math.ceil] *)
Definition ceil (x : Q) : Z := Qceiling x.

(** *** Number values (ECMA-262, "The Number Type")

    A finite Number is a rational [m * 2^e] with [|m| < 2^53]; the result
    of an arithmetic operation is the Number value for its exact result:
    the nearest such rational, the one with the even [m] on a tie.  The
    exponent is left unbounded here, so [numberValue x] is the Number value
    for [x] when [2^-1022 <= |x| < 2^1024 - 2^970], the range in which
    binary64 neither overflows nor loses bits to a subnormal. *)

(** [floor (log2 x)] for [0 < x]. *)
Definition exponent (x : Q) : Z :=
  let k := Z.log2 (Qnum x) - Z.log2 (Zpos (Qden x)) in
  if Qle_bool (2 ^ k) x then k else k - 1.

(** The integer nearest to [x], the even one on a tie. *)
Definition roundEven (x : Q) : Z :=
  let f := Qfloor x in
  match (x - inject_Z f ?= 1 # 2)%Q with
  | Lt => f
  | Gt => f + 1
  | Eq => if Z.even f then f else f + 1
  end.

(** [0 < x] rounded to 53 significant bits. *)
Definition round53 (x : Q) : Q :=
  let e := exponent x - 52 in
  (inject_Z (roundEven (x / 2 ^ e)) * 2 ^ e)%Q.

Definition numberValue (x : Q) : Q :=
  let r := Qred x in
  match (r ?= 0)%Q with
  | Eq => 0%Q
  | Gt => round53 r
  | Lt => (- round53 (- r))%Q
  end.

(** The Number for a stored integer, or for the sum of stored integers
    that a [reduce] returns: the integer itself up to [2^53]. *)
Definition fromZ (n : Z) : Q := numberValue (inject_Z n).

(** [x / y] for a divisor other than 0. *)
Definition divide (x y : Q) : Q := numberValue (x / y).

(** [x * y] *)
Definition multiply (x y : Q) : Q := numberValue (x * y).

End JSNumber.

(** ** Data structure and types *)

Inductive Subject : Type := LR | DI | QUANT | VARC.

Definition Subject_eqb (a b : Subject) : bool :=
  match a, b with
  | LR, LR | DI, DI | QUANT, QUANT | VARC, VARC => true
  | _, _ => false
  end.

Record Entry : Type := mkEntry {
  id : string;
  date : string;
  subject : Subject;
  topic : string;
  lrSets : Z;
  diSets : Z;
  vaultSets : Z;
  sectionalSets : Z;
  timeTaken : Z;
  questionsAttempted : Z;
  correctAnswers : Z;
  confidence : Z;
  learnings : string;
  isWeakTopic : bool
}.

(** [Partial<Entry>]: every field may be absent. *)
Record PartialEntry : Type := mkPartial {
  p_id : option string;
  p_date : option string;
  p_subject : option Subject;
  p_topic : option string;
  p_lrSets : option Z;
  p_diSets : option Z;
  p_vaultSets : option Z;
  p_sectionalSets : option Z;
  p_timeTaken : option Z;
  p_questionsAttempted : option Z;
  p_correctAnswers : option Z;
  p_confidence : option Z;
  p_learnings : option string;
  p_isWeakTopic : option bool
}.

(** An [Entry] passed where a [Partial<Entry>] is expected. *)
Definition asPartial (e : Entry) : PartialEntry :=
  mkPartial (Some (id e)) (Some (date e)) (Some (subject e)) (Some (topic e))
    (Some (lrSets e)) (Some (diSets e)) (Some (vaultSets e))
    (Some (sectionalSets e)) (Some (timeTaken e))
    (Some (questionsAttempted e)) (Some (correctAnswers e))
    (Some (confidence e)) (Some (learnings e)) (Some (isWeakTopic e)).

Inductive TimePeriod : Type := daily | weekly | monthly.

Inductive SubjectFilter : Type := Overall | Only (s : Subject).

(** ** Helper functions *)

Definition calculateTotalSets (entry : PartialEntry) : Z :=
  JSNumber.orZero (p_lrSets entry) + JSNumber.orZero (p_diSets entry)
  + JSNumber.orZero (p_vaultSets entry)
  + JSNumber.orZero (p_sectionalSets entry).

(** The exact value of the percentage. *)
Definition calculateAccuracy (entry : PartialEntry) : Q :=
  match p_questionsAttempted entry with
  | None => 0%Q
  | Some attempted =>
      if attempted =? 0 then 0%Q
      else (inject_Z (JSNumber.orZero (p_correctAnswers entry))
            / inject_Z attempted * 100)%Q
  end.

(** The exact value of the quotient. *)
Definition calculateSpeed (entry : PartialEntry) : Q :=
  let totalSets := calculateTotalSets entry in
  if totalSets =? 0 then 0%Q
  else (inject_Z (JSNumber.orZero (p_timeTaken entry)) / inject_Z totalSets)%Q.

(** The Numbers that the two helpers return: the same expressions, each
    operation rounded to binary64. *)
Module Binary64.

Definition calculateAccuracy (entry : PartialEntry) : Q :=
  match p_questionsAttempted entry with
  | None => 0%Q
  | Some attempted =>
      if attempted =? 0 then 0%Q
      else
        JSNumber.multiply
          (JSNumber.divide
             (JSNumber.fromZ (JSNumber.orZero (p_correctAnswers entry)))
             (JSNumber.fromZ attempted))
          100
  end.

Definition calculateSpeed (entry : PartialEntry) : Q :=
  let totalSets := calculateTotalSets entry in
  if totalSets =? 0 then 0%Q
  else
    JSNumber.divide (JSNumber.fromZ (JSNumber.orZero (p_timeTaken entry)))
      (JSNumber.fromZ totalSets).

End Binary64.

(** ** DailyTargetProgress *)

Module DailyTargetProgress.

Record View : Type := mkView {
  setsToday : Z;
  progress : Q;
  barColor : string
}.

(** The values the component derives at a render; [todayStr] is
    [new Date().toISOString().split('T')[0]] at that time. *)
Definition render (todayStr : string) (entries : list Entry) (dailyTarget : Q)
  : View :=
  let setsToday :=
    fold_left (fun sum e => sum + calculateTotalSets (asPartial e))
      (filter (fun e => String.eqb (date e) todayStr) entries) 0 in
  let progress :=
    if JSNumber.Qltb 0 dailyTarget
    then Qmin (inject_Z setsToday / dailyTarget * 100) 100
    else 0%Q in
  let barColor :=
    if Qle_bool dailyTarget (inject_Z setsToday) then "bg-success"
    else if JSNumber.Qltb 50 progress then "bg-yellow-400"
    else "bg-primary" in
  mkView setsToday progress barColor.

(** The persisted target together with the component's local state. *)
Record State : Type := mkState {
  dailyTarget : Q;
  isEditing : bool;
  target : Q
}.

(** [useState(dailyTarget)] on mount. *)
Definition mount (stored : Q) : State := mkState stored false stored.

Definition handleSave (s : State) : State :=
  if JSNumber.Qltb 0 (target s)
  then mkState (target s) false (target s)
  else s.

Inductive Event : Type :=
| ClickEdit
| Change (value : Q)
| ClickSave.

Definition step (s : State) (ev : Event) : State :=
  match ev with
  | ClickEdit => mkState (dailyTarget s) true (target s)
  | Change v => mkState (dailyTarget s) (isEditing s) v
  | ClickSave => handleSave s
  end.

Definition run (s : State) (evs : list Event) : State :=
  fold_left step evs s.

End DailyTargetProgress.

(** ** PerformanceCharts *)

Module PerformanceCharts.

Record ChartPoint : Type := mkPoint {
  name : string;
  Accuracy : Q;
  TotalSets : Z
}.

Section Zone.
Variable tz : Z.

(** The week number inside the label; [None] is [NaN]. *)
Definition weekNumber (date : option Z) : option Z :=
  let firstDay :=
    JSDate.fromFields tz (JSDate.getFullYear tz date) (Some 0) 1 in
  match JSDate.getTime date, JSDate.getTime firstDay,
        JSDate.getDay tz firstDay with
  | Some t, Some f, Some wd =>
      let pastDays := (inject_Z (t - f) / inject_Z 86400000)%Q in
      Some (JSNumber.ceil ((pastDays + inject_Z wd + 1) / 7)%Q)
  | _, _, _ => None
  end.

Definition getWeekLabel (date : option Z) : string :=
  "W" ++ JSNumber.toString (weekNumber date).

Definition sortByDate (es : list Entry) : list Entry :=
  JSArray.sort
    (fun a b =>
       match JSDate.getTime (JSDate.parse (date a)),
             JSDate.getTime (JSDate.parse (date b)) with
       | Some ta, Some tb => Some (ta - tb)
       | _, _ => None
       end) es.

Definition groupKey (timePeriod : TimePeriod) (entry : Entry) : string :=
  let date := JSDate.parse (date entry) in
  match timePeriod with
  | weekly =>
      JSNumber.toString (JSDate.getFullYear tz date) ++ "-"
      ++ getWeekLabel date
  | _ =>
      JSNumber.toString (JSDate.getFullYear tz date) ++ "-"
      ++ JSString.padStart2
           (JSNumber.toString
              (option_map (fun m => m + 1) (JSDate.getMonth tz date)))
  end.

(** One turn of the [forEach] that fills [groupedData].  A key holds a
    ["-"], so the lookup never reaches a property inherited from
    [Object.prototype]. *)
Definition addToGroup (timePeriod : TimePeriod)
    (groupedData : JSObject.t (list Entry)) (entry : Entry)
  : JSObject.t (list Entry) :=
  let key := groupKey timePeriod entry in
  let created :=
    match JSObject.getOwn groupedData key with
    | Some _ => groupedData
    | None => JSObject.setOwn groupedData key []
    end in
  match JSObject.getOwn created key with
  | Some groupEntries =>
      JSObject.setOwn created key (groupEntries ++ [entry])%list
  | None => created
  end.

Definition groupedData (timePeriod : TimePeriod) (sorted : list Entry)
  : JSObject.t (list Entry) :=
  fold_left (addToGroup timePeriod) sorted [].

Definition monthName (key : string) : string :=
  let parts := JSString.splitChar "-" key in
  let year := match parts with y :: _ => JSString.parseInt y | [] => None end in
  let month :=
    match parts with _ :: m :: _ => JSString.parseInt m | _ => None end in
  JSDate.toMonthYear tz
    (JSDate.fromFields tz year (option_map (fun m => m - 1) month) 1).

Definition bucketPoint (timePeriod : TimePeriod)
    (bucket : string * list Entry) : ChartPoint :=
  let (key, groupEntries) := bucket in
  let totalSets :=
    fold_left (fun sum e => sum + calculateTotalSets (asPartial e))
      groupEntries 0 in
  let totalCorrect :=
    fold_left (fun sum e => sum + correctAnswers e) groupEntries 0 in
  let totalAttempted :=
    fold_left (fun sum e => sum + questionsAttempted e) groupEntries 0 in
  let accuracy :=
    if 0 <? totalAttempted
    then
      JSNumber.multiply
        (JSNumber.divide (JSNumber.fromZ totalCorrect)
           (JSNumber.fromZ totalAttempted))
        100
    else 0%Q in
  let name :=
    match timePeriod with
    | monthly => monthName key
    | _ => key
    end in
  mkPoint name (JSNumber.toFixed2 accuracy) totalSets.

Definition dailyPoint (entry : Entry) : ChartPoint :=
  mkPoint (JSDate.toMonthDay tz (JSDate.parse (date entry)))
    (JSNumber.toFixed2 (Binary64.calculateAccuracy (asPartial entry)))
    (calculateTotalSets (asPartial entry)).

Definition chartData (entries : list Entry) (timePeriod : TimePeriod)
    (selectedSubject : SubjectFilter) : list ChartPoint :=
  let filteredEntries :=
    match selectedSubject with
    | Overall => entries
    | Only s => filter (fun e => Subject_eqb (subject e) s) entries
    end in
  let sorted := sortByDate filteredEntries in
  match timePeriod with
  | daily => JSArray.sliceLast 30 (map dailyPoint sorted)
  | _ =>
      map (bucketPoint timePeriod)
        (JSObject.entries (groupedData timePeriod sorted))
  end.
End Zone.

End PerformanceCharts.

(** ** AIInsights *)

Module AIInsights.

Definition staticTipsLength : Z := 5.

Definition noMistakesMessage : string :=
  "No mistakes logged yet. Add learnings to your entries to analyze patterns.".

Definition notEnoughMessage : string :=
  "Not enough data to identify key patterns. Keep logging your mistakes!".

Definition stopWords : list string :=
  ["a"; "an"; "the"; "in"; "on"; "is"; "was"; "to"; "for"; "of"; "and";
   "i"; "my"; "it"; "with"; "not"; "did"; "had"; "but"].

(** [stopWords.has(word)] *)
Definition isStopWord (word : string) : bool :=
  existsb (String.eqb word) stopWords.

(** [entries.map(e => e.learnings).filter(l => l.trim() !== '').join(' ')] *)
Definition allLearnings (entries : list Entry) : string :=
  JSString.join " "
    (filter (fun l => negb (JSString.isEmpty (JSString.trim l)))
       (map learnings entries)).

Definition words (text : string) : list string :=
  JSString.splitWS (JSString.stripDotComma (JSString.toLowerCase text)).

(** The test of the counting loop. *)
Definition counted (word : string) : bool :=
  (negb (isStopWord word) && (3 <? Z.of_nat (String.length word)))%bool.

(** A value held by [wordFrequencies]: a count, or the text that [+ 1]
    makes of a value that is not a number. *)
Inductive Value : Type :=
| Num (n : Z)
| Str (s : string).

(** What [wordFrequencies[word]] reads: an own property, or for the two
    lower-case names that [Object.prototype] defines the inherited value,
    or [undefined]. *)
Inductive Read : Type :=
| Own (v : Value)
| ObjectConstructor
| ObjectPrototype
| Undefined.

Definition read (wordFrequencies : JSObject.t Value) (word : string) : Read :=
  if String.eqb word "__proto__" then ObjectPrototype
  else
    match JSObject.getOwn wordFrequencies word with
    | Some v => Own v
    | None =>
        if String.eqb word "constructor" then ObjectConstructor
        else Undefined
    end.

(** Source text of the built-in [Object] function, as [String(Object)]
    prints it. *)
Definition objectSource : string := "function Object() { [native code] }".

(** [(x || 0) + 1] *)
Definition orZeroPlusOne (x : Read) : Value :=
  match x with
  | Own (Num n) => if n =? 0 then Num 1 else Num (n + 1)
  | Own (Str s) => if JSString.isEmpty s then Num 1 else Str (s ++ "1")
  | ObjectConstructor => Str (objectSource ++ "1")
  | ObjectPrototype => Str ("[object Object]" ++ "1")
  | Undefined => Num 1
  end.

(** [wordFrequencies[word] = v]; the inherited setter of [__proto__]
    ignores a value that is neither an object nor [null]. *)
Definition write (wordFrequencies : JSObject.t Value) (word : string)
    (v : Value) : JSObject.t Value :=
  if String.eqb word "__proto__" then wordFrequencies
  else JSObject.setOwn wordFrequencies word v.

Definition countWord (wordFrequencies : JSObject.t Value) (word : string)
  : JSObject.t Value :=
  if counted word
  then write wordFrequencies word (orZeroPlusOne (read wordFrequencies word))
  else wordFrequencies.

Definition wordFrequencies (ws : list string) : JSObject.t Value :=
  fold_left countWord ws [].

(** [ToNumber]; the only texts stored are [objectSource] followed by
    ["1"]s, which is not a numeric literal. *)
Definition toNumber (v : Value) : option Z :=
  match v with
  | Num n => Some n
  | Str _ => None
  end.

(** [([, a], [, b]) => b - a] *)
Definition byCountDesc (p q : string * Value) : option Z :=
  match toNumber (snd q), toNumber (snd p) with
  | Some b, Some a => Some (b - a)
  | _, _ => None
  end.

Definition sortedKeywordsOf (text : string) : list string :=
  map fst
    (JSArray.sliceFirst 5
       (JSArray.sort byCountDesc
          (JSObject.entries (wordFrequencies (words text))))).

Definition keywordLine (k : string) : string :=
  "- **" ++ JSString.capitalize k
  ++ "**: This appears frequently in your notes.".

(** The value given to [setAnalysisResult] when the timer fires. *)
Definition analyze (entries : list Entry) : list string :=
  let text := allLearnings entries in
  if JSString.isEmpty (JSString.trim text) then [noMistakesMessage]
  else
    let sortedKeywords := sortedKeywordsOf text in
    match sortedKeywords with
    | [] => [notEnoughMessage]
    | _ =>
        "Based on your log, you should focus on:"
        :: map keywordLine sortedKeywords
    end.

(** The ranked keywords of a collection, when there are notes. *)
Definition sortedKeywords (entries : list Entry) : list string :=
  sortedKeywordsOf (allLearnings entries).

(** Component state and the timers that are pending, each with the
    [entries] its closure captured. *)
Record State : Type := mkState {
  isAnalyzing : bool;
  analysisResult : list string;
  currentTipIndex : Z;
  pending : list (list Entry)
}.

Inductive Event : Type :=
| ClickAnalyze (entries : list Entry)
| TimeoutFires
| TipInterval.

(** [handleAnalyzeMistakes], up to the call of [setTimeout]. *)
Definition handleAnalyzeMistakes (s : State) (entries : list Entry) : State :=
  mkState true [] (currentTipIndex s) (pending s ++ [entries])%list.

Definition step (s : State) (ev : Event) : State :=
  match ev with
  | ClickAnalyze entries =>
      (* the button is disabled while an analysis runs *)
      if isAnalyzing s then s else handleAnalyzeMistakes s entries
  | TimeoutFires =>
      match pending s with
      | [] => s
      | entries :: rest =>
          mkState false (analyze entries) (currentTipIndex s) rest
      end
  | TipInterval =>
      mkState (isAnalyzing s) (analysisResult s)
        ((currentTipIndex s + 1) mod staticTipsLength) (pending s)
  end.

Definition run (s : State) (evs : list Event) : State :=
  fold_left step evs s.

End AIInsights.

(** ** Text forms of numbers and dates *)

Module JSFormat.

Definition digitChar (n : Z) : ascii := ascii_of_N (48 + Z.to_N n).

(** A number of [0 .. 99] in two digits. *)
Definition pad2 (n : Z) : string :=
  String (digitChar (n / 10)) (String (digitChar (n mod 10)) EmptyString).

Definition pad4 (n : Z) : string := pad2 (n / 100) ++ pad2 (n mod 100).

Definition pad6 (n : Z) : string := pad2 (n / 10000) ++ pad4 (n mod 10000).

(** The year of [toISOString]: four digits for [0 .. 9999], otherwise a
    sign and six digits. *)
Definition isoYear (y : Z) : string :=
  if ((0 <=? y) && (y <=? 9999))%bool then pad4 y
  else if y <? 0 then "-" ++ pad6 (- y)
  else "+" ++ pad6 y.

(** [d.toISOString().split('T')[0]] for a valid time value: the UTC date. *)
Definition isoDate (t : Z) : string :=
  isoYear (JSDate.YearFromTime t) ++ "-"
  ++ pad2 (JSDate.MonthFromTime t + 1) ++ "-"
  ++ pad2 (JSDate.DateFromTime t).

(** [x.toFixed(2)] for the Number of value [x], of a magnitude below
    [10^21]: the sign of a negative [x], then the nearest multiple of 1/100
    of the magnitude (the larger on a tie) with two decimals. *)
Definition toFixed2Text (x : Q) : string :=
  let sign := if JSNumber.Qltb x 0 then "-" else "" in
  let magnitude := if JSNumber.Qltb x 0 then (- x)%Q else x in
  let n := Qfloor (magnitude * 100 + (1 # 2))%Q in
  sign ++ JSString.ofZ (n / 100) ++ "." ++ pad2 (n mod 100).

End JSFormat.

(** [formatDate]; [None] is the [RangeError] that [toISOString] throws on
    the Invalid Date. *)
Definition formatDate (date : option Z) : option string :=
  option_map JSFormat.isoDate date.

(** ** DashboardMetrics *)

Module DashboardMetrics.

Record Metrics : Type := mkMetrics {
  totalSets : Z;
  overallAccuracy : string;
  avgSpeed : string
}.

Definition metrics (entries : list Entry) : Metrics :=
  match entries with
  | [] => mkMetrics 0 "0.00" "0.00"
  | _ =>
      let totalSets :=
        fold_left (fun acc entry => acc + calculateTotalSets (asPartial entry))
          entries 0 in
      let totalCorrect :=
        fold_left (fun acc entry => acc + correctAnswers entry) entries 0 in
      let totalAttempted :=
        fold_left (fun acc entry => acc + questionsAttempted entry) entries 0 in
      let totalTime :=
        fold_left (fun acc entry => acc + timeTaken entry) entries 0 in
      let overallAccuracy :=
        if 0 <? totalAttempted
        then
          JSNumber.multiply
            (JSNumber.divide (JSNumber.fromZ totalCorrect)
               (JSNumber.fromZ totalAttempted))
            100
        else 0%Q in
      let avgSpeed :=
        if 0 <? totalSets
        then
          JSNumber.divide (JSNumber.fromZ totalTime)
            (JSNumber.fromZ totalSets)
        else 0%Q in
      mkMetrics totalSets (JSFormat.toFixed2Text overallAccuracy)
        (JSFormat.toFixed2Text avgSpeed)
  end.

End DashboardMetrics.

(** ** PerformanceCharts: bar colours *)

Module ChartColors.

Definition success : string := "hsl(var(--success))".
Definition secondary : string := "#0ea5e9".
Definition warning : string := "hsl(var(--warning))".

(** The [fill] of the bar of a chart point. *)
Definition cellFill (point : PerformanceCharts.ChartPoint) : string :=
  if Qle_bool 80 (PerformanceCharts.Accuracy point) then success
  else if Qle_bool 60 (PerformanceCharts.Accuracy point) then secondary
  else warning.

End ChartColors.

(** ** EntriesTable *)

Module EntriesTable.

(** [selectedDate] is a text or [null]; the empty text is falsy as well. *)
Definition filteredEntries (entries : list Entry)
    (selectedDate : option string) : list Entry :=
  match selectedDate with
  | None => entries
  | Some d =>
      if JSString.isEmpty d then entries
      else filter (fun entry => String.eqb (date entry) d) entries
  end.

(** [accuracy < 60], on the exact percentage. *)
Definition isRedFlag (entry : Entry) : bool :=
  JSNumber.Qltb (calculateAccuracy (asPartial entry)) 60.

(** The computed cells of a row. *)
Record Row : Type := mkRow {
  rowTotalSets : Z;
  rowAccuracy : string;
  rowRedFlag : bool;
  rowSpeed : string
}.

Definition row (entry : Entry) : Row :=
  mkRow (calculateTotalSets (asPartial entry))
    (JSFormat.toFixed2Text (Binary64.calculateAccuracy (asPartial entry))
     ++ "%")
    (isRedFlag entry)
    (JSFormat.toFixed2Text (Binary64.calculateSpeed (asPartial entry))).

(** The body of the table: the rows, or [None] for the line "No entries
    found for this selection." *)
Definition body (entries : list Entry) (selectedDate : option string)
  : option (list Row) :=
  match filteredEntries entries selectedDate with
  | [] => None
  | shown => Some (map row shown)
  end.

End EntriesTable.

(** ** MistakeLog *)

Module MistakeLog.

Definition mistakes (entries : list Entry) : list Entry :=
  rev (filter (fun e => negb (JSString.isEmpty (JSString.trim (learnings e))))
         entries).

End MistakeLog.

(** ** CalendarView *)

Module CalendarView.

Section Zone.
Variable tz : Z.

(** [currentDate] is a valid Date: it starts as [new Date()] and is then
    built from fields. *)
Definition daysInMonth (currentDate : Z) : option Z :=
  JSDate.getDate tz
    (JSDate.fromFields tz (JSDate.getFullYear tz (Some currentDate))
       (option_map (fun m => m + 1) (JSDate.getMonth tz (Some currentDate)))
       0).

Definition firstDayOfMonth (currentDate : Z) : option Z :=
  JSDate.getDay tz
    (JSDate.fromFields tz (JSDate.getFullYear tz (Some currentDate))
       (JSDate.getMonth tz (Some currentDate)) 1).

(** The date text of the cell of [day]. *)
Definition cellDateStr (currentDate day : Z) : option string :=
  formatDate
    (JSDate.fromFields tz (JSDate.getFullYear tz (Some currentDate))
       (JSDate.getMonth tz (Some currentDate)) day).

(** [entryDates.has(dateStr)] *)
Definition hasEntry (entries : list Entry) (currentDate day : Z) : bool :=
  match cellDateStr currentDate day with
  | Some dateStr => existsb (fun e => String.eqb (date e) dateStr) entries
  | None => false
  end.

Definition handlePrevMonth (currentDate : Z) : option Z :=
  JSDate.fromFields tz (JSDate.getFullYear tz (Some currentDate))
    (option_map (fun m => m - 1) (JSDate.getMonth tz (Some currentDate))) 1.

Definition handleNextMonth (currentDate : Z) : option Z :=
  JSDate.fromFields tz (JSDate.getFullYear tz (Some currentDate))
    (option_map (fun m => m + 1) (JSDate.getMonth tz (Some currentDate))) 1.
End Zone.

End CalendarView.

(** ** Main component: the record collection *)

Module CatMasteryTracker.

(** [Omit<Entry, 'id'>] *)
Record EntryData : Type := mkData {
  d_date : string;
  d_subject : Subject;
  d_topic : string;
  d_lrSets : Z;
  d_diSets : Z;
  d_vaultSets : Z;
  d_sectionalSets : Z;
  d_timeTaken : Z;
  d_questionsAttempted : Z;
  d_correctAnswers : Z;
  d_confidence : Z;
  d_learnings : string;
  d_isWeakTopic : bool
}.

(** [{ ...entryData, id }], also [{ ...e, ...entryData }] for [id = e.id]. *)
Definition withId (entryData : EntryData) (id : string) : Entry :=
  mkEntry id (d_date entryData) (d_subject entryData) (d_topic entryData)
    (d_lrSets entryData) (d_diSets entryData) (d_vaultSets entryData)
    (d_sectionalSets entryData) (d_timeTaken entryData)
    (d_questionsAttempted entryData) (d_correctAnswers entryData)
    (d_confidence entryData) (d_learnings entryData)
    (d_isWeakTopic entryData).

(** The data of an entry, as [setFormState(editingEntry)] loads it. *)
Definition dataOf (e : Entry) : EntryData :=
  mkData (date e) (subject e) (topic e) (lrSets e) (diSets e) (vaultSets e)
    (sectionalSets e) (timeTaken e) (questionsAttempted e) (correctAnswers e)
    (confidence e) (learnings e) (isWeakTopic e).

(** The updater that [handleSaveEntry] gives to [setEntries]; [entryId] is
    its argument [id] and [now] is [new Date().toISOString()] at that
    time.  A [null] or empty [id] means creation. *)
Definition handleSaveEntry (now : string) (entryData : EntryData)
    (entryId : option string) (prev : list Entry) : list Entry :=
  match entryId with
  | Some i =>
      if JSString.isEmpty i then (prev ++ [withId entryData now])%list
      else map (fun e => if String.eqb (id e) i
                         then withId entryData (id e) else e) prev
  | None => (prev ++ [withId entryData now])%list
  end.

(** [handleDelete]; [entryId] is its argument [id] and [confirmed] the
    answer of [window.confirm]. *)
Definition handleDelete (confirmed : bool) (entryId : string)
    (prev : list Entry) : list Entry :=
  if confirmed
  then filter (fun e => negb (String.eqb (id e) entryId)) prev
  else prev.

Definition byDateDesc (a b : Entry) : option Z :=
  match JSDate.getTime (JSDate.parse (date b)),
        JSDate.getTime (JSDate.parse (date a)) with
  | Some tb, Some ta => Some (tb - ta)
  | _, _ => None
  end.

Definition byDateAsc (a b : Entry) : option Z :=
  match JSDate.getTime (JSDate.parse (date a)),
        JSDate.getTime (JSDate.parse (date b)) with
  | Some ta, Some tb => Some (ta - tb)
  | _, _ => None
  end.

Definition sortedEntries (entries : list Entry) : list Entry :=
  JSArray.sort byDateDesc entries.

Definition chronologicalEntries (entries : list Entry) : list Entry :=
  JSArray.sort byDateAsc entries.

(** [handleSubmit] of the entry form, as far as the collection goes. *)
Definition handleSubmit (now : string) (formState : EntryData)
    (editingEntry : option Entry) (prev : list Entry) : list Entry :=
  handleSaveEntry now formState
    (match editingEntry with Some e => Some (id e) | None => None end)
    prev.

End CatMasteryTracker.

(** ** Vocabulary of the statements *)

(** Sum of a list of integers. *)
Definition sumZ (l : list Z) : Z := fold_right Z.add 0 l.

(** [totalSets] of a stored record. *)
Definition totalSets (e : Entry) : Z := calculateTotalSets (asPartial e).

(** A record built from the numeric fields only, the rest at the values of
    [initialFormState]. *)
Definition entryOf (d : string) (sets attempted correct : Z) (notes : string)
  : Entry :=
  mkEntry "" d QUANT "" sets 0 0 0 0 attempted correct 3 notes false.

(** A partial record that carries only the two question counts. *)
Definition countsOnly (attempted correct : option Z) : PartialEntry :=
  mkPartial None None None None None None None None None
    attempted correct None None None.

(** Sum of [totalSets] over the records dated [todayStr]. *)
Definition setsOfToday (todayStr : string) (entries : list Entry) : Z :=
  sumZ (map totalSets
          (filter (fun e => String.eqb (date e) todayStr) entries)).

(** Every character of [s] satisfies [p]. *)
Fixpoint allChars (p : ascii -> bool) (s : string) : bool :=
  match s with
  | EmptyString => true
  | String c s' => (p c && allChars p s')%bool
  end.

(** A character of ASCII text: a code unit below U+0080. *)
Definition asciiChar (c : ascii) : bool := N.ltb (N_of_ascii c) 128.

(** A character that lower-casing, the removal of [.] and [,] and the
    split at blanks all leave in place. *)
Definition keptChar (c : ascii) : bool :=
  (negb (JSString.isWhiteSpace c) && negb (JSString.isDotOrComma c)
   && Ascii.eqb (JSString.lowerChar c) c)%bool.

(** The distinct elements of a list of keys, in the order of their first
    occurrence. *)
Fixpoint firstSeen (ks : list string) : list string :=
  match ks with
  | [] => []
  | k :: ks' => k :: filter (fun k' => negb (String.eqb k' k)) (firstSeen ks')
  end.

(** One turn of a loop that keeps a value per key in a plain object:
    [init] at the first sight of a key, [next] at each later one. *)
Definition upsert {X V : Type} (key : X -> string) (init : X -> V)
    (next : V -> X -> V) (o : JSObject.t V) (x : X) : JSObject.t V :=
  match JSObject.getOwn o (key x) with
  | Some v => JSObject.setOwn o (key x) (next v x)
  | None => JSObject.setOwn o (key x) (init x)
  end.

(** The value such a loop holds for key [k] after the elements [l]. *)
Definition summary {X V : Type} (key : X -> string) (init : X -> V)
    (next : V -> X -> V) (k : string) (l : list X) : option V :=
  fold_left
    (fun a x =>
       if String.eqb (key x) k
       then Some (match a with Some v => next v x | None => init x end)
       else a) l None.

(** The records that pass the subject filter. *)
Definition matchingSubject (selectedSubject : SubjectFilter)
    (entries : list Entry) : list Entry :=
  match selectedSubject with
  | Overall => entries
  | Only s => filter (fun e => Subject_eqb (subject e) s) entries
  end.

(** The records of a list that fall under key [k]. *)
Definition withKey (key : Entry -> string) (k : string) (l : list Entry)
  : list Entry :=
  filter (fun e => String.eqb (key e) k) l.

(** Accuracy of a group as the specification words it: summed correct
    answers over summed attempts, times 100, and 0 when the summed attempts
    are 0. *)
Definition pooledAccuracy (g : list Entry) : Q :=
  let totalAttempted := sumZ (map questionsAttempted g) in
  let totalCorrect := sumZ (map correctAnswers g) in
  if totalAttempted =? 0 then 0%Q
  else (inject_Z totalCorrect / inject_Z totalAttempted * 100)%Q.

(** The bound on the relative error of one binary64 operation, [2^-53]. *)
Definition unitRoundoff : Q := 1 # 2 ^ 53.

(** [t / s] on stored integers, as the program evaluates it. *)
Definition quotient64 (t s : Z) : Q :=
  JSNumber.divide (JSNumber.fromZ t) (JSNumber.fromZ s).

(** [(c / a) * 100] on stored integers, as the program evaluates it. *)
Definition percent64 (c a : Z) : Q := JSNumber.multiply (quotient64 c a) 100.

(** The pooled accuracy of a group, evaluated as the program evaluates
    it. *)
Definition pooledNumber (g : list Entry) : Q :=
  let totalAttempted := sumZ (map questionsAttempted g) in
  let totalCorrect := sumZ (map correctAnswers g) in
  if totalAttempted =? 0 then 0%Q else percent64 totalCorrect totalAttempted.

(** The binary64 number for an integer, in the Standard Library's
    specification of IEEE 754 arithmetic. *)
Definition ieeeNumber (n : Z) : SpecFloat.spec_float :=
  SpecFloat.binary_normalize 53 1024 n 0 false.

(** The value of a finite binary64 number. *)
Definition valueOf (x : SpecFloat.spec_float) : option Q :=
  match x with
  | SpecFloat.S754_zero _ => Some 0%Q
  | SpecFloat.S754_finite s m e =>
      Some ((if s then - 1 else 1) * inject_Z (Z.pos m) * 2 ^ e)%Q
  | _ => None
  end.

(** [(c / a) * 100] over the operations of that specification has the
    value [percent64 c a]. *)
Definition agreesWithIEEE (c a : Z) : bool :=
  match valueOf
          (SpecFloat.SFmul 53 1024
             (SpecFloat.SFdiv 53 1024 (ieeeNumber c) (ieeeNumber a))
             (ieeeNumber 100)) with
  | Some v => Qeq_bool v (percent64 c a)
  | None => false
  end.

(** The pairs of a numerator of [-20 .. n - 21] and a denominator of
    [1 .. n]. *)
Definition countPairs (n : nat) : list (Z * Z) :=
  flat_map
    (fun c => map (fun a => (Z.of_nat c - 20, Z.of_nat a + 1)) (seq 0 n))
    (seq 0 n).

(** Arithmetic mean of the per-record accuracies of a group. *)
Definition meanAccuracy (g : list Entry) : Q :=
  (fold_right Qplus 0 (map (fun e => calculateAccuracy (asPartial e)) g)
   / inject_Z (Z.of_nat (List.length g)))%Q.

(** The two records of the pooled-accuracy example, in one week and one
    month. *)
Definition skewedPair : list Entry :=
  [entryOf "2024-03-01" 1 10 10 ""; entryOf "2024-03-02" 1 100 0 ""].

(** Two records of one month whose pooled accuracy, 23 of 160, lies
    halfway between 14.37 and 14.38. *)
Definition tiePair : list Entry :=
  [entryOf "2024-03-01" 1 80 12 ""; entryOf "2024-03-02" 1 80 11 ""].

(** The two records of the end-to-end scenario of March 2024. *)
Definition marchPair : list Entry :=
  [entryOf "2024-03-01" 2 10 8 ""; entryOf "2024-03-02" 2 8 4 ""].

(** Position of the first occurrence of [w] among the tokens [ws] (their
    number when [w] does not occur). *)
Fixpoint firstIndex (w : string) (ws : list string) : nat :=
  match ws with
  | [] => O
  | x :: rest => if String.eqb x w then O else S (firstIndex w rest)
  end.

(** Number of occurrences of [w] among the tokens [ws]. *)
Definition occurrences (ws : list string) (w : string) : nat :=
  count_occ string_dec ws w.

(** [a] ranks before [b]: more occurrences, or as many and an earlier
    first occurrence. *)
Definition ranksBefore (ws : list string) (a b : string) : Prop :=
  (occurrences ws b < occurrences ws a)%nat
  \/ (occurrences ws a = occurrences ws b
      /\ (firstIndex a ws < firstIndex b ws)%nat).

(** A key that is read back from the object itself: neither of the two
    lower-case names that [Object.prototype] defines. *)
Definition plainKey (w : string) : bool :=
  (negb (String.eqb w "__proto__") && negb (String.eqb w "constructor"))%bool.

(** The compare function that puts array-index keys in numeric order. *)
Definition byIndex (a b : string) : option Z :=
  match JSObject.arrayIndex a, JSObject.arrayIndex b with
  | Some i, Some j => Some (i - j)
  | _, _ => None
  end.

(** The keys of a plain object in the order of [Object.entries], given
    the keys [ks] in creation order. *)
Definition enumerated (ks : list string) : list string :=
  (JSArray.sort byIndex (filter JSObject.isArrayIndex ks)
   ++ filter (fun k => negb (JSObject.isArrayIndex k)) ks)%list.

(** [a] is enumerated before [b]: array-index keys first, in ascending
    numeric order, then the other keys in the order of their first
    occurrence among the tokens [ws]. *)
Definition enumeratedBefore (ws : list string) (a b : string) : Prop :=
  match JSObject.arrayIndex a, JSObject.arrayIndex b with
  | Some i, Some j => i < j
  | Some _, None => True
  | None, Some _ => False
  | None, None => (firstIndex a ws < firstIndex b ws)%nat
  end.

(** [a] is ranked ahead of [b]: more occurrences, or as many and
    enumerated before. *)
Definition ranksAhead (ws : list string) (a b : string) : Prop :=
  (occurrences ws b < occurrences ws a)%nat
  \/ (occurrences ws a = occurrences ws b /\ enumeratedBefore ws a b).

(** The count that [wordFrequencies] holds after [n] sightings of a key. *)
Definition held (n : Z) : option AIInsights.Value :=
  if n =? 0 then None else Some (AIInsights.Num n).

(** The 0-based day offset of the calendar date [y-m-d] from 1 January
    of its year. *)
Definition dayOfYear (y m d : Z) : Z :=
  JSDate.MakeDay y (m - 1) d - JSDate.MakeDay y 0 1.

(** The weekday index (Sunday = 0) of 1 January of year [y]. *)
Definition firstWeekdayOfYear (y : Z) : Z :=
  JSDate.WeekDay (JSDate.MakeDate (JSDate.MakeDay y 0 1) 0).

(** The week number as the specification words it. *)
Definition claimedWeek (y m d : Z) : Z :=
  JSNumber.ceil
    ((inject_Z (dayOfYear y m d) + inject_Z (firstWeekdayOfYear y)) / 7)%Q.

(** The week number with the elapsed days [pastDays] counted as the code
    counts them. *)
Definition weekOf (pastDays : Q) (y : Z) : Z :=
  JSNumber.ceil ((pastDays + inject_Z (firstWeekdayOfYear y) + 1) / 7)%Q.

(** The key of the week [n] of year [y]. *)
Definition weekKey (y n : Z) : string :=
  JSString.ofZ y ++ "-W" ++ JSString.ofZ n.

(** [a] stands before [b] in a ranking by weight: a larger weight, or the
    same weight and [earlier]. *)
Definition ranksBy {A : Type} (weight : A -> Z) (earlier : A -> A -> Prop)
    (a b : A) : Prop :=
  weight b < weight a \/ (weight a = weight b /\ earlier a b).

(** The tokens that the counting loop counts. *)
Definition survivorsOf (ws : list string) : list string :=
  filter AIInsights.counted ws.

(** The count held for a token. *)
Definition tallyOf (ws : list string) (k : string) : AIInsights.Value :=
  AIInsights.Num (Z.of_nat (occurrences ws k)).

(** The compare function of the ranking, on tokens. *)
Definition byTallyOf (ws : list string) (a b : string) : option Z :=
  Some (Z.of_nat (occurrences ws b) - Z.of_nat (occurrences ws a)).

(** The state in which [AIInsights] mounts. *)
Definition insightsMounted : AIInsights.State :=
  AIInsights.mkState false [] 0 [].

(** What the states of [AIInsights] keep: the tip index addresses one of
    the tips, and an analysis is marked as running exactly while its one
    timer is pending. *)
Definition insightsSound (s : AIInsights.State) : Prop :=
  0 <= AIInsights.currentTipIndex s < AIInsights.staticTipsLength
  /\ ((AIInsights.isAnalyzing s = false /\ AIInsights.pending s = [])
      \/ (AIInsights.isAnalyzing s = true
          /\ exists entries, AIInsights.pending s = [entries])).

(** The time value of the date of a record, 0 for an Invalid Date. *)
Definition timeOf (e : Entry) : Z :=
  match JSDate.parse (date e) with Some t => t | None => 0 end.

(** The date of the record is a calendar date. *)
Definition dated (e : Entry) : Prop := JSDate.parse (date e) <> None.

(** The records dated [d]. *)
Definition datedOn (d : string) (l : list Entry) : list Entry :=
  filter (fun e => String.eqb (date e) d) l.

(** The text [YYYY-MM-DD] of a calendar date of the years 0 .. 9999. *)
Definition isoText (y m d : Z) : string :=
  JSFormat.pad4 y ++ "-" ++ JSFormat.pad2 m ++ "-" ++ JSFormat.pad2 d.

(** The leap-day count of year [y]: 1 in a leap year, else 0. *)
Definition leapOf (y : Z) : Z := if JSDate.DaysInYear y =? 366 then 1 else 0.

(** A character other than the separator of the keys. *)
Definition noDash (c : ascii) : bool := negb (Ascii.eqb c "-").

(** * Properties *)

(** ** Number values *)

Lemma pow2_pos (e : Z) : (0 < 2 ^ e)%Q.
Proof. apply Qpower_0_lt. reflexivity. Qed.

Lemma pow2_plus (a b : Z) : (2 ^ (a + b) == 2 ^ a * 2 ^ b)%Q.
Proof. apply Qpower_plus. discriminate. Qed.

Lemma pow2_Z (a : Z) : 0 <= a -> (2 ^ a == inject_Z (2 ^ a))%Q.
Proof. intro H. rewrite Zpower_Qpower by exact H. reflexivity. Qed.

Lemma inject_Z_pos (n : Z) : 0 < n -> (0 < inject_Z n)%Q.
Proof. intro H. change 0%Q with (inject_Z 0). rewrite <- Zlt_Qlt. exact H. Qed.

Lemma roundEven_near (y : Q) :
  (inject_Z (JSNumber.roundEven y) - (1 # 2) <= y
   /\ y <= inject_Z (JSNumber.roundEven y) + (1 # 2))%Q.
Proof.
  unfold JSNumber.roundEven.
  pose proof (Qfloor_le y) as Hlo. pose proof (Qlt_floor y) as Hhi.
  rewrite inject_Z_plus in Hhi. change (inject_Z 1) with 1%Q in Hhi.
  destruct (Qcompare_spec (y - inject_Z (Qfloor y)) (1 # 2)) as [E|E|E].
  - destruct (Z.even (Qfloor y)).
    + split; lra.
    + rewrite inject_Z_plus. change (inject_Z 1) with 1%Q. split; lra.
  - split; lra.
  - rewrite inject_Z_plus. change (inject_Z 1) with 1%Q. split; lra.
Qed.

(** No integer is nearer. *)
Lemma roundEven_nearest (s : Q) (k : Z) :
  (Qabs (inject_Z (JSNumber.roundEven s) - s) <= Qabs (inject_Z k - s))%Q.
Proof.
  destruct (roundEven_near s) as [H1 H2].
  set (m := JSNumber.roundEven s) in *.
  destruct (Z.eq_dec k m) as [->|Hne]; [apply Qle_refl|].
  apply Qle_trans with (1 # 2)%Q.
  - apply Qabs_case; intro; lra.
  - assert (Hk : k + 1 <= m \/ m + 1 <= k) by lia.
    destruct Hk as [Hk|Hk]; rewrite Zle_Qle, inject_Z_plus in Hk;
      change (inject_Z 1) with 1%Q in Hk;
      apply Qabs_case; intro; lra.
Qed.

Lemma exponent_le (x : Q) : (0 < x)%Q -> (2 ^ JSNumber.exponent x <= x)%Q.
Proof.
  intro Hx. unfold JSNumber.exponent.
  set (k := Z.log2 (Qnum x) - Z.log2 (Z.pos (Qden x))).
  destruct (Qle_bool (2 ^ k) x) eqn:E; [apply Qle_bool_iff; exact E|].
  destruct x as [n d]. unfold k. cbn [Qnum Qden].
  assert (Hn : 0 < n) by (unfold Qlt in Hx; simpl in Hx; lia).
  pose proof (Z.log2_spec n Hn) as [Hn1 _].
  pose proof (Z.log2_spec (Z.pos d) (Pos2Z.is_pos d)) as [_ Hd2].
  pose proof (Z.log2_nonneg n) as Hln.
  pose proof (Z.log2_nonneg (Z.pos d)) as Hld.
  replace (Z.log2 n - Z.log2 (Z.pos d) - 1)
    with (Z.log2 n - (Z.log2 (Z.pos d) + 1)) by lia.
  rewrite Qpower_minus by discriminate.
  rewrite (pow2_Z (Z.log2 n)), (pow2_Z (Z.log2 (Z.pos d) + 1)) by lia.
  apply Qle_shift_div_r.
  - apply inject_Z_pos. lia.
  - unfold Qle, Qmult, inject_Z. cbn [Qnum Qden].
    rewrite Z.mul_1_r. rewrite Pos.mul_1_r.
    replace (Z.succ (Z.log2 (Z.pos d))) with (Z.log2 (Z.pos d) + 1) in Hd2
      by lia.
    nia.
Qed.

Lemma exponent_lt (x : Q) : (0 < x)%Q -> (x < 2 ^ (JSNumber.exponent x + 1))%Q.
Proof.
  intro Hx. unfold JSNumber.exponent.
  set (k := Z.log2 (Qnum x) - Z.log2 (Z.pos (Qden x))).
  destruct (Qle_bool (2 ^ k) x) eqn:E.
  - destruct x as [n d]. unfold k. cbn [Qnum Qden].
    assert (Hn : 0 < n) by (unfold Qlt in Hx; simpl in Hx; lia).
    pose proof (Z.log2_spec n Hn) as [_ Hn2].
    pose proof (Z.log2_spec (Z.pos d) (Pos2Z.is_pos d)) as [Hd1 _].
    pose proof (Z.log2_nonneg n) as Hln.
    pose proof (Z.log2_nonneg (Z.pos d)) as Hld.
    replace (Z.log2 n - Z.log2 (Z.pos d) + 1)
      with (Z.log2 n + 1 - Z.log2 (Z.pos d)) by lia.
    rewrite Qpower_minus by discriminate.
    rewrite (pow2_Z (Z.log2 n + 1)), (pow2_Z (Z.log2 (Z.pos d))) by lia.
    apply Qlt_shift_div_l.
    + apply inject_Z_pos. lia.
    + unfold Qlt, Qmult, inject_Z. cbn [Qnum Qden].
      rewrite Z.mul_1_r.
      replace (Z.succ (Z.log2 n)) with (Z.log2 n + 1) in Hn2 by lia.
      nia.
  - replace (k - 1 + 1) with k by lia.
    apply Qnot_le_lt. intro H. apply Qle_bool_iff in H. congruence.
Qed.

(** The scaled value lies in [2^52, 2^53). *)
Lemma scaled_range (x : Q) :
  (0 < x)%Q ->
  (inject_Z (2 ^ 52) <= x / 2 ^ (JSNumber.exponent x - 52)
   /\ x / 2 ^ (JSNumber.exponent x - 52) < inject_Z (2 ^ 53))%Q.
Proof.
  intro Hx. set (e := JSNumber.exponent x - 52).
  pose proof (pow2_pos e) as Hp. split.
  - apply Qle_shift_div_l; [exact Hp|].
    rewrite <- (pow2_Z 52) by lia. rewrite Qmult_comm, <- pow2_plus.
    replace (e + 52) with (JSNumber.exponent x) by (unfold e; lia).
    apply exponent_le. exact Hx.
  - apply Qlt_shift_div_r; [exact Hp|].
    rewrite <- (pow2_Z 53) by lia. rewrite <- pow2_plus.
    replace (53 + e) with (JSNumber.exponent x + 1) by (unfold e; lia).
    apply exponent_lt. exact Hx.
Qed.

(** [round53 x] is a power of 2 times an integer of at most 53 bits. *)
Lemma round53_significand (x : Q) :
  (0 < x)%Q ->
  exists m : Z,
    2 ^ 52 <= m <= 2 ^ 53
    /\ JSNumber.round53 x = (inject_Z m * 2 ^ (JSNumber.exponent x - 52))%Q.
Proof.
  intro Hx. exists (JSNumber.roundEven (x / 2 ^ (JSNumber.exponent x - 52))).
  split; [|reflexivity].
  destruct (scaled_range x Hx) as [Hlo Hhi].
  destruct (roundEven_near (x / 2 ^ (JSNumber.exponent x - 52))) as [H1 H2].
  set (m := JSNumber.roundEven (x / 2 ^ (JSNumber.exponent x - 52))) in *.
  assert (A : (inject_Z (2 ^ 52) < inject_Z (m + 1))%Q).
  { rewrite (inject_Z_plus m 1). change (inject_Z 1) with 1%Q. lra. }
  assert (B : (inject_Z m < inject_Z (2 ^ 53 + 1))%Q).
  { rewrite (inject_Z_plus (2 ^ 53) 1). change (inject_Z 1) with 1%Q. lra. }
  rewrite <- Zlt_Qlt in A, B. lia.
Qed.

(** No power of 2 times an integer of at most 53 bits is nearer to [x]
    than [round53 x]. *)
Lemma round53_nearest (x : Q) (m' e' : Z) :
  (0 < x)%Q -> Z.abs m' <= 2 ^ 53 ->
  (Qabs (JSNumber.round53 x - x) <= Qabs (inject_Z m' * 2 ^ e' - x))%Q.
Proof.
  intros Hx Hm. destruct (scaled_range x Hx) as [Hlo _].
  unfold JSNumber.round53.
  set (e := JSNumber.exponent x - 52) in *.
  pose proof (pow2_pos e) as Hp.
  set (s := (x / 2 ^ e)%Q) in *.
  assert (Hx' : (x == s * 2 ^ e)%Q).
  { unfold s. field. intro H. rewrite H in Hp. discriminate Hp. }
  assert (Hscale : forall k : Z,
             (Qabs (inject_Z k * 2 ^ e - x) == Qabs (inject_Z k - s) * 2 ^ e)%Q).
  { intro k. rewrite Hx' at 1.
    assert (E1 : (inject_Z k * 2 ^ e - s * 2 ^ e == (inject_Z k - s) * 2 ^ e)%Q)
      by ring.
    rewrite E1, Qabs_Qmult, (Qabs_pos (2 ^ e)) by (apply Qlt_le_weak; exact Hp).
    reflexivity. }
  rewrite Hscale.
  destruct (Z.le_gt_cases e e') as [Hee|Hee].
  - (* a multiple of 2^e *)
    assert (Ey : (inject_Z m' * 2 ^ e'
                  == inject_Z (m' * 2 ^ (e' - e)) * 2 ^ e)%Q).
    { rewrite inject_Z_mult, <- (pow2_Z (e' - e)) by lia.
      rewrite <- Qmult_assoc, <- pow2_plus.
      replace (e' - e + e) with e' by lia. reflexivity. }
    rewrite Ey, Hscale.
    apply Qmult_le_compat_r; [|apply Qlt_le_weak; exact Hp].
    apply roundEven_nearest.
  - (* at most 2^52 * 2^e, which is at most x *)
    assert (Hy : (inject_Z m' * 2 ^ e' <= inject_Z (2 ^ 52) * 2 ^ e)%Q).
    { apply Qle_trans with (inject_Z (2 ^ 53) * 2 ^ (e - 1))%Q.
      - apply Qle_trans with (inject_Z (2 ^ 53) * 2 ^ e')%Q.
        + apply Qmult_le_compat_r; [|apply Qlt_le_weak; apply pow2_pos].
          rewrite <- Zle_Qle. lia.
        + rewrite !(Qmult_comm (inject_Z (2 ^ 53))).
          apply Qmult_le_compat_r; [|discriminate].
          apply Qpower_le_compat_l; [lia | discriminate].
      - rewrite <- !pow2_Z by lia. rewrite <- !pow2_plus.
        replace (53 + (e - 1)) with (52 + e) by lia. apply Qle_refl. }
    apply Qle_trans with (Qabs (inject_Z (2 ^ 52) - s) * 2 ^ e)%Q.
    + apply Qmult_le_compat_r; [|apply Qlt_le_weak; exact Hp].
      apply roundEven_nearest.
    + rewrite <- Hscale.
      assert (H52 : (inject_Z (2 ^ 52) * 2 ^ e <= x)%Q).
      { rewrite Hx'. apply Qmult_le_compat_r; [exact Hlo|].
        apply Qlt_le_weak; exact Hp. }
      set (y := (inject_Z m' * 2 ^ e')%Q) in *.
      set (b := (inject_Z (2 ^ 52) * 2 ^ e)%Q) in *.
      do 2 (apply Qabs_case; intro); lra.
Qed.

Lemma round53_near (x : Q) :
  (0 < x)%Q ->
  (x * (1 - unitRoundoff) <= JSNumber.round53 x
   /\ JSNumber.round53 x <= x * (1 + unitRoundoff))%Q.
Proof.
  intro Hx. destruct (scaled_range x Hx) as [Hb _]. unfold JSNumber.round53.
  set (e := JSNumber.exponent x - 52) in *.
  pose proof (pow2_pos e) as Hp.
  pose proof (roundEven_near (x / 2 ^ e)) as [Hlo Hhi].
  set (m := inject_Z (JSNumber.roundEven (x / 2 ^ e))) in *.
  assert (Hx' : (x == (x / 2 ^ e) * 2 ^ e)%Q).
  { field. intro H. rewrite H in Hp. discriminate Hp. }
  set (p := (2 ^ e)%Q) in *. set (y := (x / p)%Q) in *.
  assert (H1 : ((m - (1 # 2)) * p <= y * p)%Q)
    by (apply Qmult_le_compat_r; [exact Hlo | apply Qlt_le_weak; exact Hp]).
  assert (H2 : (y * p <= (m + (1 # 2)) * p)%Q)
    by (apply Qmult_le_compat_r; [exact Hhi | apply Qlt_le_weak; exact Hp]).
  assert (H3 : (inject_Z (2 ^ 52) * p <= y * p)%Q)
    by (apply Qmult_le_compat_r; [exact Hb | apply Qlt_le_weak; exact Hp]).
  rewrite <- Hx' in H1, H2, H3.
  change (inject_Z (2 ^ 52)) with (4503599627370496 # 1)%Q in H3.
  unfold unitRoundoff. change (1 # 2 ^ 53)%Q with (1 # 9007199254740992)%Q.
  split; lra.
Qed.

Lemma numberValue_comp (x y : Q) :
  (x == y)%Q -> JSNumber.numberValue x = JSNumber.numberValue y.
Proof.
  intro H. unfold JSNumber.numberValue. rewrite (Qred_complete x y H).
  reflexivity.
Qed.

Lemma numberValue_proper (x y : Q) :
  (x == y)%Q -> (JSNumber.numberValue x == JSNumber.numberValue y)%Q.
Proof. intro H. rewrite (numberValue_comp x y H). reflexivity. Qed.

Lemma numberValue_0 (x : Q) : (x == 0)%Q -> JSNumber.numberValue x = 0%Q.
Proof. intro H. rewrite (numberValue_comp x 0 H). reflexivity. Qed.

(** One operation is off by a relative [2^-53] at most. *)
Lemma numberValue_near (x : Q) :
  (0 < x)%Q ->
  (x * (1 - unitRoundoff) <= JSNumber.numberValue x
   /\ JSNumber.numberValue x <= x * (1 + unitRoundoff))%Q.
Proof.
  intro Hx. unfold JSNumber.numberValue.
  assert (Hr : (0 < Qred x)%Q) by (rewrite Qred_correct; exact Hx).
  rewrite (proj1 (Qgt_alt _ _) Hr).
  rewrite <- (Qred_correct x) at 1 4.
  apply round53_near. exact Hr.
Qed.

Lemma numberValue_opp (x : Q) :
  (JSNumber.numberValue (- x) == - JSNumber.numberValue x)%Q.
Proof.
  unfold JSNumber.numberValue. rewrite Qred_opp.
  destruct (Qcompare_spec (Qred x) 0) as [E|E|E].
  - assert (E' : (- Qred x == 0)%Q) by (rewrite E; reflexivity).
    rewrite (proj1 (Qeq_alt _ _) E'). reflexivity.
  - assert (E' : (0 < - Qred x)%Q) by lra.
    rewrite (proj1 (Qgt_alt _ _) E'). rewrite Qopp_involutive. reflexivity.
  - assert (E' : (- Qred x < 0)%Q) by lra.
    rewrite (proj1 (Qlt_alt _ _) E').
    assert (Ei : (- - Qred x)%Q = Qred x).
    { destruct (Qred x) as [n d]. unfold Qopp. cbn [Qnum Qden].
      rewrite Z.opp_involutive. reflexivity. }
    rewrite Ei. reflexivity.
Qed.

Lemma numberValue_pos (x : Q) : (0 < x)%Q -> (0 < JSNumber.numberValue x)%Q.
Proof.
  intro Hx. destruct (numberValue_near x Hx) as [H _].
  apply Qlt_le_trans with (x * (1 - unitRoundoff))%Q; [|exact H].
  apply Qmult_lt_0_compat; [exact Hx | reflexivity].
Qed.

Lemma quotient64_near (c a : Z) :
  0 < c -> 0 < a ->
  let E := (inject_Z c / inject_Z a)%Q in
  (0 < quotient64 c a)%Q
  /\ (E * (1 - 3 * unitRoundoff) <= quotient64 c a)%Q
  /\ (quotient64 c a <= E * (1 + 4 * unitRoundoff))%Q.
Proof.
  intros Hc Ha E. unfold quotient64, JSNumber.divide, JSNumber.fromZ.
  pose proof (inject_Z_pos c Hc) as HC. pose proof (inject_Z_pos a Ha) as HA.
  destruct (numberValue_near _ HC) as [Hc1 Hc2].
  destruct (numberValue_near _ HA) as [Ha1 Ha2].
  pose proof (numberValue_pos _ HC) as Hcp.
  pose proof (numberValue_pos _ HA) as Hap.
  set (dc := JSNumber.numberValue (inject_Z c)) in *.
  set (da := JSNumber.numberValue (inject_Z a)) in *.
  assert (Hr : (0 < dc / da)%Q).
  { apply Qlt_shift_div_l; [exact Hap | lra]. }
  destruct (numberValue_near _ Hr) as [Hq1 Hq2].
  pose proof (numberValue_pos _ Hr) as Hqp.
  set (q := JSNumber.numberValue (dc / da)) in *.
  assert (Er : (dc / da * da == dc)%Q).
  { field. intro H. rewrite H in Hap. discriminate Hap. }
  assert (EE : (E * inject_Z a == inject_Z c)%Q).
  { unfold E. field. intro H. rewrite H in HA. discriminate HA. }
  set (r := (dc / da)%Q) in *. set (C := inject_Z c) in *.
  set (A := inject_Z a) in *.
  assert (HE : (0 < E)%Q) by (apply Qlt_shift_div_l; [exact HA | lra]).
  unfold unitRoundoff in *.
  change (1 # 2 ^ 53)%Q with (1 # 9007199254740992)%Q in *.
  split; [exact Hqp|].
  assert (R1 : (E * (1 - (1 # 9007199254740992))
                <= r * (1 + (1 # 9007199254740992)))%Q).
  { apply Qmult_lt_0_le_reg_r with A; [exact HA|]. nra. }
  assert (R2 : (r * (1 - (1 # 9007199254740992))
                <= E * (1 + (1 # 9007199254740992)))%Q).
  { apply Qmult_lt_0_le_reg_r with A; [exact HA|]. nra. }
  split; nra.
Qed.

Lemma percent64_near (c a : Z) :
  0 < c -> 0 < a ->
  let E := (inject_Z c / inject_Z a * 100)%Q in
  (E * (1 - 5 * unitRoundoff) <= percent64 c a)%Q
  /\ (percent64 c a <= E * (1 + 6 * unitRoundoff))%Q.
Proof.
  intros Hc Ha E. unfold percent64, JSNumber.multiply.
  destruct (quotient64_near c a Hc Ha) as (Hq & Hq1 & Hq2).
  set (q := quotient64 c a) in *.
  assert (Hp : (0 < q * 100)%Q) by lra.
  destruct (numberValue_near _ Hp) as [H1 H2].
  set (p := JSNumber.numberValue (q * 100)) in *.
  assert (HE : (0 < inject_Z c / inject_Z a)%Q).
  { apply Qlt_shift_div_l; [apply inject_Z_pos; exact Ha|].
    rewrite Qmult_0_l. apply inject_Z_pos. exact Hc. }
  unfold E. set (F := (inject_Z c / inject_Z a)%Q) in *.
  unfold unitRoundoff in *.
  change (1 # 2 ^ 53)%Q with (1 # 9007199254740992)%Q in *.
  split; nra.
Qed.

Lemma Qdiv_opp_r (x y : Q) : (x / - y == - (x / y))%Q.
Proof.
  destruct (Qeq_dec y 0) as [E|E].
  - rewrite E. unfold Qdiv. change (/ - 0)%Q with 0%Q. change (/ 0)%Q with 0%Q.
    ring.
  - field. exact E.
Qed.

Lemma Qdiv_0_r (x : Q) : (x / 0 == 0)%Q.
Proof. unfold Qdiv. change (/ 0)%Q with 0%Q. ring. Qed.

Lemma quotient64_opp_l (c a : Z) :
  (quotient64 (- c) a == - quotient64 c a)%Q.
Proof.
  unfold quotient64, JSNumber.divide, JSNumber.fromZ.
  rewrite <- numberValue_opp. apply numberValue_proper.
  rewrite inject_Z_opp, numberValue_opp. unfold Qdiv. ring.
Qed.

Lemma quotient64_opp_r (c a : Z) :
  (quotient64 c (- a) == - quotient64 c a)%Q.
Proof.
  unfold quotient64, JSNumber.divide, JSNumber.fromZ.
  rewrite <- numberValue_opp. apply numberValue_proper.
  rewrite inject_Z_opp, numberValue_opp. apply Qdiv_opp_r.
Qed.

Lemma quotient64_0_l (a : Z) : quotient64 0 a = 0%Q.
Proof.
  unfold quotient64, JSNumber.divide. apply numberValue_0.
  unfold JSNumber.fromZ. rewrite (numberValue_0 (inject_Z 0)) by reflexivity.
  unfold Qdiv. ring.
Qed.

Lemma quotient64_0_r (c : Z) : quotient64 c 0 = 0%Q.
Proof.
  unfold quotient64, JSNumber.divide. apply numberValue_0.
  unfold JSNumber.fromZ. rewrite (numberValue_0 (inject_Z 0)) by reflexivity.
  apply Qdiv_0_r.
Qed.

Lemma percent64_of_0 (c a : Z) : quotient64 c a = 0%Q -> percent64 c a = 0%Q.
Proof. intro H. unfold percent64, JSNumber.multiply. rewrite H. reflexivity. Qed.

Lemma percent64_opp_l (c a : Z) : (percent64 (- c) a == - percent64 c a)%Q.
Proof.
  unfold percent64, JSNumber.multiply.
  rewrite <- numberValue_opp. apply numberValue_proper.
  rewrite quotient64_opp_l. ring.
Qed.

Lemma percent64_opp_r (c a : Z) : (percent64 c (- a) == - percent64 c a)%Q.
Proof.
  unfold percent64, JSNumber.multiply.
  rewrite <- numberValue_opp. apply numberValue_proper.
  rewrite quotient64_opp_r. ring.
Qed.

Lemma close_opp (p E p' E' k : Q) :
  (p == - p')%Q -> (E == - E')%Q ->
  (Qabs (p' - E') <= Qabs E' * k)%Q -> (Qabs (p - E) <= Qabs E * k)%Q.
Proof.
  intros Hp HE H. rewrite Hp, HE, Qabs_opp.
  assert (E1 : (- p' - - E' == - (p' - E'))%Q) by ring.
  rewrite E1, Qabs_opp. exact H.
Qed.

Section BySymmetry.
(** An expression [f] over two stored integers and its exact value [g],
    both odd in each argument and 0 when an argument is 0. *)
Variables f g : Z -> Z -> Q.
Variable k : Q.
Hypothesis f_opp_l : forall c a, (f (- c) a == - f c a)%Q.
Hypothesis f_opp_r : forall c a, (f c (- a) == - f c a)%Q.
Hypothesis g_opp_l : forall c a, (g (- c) a == - g c a)%Q.
Hypothesis g_opp_r : forall c a, (g c (- a) == - g c a)%Q.
Hypothesis f_0_l : forall a, (f 0 a == 0)%Q.
Hypothesis f_0_r : forall c, (f c 0 == 0)%Q.
Hypothesis g_0_l : forall a, (g 0 a == 0)%Q.
Hypothesis g_0_r : forall c, (g c 0 == 0)%Q.
Hypothesis close_pos :
  forall c a, 0 < c -> 0 < a -> (Qabs (f c a - g c a) <= Qabs (g c a) * k)%Q.

Lemma close_all (c a : Z) : (Qabs (f c a - g c a) <= Qabs (g c a) * k)%Q.
Proof.
  assert (Hz : forall x y : Q, (x == 0)%Q -> (y == 0)%Q ->
                               (Qabs (x - y) <= Qabs y * k)%Q).
  { intros x y Hx Hy. rewrite Hx, Hy. rewrite Qmult_0_l. apply Qle_refl. }
  assert (Hl : forall c a, (Qabs (f (- c) a - g (- c) a)
                            <= Qabs (g (- c) a) * k)%Q ->
                           (Qabs (f c a - g c a) <= Qabs (g c a) * k)%Q).
  { intros c0 a0. apply close_opp.
    - rewrite f_opp_l, Qopp_involutive. reflexivity.
    - rewrite g_opp_l, Qopp_involutive. reflexivity. }
  assert (Hr : forall c a, (Qabs (f c (- a) - g c (- a))
                            <= Qabs (g c (- a)) * k)%Q ->
                           (Qabs (f c a - g c a) <= Qabs (g c a) * k)%Q).
  { intros c0 a0. apply close_opp.
    - rewrite f_opp_r, Qopp_involutive. reflexivity.
    - rewrite g_opp_r, Qopp_involutive. reflexivity. }
  destruct (Z.lt_trichotomy c 0) as [Hc|[->|Hc]];
    [| apply Hz; [apply f_0_l | apply g_0_l] |];
    (destruct (Z.lt_trichotomy a 0) as [Ha|[->|Ha]];
     [| apply Hz; [apply f_0_r | apply g_0_r] |]).
  - apply Hl, Hr, close_pos; lia.
  - apply Hl, close_pos; lia.
  - apply Hr, close_pos; lia.
  - apply close_pos; assumption.
Qed.
End BySymmetry.

(** The quotient that the program computes is within a relative [2^-51]
    of the exact quotient. *)
Lemma quotient64_close (t s : Z) :
  (Qabs (quotient64 t s - inject_Z t / inject_Z s)
   <= Qabs (inject_Z t / inject_Z s) * (1 # 2 ^ 51))%Q.
Proof.
  apply (close_all quotient64 (fun t s => (inject_Z t / inject_Z s)%Q)).
  - apply quotient64_opp_l.
  - apply quotient64_opp_r.
  - intros c a. rewrite inject_Z_opp. unfold Qdiv. ring.
  - intros c a. rewrite inject_Z_opp. apply Qdiv_opp_r.
  - intro a. rewrite quotient64_0_l. reflexivity.
  - intro c. rewrite quotient64_0_r. reflexivity.
  - intro a. unfold Qdiv. ring.
  - intro c. apply Qdiv_0_r.
  - intros c a Hc Ha. destruct (quotient64_near c a Hc Ha) as (_ & H1 & H2).
    assert (HE : (0 < inject_Z c / inject_Z a)%Q).
    { apply Qlt_shift_div_l; [apply inject_Z_pos; exact Ha|].
      rewrite Qmult_0_l. apply inject_Z_pos. exact Hc. }
    set (F := (inject_Z c / inject_Z a)%Q) in *.
    rewrite (Qabs_pos F) by lra.
    unfold unitRoundoff in *.
    change (1 # 2 ^ 53)%Q with (1 # 9007199254740992)%Q in *.
    change (1 # 2 ^ 51)%Q with (1 # 2251799813685248)%Q.
    apply Qabs_case; intro; lra.
Qed.

(** The percentage that the program computes is within a relative
    [2^-50] of the exact percentage. *)
Lemma percent64_close (c a : Z) :
  (Qabs (percent64 c a - inject_Z c / inject_Z a * 100)
   <= Qabs (inject_Z c / inject_Z a * 100) * (1 # 2 ^ 50))%Q.
Proof.
  apply (close_all percent64 (fun c a => (inject_Z c / inject_Z a * 100)%Q)).
  - apply percent64_opp_l.
  - apply percent64_opp_r.
  - intros c0 a0. rewrite inject_Z_opp. unfold Qdiv. ring.
  - intros c0 a0. rewrite inject_Z_opp, Qdiv_opp_r. ring.
  - intro a0. rewrite percent64_of_0 by apply quotient64_0_l. reflexivity.
  - intro c0. rewrite percent64_of_0 by apply quotient64_0_r. reflexivity.
  - intro a0. unfold Qdiv. ring.
  - intro c0. rewrite Qdiv_0_r. ring.
  - intros c0 a0 Hc Ha. destruct (percent64_near c0 a0 Hc Ha) as [H1 H2].
    assert (HE : (0 < inject_Z c0 / inject_Z a0 * 100)%Q).
    { assert (0 < inject_Z c0 / inject_Z a0)%Q; [|lra].
      apply Qlt_shift_div_l; [apply inject_Z_pos; exact Ha|].
      rewrite Qmult_0_l. apply inject_Z_pos. exact Hc. }
    set (F := (inject_Z c0 / inject_Z a0 * 100)%Q) in *.
    rewrite (Qabs_pos F) by lra.
    unfold unitRoundoff in *.
    change (1 # 2 ^ 53)%Q with (1 # 9007199254740992)%Q in *.
    change (1 # 2 ^ 50)%Q with (1 # 1125899906842624)%Q.
    apply Qabs_case; intro; lra.
Qed.

(** On the counts of [-20 .. 39] over [1 .. 60] the percentage is the one
    that the binary64 operations of the Standard Library give. *)
Lemma percent64_agrees_with_IEEE :
  forallb (fun p => agreesWithIEEE (fst p) (snd p)) (countPairs 60) = true.
Proof. vm_compute. reflexivity. Qed.

(** The helpers in binary64 against their exact values. *)
Lemma accuracy_binary64_close (e : PartialEntry) :
  (Qabs (Binary64.calculateAccuracy e - calculateAccuracy e)
   <= Qabs (calculateAccuracy e) * (1 # 2 ^ 50))%Q.
Proof.
  unfold Binary64.calculateAccuracy, calculateAccuracy.
  destruct (p_questionsAttempted e) as [a|]; [|discriminate].
  destruct (a =? 0); [discriminate|].
  apply percent64_close.
Qed.

Lemma speed_binary64_close (e : PartialEntry) :
  (Qabs (Binary64.calculateSpeed e - calculateSpeed e)
   <= Qabs (calculateSpeed e) * (1 # 2 ^ 51))%Q.
Proof.
  unfold Binary64.calculateSpeed, calculateSpeed.
  destruct (calculateTotalSets e =? 0); [discriminate|].
  apply quotient64_close.
Qed.

(** Two decimals are off by half a hundredth at most. *)
Lemma roundHalfUp2_near (x : Q) :
  (x - (1 # 200) <= JSNumber.roundHalfUp2 x
   /\ JSNumber.roundHalfUp2 x <= x + (1 # 200))%Q.
Proof.
  unfold JSNumber.roundHalfUp2. rewrite Qred_correct.
  pose proof (Qfloor_le (x * 100 + (1 # 2))) as Hlo.
  pose proof (Qlt_floor (x * 100 + (1 # 2))) as Hhi.
  rewrite inject_Z_plus in Hhi. change (inject_Z 1) with 1%Q in Hhi.
  set (n := Qfloor (x * 100 + (1 # 2))) in *.
  assert (En : (n # 100 == inject_Z n / 100)%Q).
  { unfold Qeq, Qdiv, Qmult, Qinv, inject_Z. cbn [Qnum Qden]. lia. }
  rewrite En. split.
  - apply Qle_shift_div_l; [reflexivity | lra].
  - apply Qle_shift_div_r; [reflexivity | lra].
Qed.

Lemma toFixed2_close (x : Q) : (Qabs (JSNumber.toFixed2 x - x) <= 1 # 200)%Q.
Proof.
  unfold JSNumber.toFixed2. destruct (Qle_bool 0 x).
  - destruct (roundHalfUp2_near x). apply Qabs_case; intro; lra.
  - rewrite Qred_correct. destruct (roundHalfUp2_near (- x)).
    apply Qabs_case; intro; lra.
Qed.

(** ** Arithmetic of percentages *)

Lemma Qltb_lt (a b : Q) : JSNumber.Qltb a b = true <-> (a < b)%Q.
Proof.
  unfold JSNumber.Qltb. rewrite negb_true_iff.
  split; intro H.
  - apply Qnot_le_lt. intro Hle. apply Qle_bool_iff in Hle. congruence.
  - destruct (Qle_bool b a) eqn:E; trivial.
    apply Qle_bool_iff in E. exfalso. exact (Qlt_not_le _ _ H E).
Qed.

Lemma Qltb_nlt (a b : Q) : JSNumber.Qltb a b = false <-> ~ (a < b)%Q.
Proof.
  rewrite <- Qltb_lt. destruct (JSNumber.Qltb a b); split; congruence.
Qed.

Lemma percent_zero_iff (c a : Z) :
  a <> 0 -> ((inject_Z c / inject_Z a * 100 == 0)%Q <-> c = 0).
Proof.
  intro Ha. unfold Qeq, Qdiv, Qmult, Qinv, inject_Z. simpl.
  destruct a as [|p|p]; try congruence; simpl; lia.
Qed.

Lemma percent_nonneg (c a : Z) :
  0 <= c -> 0 < a -> (0 <= inject_Z c / inject_Z a * 100)%Q.
Proof.
  intros Hc Ha. unfold Qle, Qdiv, Qmult, Qinv, inject_Z. simpl.
  destruct a as [|p|p]; try lia. simpl. lia.
Qed.

Lemma fold_left_add_from {A : Type} (f : A -> Z) (l : list A) (acc : Z) :
  fold_left (fun sum e => sum + f e) l acc = acc + sumZ (map f l).
Proof.
  revert acc. induction l as [|x l IH]; intro acc; simpl.
  - lia.
  - rewrite IH. lia.
Qed.

Lemma fold_left_add {A : Type} (f : A -> Z) (l : list A) :
  fold_left (fun sum e => sum + f e) l 0 = sumZ (map f l).
Proof. rewrite fold_left_add_from. lia. Qed.

(** ** Comparisons on Numbers *)

(** The Number value for a positive [x] is a power of 2 times an integer
    of 53 bits, and no power of 2 times an integer of at most 53 bits is
    nearer to [x]. *)
Lemma numberValue_positive (x : Q) :
  (0 < x)%Q -> JSNumber.numberValue x = JSNumber.round53 (Qred x).
Proof.
  intro Hx. unfold JSNumber.numberValue.
  assert (Hr : (0 < Qred x)%Q) by (rewrite Qred_correct; exact Hx).
  rewrite (proj1 (Qgt_alt _ _) Hr). reflexivity.
Qed.

Lemma numberValue_significand (x : Q) :
  (0 < x)%Q ->
  exists m e : Z,
    2 ^ 52 <= m <= 2 ^ 53
    /\ JSNumber.numberValue x = (inject_Z m * 2 ^ e)%Q.
Proof.
  intro Hx. rewrite numberValue_positive by exact Hx.
  assert (Hr : (0 < Qred x)%Q) by (rewrite Qred_correct; exact Hx).
  destruct (round53_significand _ Hr) as (m & Hm & E).
  exists m, (JSNumber.exponent (Qred x) - 52). split; assumption.
Qed.

Lemma numberValue_nearest (x : Q) (m' e' : Z) :
  (0 < x)%Q -> Z.abs m' <= 2 ^ 53 ->
  (Qabs (JSNumber.numberValue x - x) <= Qabs (inject_Z m' * 2 ^ e' - x))%Q.
Proof.
  intros Hx Hm. rewrite numberValue_positive by exact Hx.
  assert (Hr : (0 < Qred x)%Q) by (rewrite Qred_correct; exact Hx).
  pose proof (round53_nearest (Qred x) m' e' Hr Hm) as H.
  rewrite (Qred_correct x) in H at 2 3. exact H.
Qed.

(** Rounding keeps the order. *)
Lemma numberValue_mono (x y : Q) :
  (0 < x)%Q -> (x <= y)%Q ->
  (JSNumber.numberValue x <= JSNumber.numberValue y)%Q.
Proof.
  intros Hx Hxy.
  destruct (Qeq_dec x y) as [E|Hne].
  { rewrite (numberValue_comp x y E). apply Qle_refl. }
  assert (Hlt : (x < y)%Q).
  { apply Qnot_le_lt. intro H. apply Hne. apply Qle_antisym; assumption. }
  assert (Hy : (0 < y)%Q) by lra.
  destruct (numberValue_significand x Hx) as (mx & ex & Hmx & Ex).
  destruct (numberValue_significand y Hy) as (my & ey & Hmy & Ey).
  pose proof (numberValue_nearest x my ey Hx ltac:(lia)) as Nx.
  pose proof (numberValue_nearest y mx ex Hy ltac:(lia)) as Ny.
  rewrite <- Ey in Nx. rewrite <- Ex in Ny.
  set (X := JSNumber.numberValue x) in *.
  set (Y := JSNumber.numberValue y) in *.
  apply Qnot_lt_le. intro Hc.
  revert Nx Ny. do 4 (apply Qabs_case; intro); intros; lra.
Qed.

(** A stored integer of at most 53 bits is a Number. *)
Lemma fromZ_exact (n : Z) :
  0 < n <= 2 ^ 53 -> (JSNumber.fromZ n == inject_Z n)%Q.
Proof.
  intro Hn. unfold JSNumber.fromZ.
  pose proof (numberValue_nearest (inject_Z n) n 0
                (inject_Z_pos n ltac:(lia)) ltac:(lia)) as H.
  assert (E : (inject_Z n * 2 ^ 0 - inject_Z n == 0)%Q).
  { change (2 ^ 0)%Q with 1%Q. ring. }
  rewrite E in H. change (Qabs 0) with 0%Q in H.
  set (v := JSNumber.numberValue (inject_Z n)) in *.
  revert H. apply Qabs_case; intros; lra.
Qed.

(** For counts that the form can hold, of at most 53 bits over fewer
    than 48 bits, the program's test [accuracy < 60] on the Number and the
    test on the exact percentage agree. *)
Lemma below_60_binary64 (c a : Z) :
  0 <= c <= 2 ^ 53 -> 0 < a < 2 ^ 48 ->
  JSNumber.Qltb (percent64 c a) 60
  = JSNumber.Qltb (inject_Z c / inject_Z a * 100) 60.
Proof.
  intros Hc Ha.
  pose proof (inject_Z_pos a ltac:(lia)) as HA.
  assert (EA : (inject_Z c / inject_Z a * inject_Z a == inject_Z c)%Q).
  { field. intro H. rewrite H in HA. discriminate HA. }
  destruct (Z.eq_dec c 0) as [->|Hc0].
  { rewrite percent64_of_0 by apply quotient64_0_l. reflexivity. }
  assert (HC : (0 < inject_Z c)%Q) by (apply inject_Z_pos; lia).
  assert (HE : (0 < inject_Z c / inject_Z a)%Q).
  { apply Qlt_shift_div_l; [exact HA | lra]. }
  destruct (Z_lt_le_dec (5 * c) (3 * a)) as [Hlt|Hge].
  - (* below *)
    assert (H1 : JSNumber.Qltb (inject_Z c / inject_Z a * 100) 60 = true).
    { apply Qltb_lt.
      assert (Hq : (inject_Z (5 * c) < inject_Z (3 * a))%Q)
        by (rewrite <- Zlt_Qlt; exact Hlt).
      rewrite !inject_Z_mult in Hq.
      change (inject_Z 5) with 5%Q in Hq. change (inject_Z 3) with 3%Q in Hq.
      apply Qmult_lt_r with (inject_Z a); [exact HA|]. nra. }
    rewrite H1. apply Qltb_lt.
    destruct (percent64_near c a ltac:(lia) ltac:(lia)) as [_ Hup].
    assert (Hq : (inject_Z (5 * c + 1) <= inject_Z (3 * a))%Q)
      by (rewrite <- Zle_Qle; lia).
    rewrite inject_Z_plus, !inject_Z_mult in Hq.
    change (inject_Z 5) with 5%Q in Hq. change (inject_Z 3) with 3%Q in Hq.
    change (inject_Z 1) with 1%Q in Hq.
    assert (Hb : (inject_Z a < inject_Z (2 ^ 48))%Q)
      by (rewrite <- Zlt_Qlt; lia).
    change (inject_Z (2 ^ 48)) with (281474976710656 # 1)%Q in Hb.
    set (P := percent64 c a) in *.
    set (E := (inject_Z c / inject_Z a)%Q) in *.
    set (A := inject_Z a) in *. set (C := inject_Z c) in *.
    unfold unitRoundoff in Hup.
    change (1 # 2 ^ 53)%Q with (1 # 9007199254740992)%Q in Hup.
    apply Qmult_lt_r with A; [exact HA|]. nra.
  - (* not below *)
    assert (H1 : JSNumber.Qltb (inject_Z c / inject_Z a * 100) 60 = false).
    { apply negb_false_iff. apply Qle_bool_iff.
      assert (Hq : (inject_Z (3 * a) <= inject_Z (5 * c))%Q)
        by (rewrite <- Zle_Qle; exact Hge).
      rewrite !inject_Z_mult in Hq.
      change (inject_Z 5) with 5%Q in Hq. change (inject_Z 3) with 3%Q in Hq.
      apply Qmult_lt_0_le_reg_r with (inject_Z a); [exact HA|]. nra. }
    rewrite H1. apply negb_false_iff. apply Qle_bool_iff.
    assert (Hq : (3 # 5 <= inject_Z c / inject_Z a)%Q).
    { apply Qle_shift_div_l; [exact HA|].
      assert (Hq : (inject_Z (3 * a) <= inject_Z (5 * c))%Q)
        by (rewrite <- Zle_Qle; exact Hge).
      rewrite !inject_Z_mult in Hq.
      change (inject_Z 5) with 5%Q in Hq. change (inject_Z 3) with 3%Q in Hq.
      lra. }
    unfold percent64, JSNumber.multiply, quotient64, JSNumber.divide.
    assert (Eq : JSNumber.numberValue (JSNumber.fromZ c / JSNumber.fromZ a)
                 = JSNumber.numberValue (inject_Z c / inject_Z a)).
    { apply numberValue_comp.
      rewrite (fromZ_exact c), (fromZ_exact a) by lia. reflexivity. }
    rewrite Eq.
    pose proof (numberValue_mono (3 # 5) _ ltac:(reflexivity) Hq) as Hm.
    set (q := JSNumber.numberValue (inject_Z c / inject_Z a)) in *.
    assert (H35 : (0 < JSNumber.numberValue (3 # 5) * 100)%Q)
      by (vm_compute; reflexivity).
    assert (Hm2 : (JSNumber.numberValue (3 # 5) * 100 <= q * 100)%Q) by lra.
    pose proof (numberValue_mono _ _ H35 Hm2) as Hm3.
    assert (E60 : (JSNumber.numberValue (JSNumber.numberValue (3 # 5) * 100)
                   == 60)%Q) by (vm_compute; reflexivity).
    rewrite E60 in Hm3. exact Hm3.
Qed.

(** ** MetricsCalculator *)

(** C2, as the specification words it, fails: a record with ten questions
    attempted and none correct has accuracy 0 although
    [questionsAttempted] is not 0. *)
Lemma accuracy_zero_with_attempts :
  let e := countsOnly (Some 10) (Some 0) in
  ~ ((calculateAccuracy e == 0)%Q
     <-> JSNumber.orZero (p_questionsAttempted e) = 0).
Proof.
  simpl. intros [H _].
  discriminate (H ltac:(reflexivity)).
Qed.

(** C2 (amended): for every record, also a partial one whose absent fields
    read as 0, with non-negative [questionsAttempted] and [correctAnswers],
    the accuracy of [calculateAccuracy] is at least 0, and it is 0 exactly
    when [questionsAttempted] is 0 or [correctAnswers] is 0. *)
Theorem accuracy_nonneg_zero_iff (e : PartialEntry) :
  0 <= JSNumber.orZero (p_questionsAttempted e) ->
  0 <= JSNumber.orZero (p_correctAnswers e) ->
  (0 <= calculateAccuracy e)%Q
  /\ ((calculateAccuracy e == 0)%Q
      <-> JSNumber.orZero (p_questionsAttempted e) = 0
          \/ JSNumber.orZero (p_correctAnswers e) = 0).
Proof.
  unfold calculateAccuracy.
  destruct (p_questionsAttempted e) as [a|]; simpl.
  - intros Ha Hc. destruct (Z.eqb_spec a 0) as [E|E].
    + split; [apply Qle_refl|]. split; [auto | reflexivity].
    + split.
      * apply percent_nonneg; lia.
      * rewrite percent_zero_iff by assumption. intuition congruence.
  - intros _ _. split; [apply Qle_refl|]. split; [auto | reflexivity].
Qed.

Lemma accuracy_nonneg_zero_iff_witness :
  let e := countsOnly (Some 10) (Some 8) in
  (0 <= calculateAccuracy e)%Q
  /\ ((calculateAccuracy e == 0)%Q <-> 10 = 0 \/ 8 = 0).
Proof.
  apply (accuracy_nonneg_zero_iff (countsOnly (Some 10) (Some 8)));
    simpl; lia.
Defined.

(** ** GoalProgressTracker *)

Section GoalProgress.
Import DailyTargetProgress.

Variable todayStr : string.
Variable entries : list Entry.
Variable goal : Q.

Lemma render_setsToday :
  setsToday (render todayStr entries goal) = setsOfToday todayStr entries.
Proof. unfold render, setsOfToday, totalSets. simpl. apply fold_left_add. Qed.

Lemma render_progress :
  progress (render todayStr entries goal)
  = if JSNumber.Qltb 0 goal
    then Qmin (inject_Z (setsOfToday todayStr entries) / goal * 100) 100
    else 0%Q.
Proof.
  unfold render, setsOfToday, totalSets. simpl.
  rewrite fold_left_add. reflexivity.
Qed.

Lemma render_barColor :
  barColor (render todayStr entries goal)
  = if Qle_bool goal (inject_Z (setsOfToday todayStr entries))
    then "bg-success"
    else if JSNumber.Qltb 50 (progress (render todayStr entries goal))
         then "bg-yellow-400" else "bg-primary".
Proof.
  unfold render, setsOfToday, totalSets. simpl.
  rewrite fold_left_add. reflexivity.
Qed.
End GoalProgress.

Lemma percent_full (n : Z) (q : Q) :
  0 < n -> (q == inject_Z n)%Q -> (Qmin (inject_Z n / q * 100) 100 == 100)%Q.
Proof.
  intros Hn Hq.
  assert (E : (inject_Z n / q * 100 == 100)%Q).
  { rewrite Hq. unfold Qeq, Qdiv, Qmult, Qinv, inject_Z. simpl.
    destruct n as [|p|p]; try lia. simpl. lia. }
  rewrite Q.min_l; [exact E|]. rewrite E. apply Qle_refl.
Qed.

(** C5: [setsToday] is the sum of [totalSets] over the records dated today;
    the progress is [min(setsToday / target * 100, 100)] for a positive
    target and 0 otherwise; the bar is "bg-success" (met or exceeded) exactly
    when [setsToday >= target], "bg-yellow-400" (on track) exactly when the
    progress is above 50 and the target is not met, and "bg-primary" (below
    half) otherwise.  So 6 sets against a target of 6 give 100 and met, no
    set against a target of 6 gives 0 and below half, and a target that is
    not positive gives 0 whatever was done. *)
Theorem goal_progress (todayStr : string) (entries : list Entry) (goal : Q) :
  let v := DailyTargetProgress.render todayStr entries goal in
  let sets := setsOfToday todayStr entries in
  DailyTargetProgress.setsToday v = sets
  /\ ((0 < goal)%Q ->
      (DailyTargetProgress.progress v
       == Qmin (inject_Z sets / goal * 100) 100)%Q)
  /\ (~ (0 < goal)%Q -> (DailyTargetProgress.progress v == 0)%Q)
  /\ (DailyTargetProgress.barColor v = "bg-success"
      <-> (goal <= inject_Z sets)%Q)
  /\ (DailyTargetProgress.barColor v = "bg-yellow-400"
      <-> (50 < DailyTargetProgress.progress v)%Q
          /\ ~ (goal <= inject_Z sets)%Q)
  /\ (DailyTargetProgress.barColor v = "bg-primary"
      <-> ~ (50 < DailyTargetProgress.progress v)%Q
          /\ ~ (goal <= inject_Z sets)%Q)
  /\ (sets = 6 -> (goal == 6)%Q ->
      (DailyTargetProgress.progress v == 100)%Q
      /\ DailyTargetProgress.barColor v = "bg-success")
  /\ (sets = 0 -> (goal == 6)%Q ->
      (DailyTargetProgress.progress v == 0)%Q
      /\ DailyTargetProgress.barColor v = "bg-primary").
Proof.
  intros v sets. subst v sets.
  rewrite render_barColor, render_progress, render_setsToday.
  set (sets := setsOfToday todayStr entries).
  assert (Hmet : Qle_bool goal (inject_Z sets) = true
                 <-> (goal <= inject_Z sets)%Q) by apply Qle_bool_iff.
  split; [reflexivity|].
  split. { intro H. apply Qltb_lt in H. rewrite H. reflexivity. }
  split. { intro H. apply Qltb_nlt in H. rewrite H. reflexivity. }
  set (p := if JSNumber.Qltb 0 goal
            then Qmin (inject_Z sets / goal * 100) 100 else 0%Q).
  pose proof (Qltb_lt 50 p) as Hhalf.
  split; [|split; [|split; [|split]]].
  - destruct (Qle_bool goal (inject_Z sets)); [tauto|].
    destruct (JSNumber.Qltb 50 p); split; intro H;
      try discriminate H; apply Hmet in H; discriminate H.
  - destruct (Qle_bool goal (inject_Z sets)).
    + split; [discriminate|]. intros [_ H]. tauto.
    + destruct (JSNumber.Qltb 50 p).
      * split; [|reflexivity]. intros _. split; [tauto|].
        intro H. apply Hmet in H. discriminate H.
      * split; [discriminate|]. intros [H _]. apply Hhalf in H. discriminate H.
  - destruct (Qle_bool goal (inject_Z sets)).
    + split; [discriminate|]. intros [_ H]. tauto.
    + destruct (JSNumber.Qltb 50 p).
      * split; [discriminate|]. intros [H _]. tauto.
      * split; [|reflexivity]. intros _. split.
        -- intro H. apply Hhalf in H. discriminate H.
        -- intro H. apply Hmet in H. discriminate H.
  - intros Hs Hg. subst p. rewrite Hs in *.
    assert (Hpos : JSNumber.Qltb 0 goal = true).
    { apply Qltb_lt. rewrite Hg. reflexivity. }
    assert (Hle : Qle_bool goal (inject_Z 6) = true).
    { apply Qle_bool_iff. rewrite Hg. apply Qle_refl. }
    rewrite Hpos, Hle. split; [|reflexivity].
    apply percent_full; [lia | exact Hg].
  - intros Hs Hg. subst p. rewrite Hs in *.
    assert (Hpos : JSNumber.Qltb 0 goal = true).
    { apply Qltb_lt. rewrite Hg. reflexivity. }
    assert (Hle : Qle_bool goal (inject_Z 0) = false).
    { destruct (Qle_bool goal (inject_Z 0)) eqn:E; trivial.
      apply Qle_bool_iff in E. rewrite Hg in E.
      unfold Qle in E. simpl in E. lia. }
    assert (Hp : (Qmin (inject_Z 0 / goal * 100) 100 == 0)%Q).
    { assert (E : (inject_Z 0 / goal * 100 == 0)%Q).
      { unfold Qdiv. rewrite Qmult_0_l. reflexivity. }
      rewrite Q.min_l; [exact E|]. rewrite E. unfold Qle. simpl. lia. }
    rewrite Hpos, Hle. split; [exact Hp|].
    destruct (JSNumber.Qltb 50 (Qmin (inject_Z 0 / goal * 100) 100)) eqn:E;
      [|reflexivity].
    apply Qltb_lt in E. rewrite Hp in E. unfold Qlt in E. simpl in E. lia.
Qed.

Lemma goal_progress_witness :
  let v := DailyTargetProgress.render "2024-03-01"
             [entryOf "2024-03-01" 2 10 8 ""; entryOf "2024-02-29" 5 10 8 "";
              entryOf "2024-03-01" 4 8 4 ""] (6 # 1) in
  (DailyTargetProgress.progress v == 100)%Q
  /\ DailyTargetProgress.barColor v = "bg-success".
Proof.
  intro v.
  destruct (goal_progress "2024-03-01"
              [entryOf "2024-03-01" 2 10 8 ""; entryOf "2024-02-29" 5 10 8 "";
               entryOf "2024-03-01" 4 8 4 ""] (6 # 1))
    as (_ & _ & _ & _ & _ & _ & H & _).
  apply H; reflexivity.
Defined.

(** C8: a save whose proposed value is not a positive number changes
    nothing: the stored target and the component's own state stay as they
    were. *)
Theorem target_update_rejected (s : DailyTargetProgress.State) (value : Q) :
  ~ (0 < value)%Q ->
  let proposed := DailyTargetProgress.step s (DailyTargetProgress.Change value) in
  DailyTargetProgress.handleSave proposed = proposed
  /\ DailyTargetProgress.dailyTarget
       (DailyTargetProgress.run s
          [DailyTargetProgress.Change value; DailyTargetProgress.ClickSave])
     = DailyTargetProgress.dailyTarget s.
Proof.
  intros H proposed. apply Qltb_nlt in H.
  assert (E : DailyTargetProgress.handleSave proposed = proposed).
  { unfold DailyTargetProgress.handleSave. subst proposed. simpl.
    rewrite H. reflexivity. }
  split; [exact E|].
  change (DailyTargetProgress.dailyTarget
            (DailyTargetProgress.handleSave proposed)
          = DailyTargetProgress.dailyTarget s).
  rewrite E. reflexivity.
Qed.

Lemma target_update_rejected_witness :
  DailyTargetProgress.dailyTarget
    (DailyTargetProgress.run (DailyTargetProgress.mount (6 # 1))
       [DailyTargetProgress.Change (- (3 # 1));
        DailyTargetProgress.ClickSave])
  = 6 # 1.
Proof.
  apply (target_update_rejected (DailyTargetProgress.mount (6 # 1)) (- (3 # 1))).
  discriminate.
Defined.

(** ** KeywordFrequencyAnalyzer: text handling *)

Lemma allChars_app (p : ascii -> bool) (a b : string) :
  allChars p (a ++ b) = (allChars p a && allChars p b)%bool.
Proof.
  induction a as [|c a IH]; simpl; [reflexivity|].
  rewrite IH. apply andb_assoc.
Qed.

Lemma string_app_nil_r (s : string) : s ++ "" = s.
Proof. induction s as [|c s IH]; simpl; congruence. Qed.

Lemma string_app_assoc (a b c : string) : (a ++ b) ++ c = a ++ (b ++ c).
Proof. induction a as [|x a IH]; simpl; congruence. Qed.

Lemma trim_blank (s : string) :
  JSString.isEmpty (JSString.trim s) = allChars JSString.isWhiteSpace s.
Proof.
  unfold JSString.trim. induction s as [|c s IH]; simpl; [reflexivity|].
  destruct (JSString.isWhiteSpace c) eqn:E; simpl.
  - exact IH.
  - rewrite E. reflexivity.
Qed.

Lemma toLowerCase_app (a b : string) :
  JSString.toLowerCase (a ++ b)
  = JSString.toLowerCase a ++ JSString.toLowerCase b.
Proof.
  unfold JSString.toLowerCase.
  induction a as [|c a IH]; simpl; congruence.
Qed.

Lemma stripDotComma_app (a b : string) :
  JSString.stripDotComma (a ++ b)
  = JSString.stripDotComma a ++ JSString.stripDotComma b.
Proof.
  induction a as [|c a IH]; simpl; [reflexivity|].
  destruct (JSString.isDotOrComma c); simpl; congruence.
Qed.

Lemma kept_toLowerCase (s : string) :
  allChars keptChar s = true -> JSString.toLowerCase s = s.
Proof.
  unfold JSString.toLowerCase.
  induction s as [|c s IH]; simpl; [reflexivity|].
  intro H. apply andb_true_iff in H as [Hc Hs].
  unfold keptChar in Hc. apply andb_true_iff in Hc as [_ Hl].
  apply Ascii.eqb_eq in Hl. rewrite Hl, IH by assumption. reflexivity.
Qed.

Lemma kept_stripDotComma (s : string) :
  allChars keptChar s = true -> JSString.stripDotComma s = s.
Proof.
  induction s as [|c s IH]; simpl; [reflexivity|].
  intro H. apply andb_true_iff in H as [Hc Hs].
  unfold keptChar in Hc. apply andb_true_iff in Hc as [Hc _].
  apply andb_true_iff in Hc as [_ Hd]. apply negb_true_iff in Hd.
  rewrite Hd, IH by assumption. reflexivity.
Qed.

Lemma kept_splitWS_from (s cur : string) (inRun : bool) :
  allChars keptChar s = true ->
  JSString.splitWS_from s cur inRun = [cur ++ s].
Proof.
  revert cur inRun. induction s as [|c s IH]; simpl; intros cur inRun H.
  - rewrite string_app_nil_r. reflexivity.
  - apply andb_true_iff in H as [Hc Hs].
    unfold keptChar in Hc. apply andb_true_iff in Hc as [Hc _].
    apply andb_true_iff in Hc as [Hw _]. apply negb_true_iff in Hw.
    rewrite Hw, IH by assumption.
    rewrite string_app_assoc. reflexivity.
Qed.

Lemma kept_words (s : string) :
  allChars keptChar s = true -> AIInsights.words s = [s].
Proof.
  intro H. unfold AIInsights.words, JSString.splitWS.
  rewrite kept_toLowerCase, kept_stripDotComma by assumption.
  apply kept_splitWS_from. exact H.
Qed.

Lemma stripDotComma_filter (s : string) :
  list_ascii_of_string (JSString.stripDotComma s)
  = filter (fun c => negb (JSString.isDotOrComma c)) (list_ascii_of_string s).
Proof.
  induction s as [|c s IH]; simpl; [reflexivity|].
  destruct (JSString.isDotOrComma c); simpl; congruence.
Qed.

Lemma isDotOrComma_spec (c : ascii) :
  JSString.isDotOrComma c = true <-> c = "."%char \/ c = ","%char.
Proof.
  unfold JSString.isDotOrComma. rewrite orb_true_iff, !Ascii.eqb_eq.
  reflexivity.
Qed.

(** C10: the analyzer removes the characters [.] and [,] and no other: the
    stripped text is the text without those two characters; a word followed
    by [.] or [,] yields the bare word as its token, while a word followed
    by any other character that is neither a blank nor an upper-case letter
    keeps it in the token.  Hence ["timing"] and ["timing?"] are counted
    as two terms, and likewise with [!], [;] and [:]. *)
Theorem only_dot_and_comma_stripped :
  (forall s : string,
      list_ascii_of_string (JSString.stripDotComma s)
      = filter (fun c => negb (JSString.isDotOrComma c))
          (list_ascii_of_string s))
  /\ (forall c : ascii,
         JSString.isDotOrComma c = true <-> c = "."%char \/ c = ","%char)
  /\ (forall (w : string) (c : ascii),
         allChars keptChar w = true ->
         AIInsights.words (w ++ ".") = [w]
         /\ AIInsights.words (w ++ ",") = [w]
         /\ (keptChar c = true ->
             AIInsights.words (w ++ String c "") = [w ++ String c ""]))
  /\ AIInsights.sortedKeywords [entryOf "2024-03-01" 1 10 8 "timing timing?"]
     = ["timing"; "timing?"]
  /\ AIInsights.sortedKeywords
       [entryOf "2024-03-01" 1 10 8 "timing! timing; timing: timing"]
     = ["timing!"; "timing;"; "timing:"; "timing"]
  /\ AIInsights.sortedKeywords [entryOf "2024-03-01" 1 10 8 "timing. timing,"]
     = ["timing"].
Proof.
  split; [exact stripDotComma_filter|].
  split; [exact isDotOrComma_spec|].
  split; [|repeat split; reflexivity].
  intros w c Hw.
  assert (Hpunct : forall p : ascii,
             JSString.isDotOrComma p = true ->
             JSString.lowerChar p = p ->
             AIInsights.words (w ++ String p "") = [w]).
  { intros p Hp Hl. unfold AIInsights.words, JSString.splitWS.
    rewrite toLowerCase_app, stripDotComma_app.
    rewrite kept_toLowerCase, kept_stripDotComma by assumption.
    simpl. rewrite Hl, Hp. simpl. rewrite string_app_nil_r.
    apply kept_splitWS_from. exact Hw. }
  split; [apply Hpunct; reflexivity|].
  split; [apply Hpunct; reflexivity|].
  intro Hc. apply kept_words. rewrite allChars_app, Hw. simpl.
  rewrite Hc. reflexivity.
Qed.

Lemma only_dot_and_comma_stripped_witness :
  AIInsights.words ("timing" ++ ".") = ["timing"]
  /\ AIInsights.words ("timing" ++ "?") = ["timing" ++ "?"].
Proof.
  destruct only_dot_and_comma_stripped as (_ & _ & H & _).
  destruct (H "timing" "?"%char eq_refl) as (Hdot & _ & Hother).
  split; [exact Hdot | exact (Hother eq_refl)].
Defined.

(** ** KeywordFrequencyAnalyzer: sentinels *)

Lemma join_blank (notes : list string) :
  Forall (fun l => allChars JSString.isWhiteSpace l = false) notes ->
  notes <> [] ->
  allChars JSString.isWhiteSpace (JSString.join " " notes) = false.
Proof.
  intros Hall Hne. destruct Hall as [|l rest Hl Hrest]; [congruence|].
  simpl. destruct rest; [exact Hl|].
  rewrite allChars_app, Hl. reflexivity.
Qed.

Lemma notes_kept_nonblank (entries : list Entry) :
  Forall (fun l => allChars JSString.isWhiteSpace l = false)
    (filter (fun l => negb (JSString.isEmpty (JSString.trim l)))
       (map learnings entries)).
Proof.
  apply Forall_forall. intros l Hl. apply filter_In in Hl as [_ Hl].
  rewrite trim_blank in Hl. apply negb_true_iff in Hl. exact Hl.
Qed.

Lemma allLearnings_blank_iff (entries : list Entry) :
  JSString.isEmpty (JSString.trim (AIInsights.allLearnings entries)) = true
  <-> (forall e, In e entries -> JSString.trim (learnings e) = "").
Proof.
  unfold AIInsights.allLearnings.
  set (keep := fun l => negb (JSString.isEmpty (JSString.trim l))).
  split.
  - intros H e He.
    destruct (filter keep (map learnings entries)) as [|l rest] eqn:E.
    + assert (Hk : keep (learnings e) = false).
      { destruct (keep (learnings e)) eqn:K; trivial.
        assert (Hin : In (learnings e) (filter keep (map learnings entries))).
        { apply filter_In. split; [apply in_map; exact He | exact K]. }
        rewrite E in Hin. destruct Hin. }
      unfold keep in Hk. apply negb_false_iff in Hk.
      destruct (JSString.trim (learnings e)); [reflexivity | discriminate].
    + rewrite trim_blank in H.
      rewrite join_blank in H; [discriminate | | discriminate].
      rewrite <- E. apply notes_kept_nonblank.
  - intro H.
    assert (E : filter keep (map learnings entries) = []).
    { induction entries as [|e es IH]; simpl; [reflexivity|].
      unfold keep at 1. rewrite (H e) by (left; reflexivity). simpl.
      apply IH. intros e' He'. apply H. right. exact He'. }
    rewrite E. reflexivity.
Qed.

Lemma wordFrequencies_none_counted (ws : list string) (o : JSObject.t AIInsights.Value) :
  (forall w, In w ws -> AIInsights.counted w = false) ->
  fold_left AIInsights.countWord ws o = o.
Proof.
  revert o. induction ws as [|w ws IH]; intros o H; simpl; [reflexivity|].
  unfold AIInsights.countWord at 2. rewrite (H w) by (left; reflexivity).
  apply IH. intros w' Hw'. apply H. right. exact Hw'.
Qed.

(** C7: when every record's notes are empty or blank, the analysis is the
    one-line "no mistakes logged" result; when some notes are not blank but
    every token is a stop word or at most three characters long, it is the
    one-line "not enough data" result; the two results differ, and both are
    ordinary values of the total function [analyze]. *)
Theorem keyword_sentinels (entries : list Entry) :
  ((forall e, In e entries -> JSString.trim (learnings e) = "") ->
   AIInsights.analyze entries = [AIInsights.noMistakesMessage])
  /\ ((exists e, In e entries /\ JSString.trim (learnings e) <> "") ->
      (forall w, In w (AIInsights.words (AIInsights.allLearnings entries)) ->
                 AIInsights.isStopWord w = true
                 \/ (String.length w <= 3)%nat) ->
      AIInsights.analyze entries = [AIInsights.notEnoughMessage])
  /\ [AIInsights.noMistakesMessage] <> [AIInsights.notEnoughMessage].
Proof.
  split; [|split; [|discriminate]].
  - intro H. apply allLearnings_blank_iff in H.
    unfold AIInsights.analyze. rewrite H. reflexivity.
  - intros [e [He Hne]] Hws. unfold AIInsights.analyze.
    destruct (JSString.isEmpty
                (JSString.trim (AIInsights.allLearnings entries))) eqn:B.
    + exfalso. apply Hne. exact (proj1 (allLearnings_blank_iff entries) B e He).
    + unfold AIInsights.sortedKeywordsOf, AIInsights.wordFrequencies.
      rewrite wordFrequencies_none_counted; [reflexivity|].
      intros w Hw. unfold AIInsights.counted.
      destruct (Hws w Hw) as [Hs|Hl].
      * rewrite Hs. reflexivity.
      * apply andb_false_iff. right. apply Z.ltb_ge. lia.
Qed.

Lemma keyword_sentinels_witness :
  AIInsights.analyze [entryOf "2024-03-01" 1 10 8 ""; entryOf "2024-03-02" 1 5 5 "  "]
  = [AIInsights.noMistakesMessage]
  /\ AIInsights.analyze
       [entryOf "2024-03-01" 1 10 8 ""; entryOf "2024-03-02" 1 5 5 "The sum, and it was odd."]
     = [AIInsights.notEnoughMessage].
Proof.
  split.
  - apply (proj1 (keyword_sentinels _)).
    intros e [<-|[<-|[]]]; reflexivity.
  - apply (proj1 (proj2 (keyword_sentinels _))).
    + exists (entryOf "2024-03-02" 1 5 5 "The sum, and it was odd.").
      split; [right; left; reflexivity | discriminate].
    + intros w Hw. vm_compute in Hw.
      destruct Hw as [<-|[<-|[<-|[<-|[<-|[<-|[]]]]]]]; vm_compute;
        first [left; reflexivity | right; lia].
Defined.

(** ** KeywordFrequencyAnalyzer: determinism *)

Lemma analysis_pending (entries : list Entry) (mid : list AIInsights.Event)
    (s : AIInsights.State) :
  Forall (fun ev => ev <> AIInsights.TimeoutFires) mid ->
  AIInsights.isAnalyzing s = true ->
  AIInsights.pending s = [entries] ->
  AIInsights.isAnalyzing (AIInsights.run s mid) = true
  /\ AIInsights.pending (AIInsights.run s mid) = [entries].
Proof.
  intro Hmid. revert s. unfold AIInsights.run.
  induction Hmid as [|ev mid Hev Hmid IH]; intros s Ha Hp; simpl.
  - split; assumption.
  - apply IH; destruct ev; simpl; try congruence; rewrite Ha; assumption.
Qed.

Lemma run_app (s : AIInsights.State) (a b : list AIInsights.Event) :
  AIInsights.run s (a ++ b) = AIInsights.run (AIInsights.run s a) b.
Proof. unfold AIInsights.run. apply fold_left_app. Qed.

(** C9: the analysis is deterministic.  From any idle state of the
    component, a click on "Analyze" followed by any events other than the
    timer (tip rotations, clicks on the disabled button) and then by the
    timer leaves as result [analyze entries], a function of the record
    collection alone; so two runs on the same collection, whenever and
    however often they happen, show the same ranked keywords. *)
Theorem analysis_deterministic (entries : list Entry)
    (s1 s2 : AIInsights.State) (mid1 mid2 : list AIInsights.Event) :
  AIInsights.isAnalyzing s1 = false -> AIInsights.pending s1 = [] ->
  AIInsights.isAnalyzing s2 = false -> AIInsights.pending s2 = [] ->
  Forall (fun ev => ev <> AIInsights.TimeoutFires) mid1 ->
  Forall (fun ev => ev <> AIInsights.TimeoutFires) mid2 ->
  let session mid :=
    (AIInsights.ClickAnalyze entries :: mid ++ [AIInsights.TimeoutFires])%list in
  AIInsights.analysisResult (AIInsights.run s1 (session mid1))
  = AIInsights.analyze entries
  /\ AIInsights.analysisResult (AIInsights.run s1 (session mid1))
     = AIInsights.analysisResult (AIInsights.run s2 (session mid2))
  /\ AIInsights.analysisResult
       (AIInsights.run s1 (session mid1 ++ session mid2))
     = AIInsights.analysisResult (AIInsights.run s1 (session mid1)).
Proof.
  intros Ha1 Hp1 Ha2 Hp2 Hm1 Hm2 session.
  assert (Hrun : forall s mid,
             AIInsights.isAnalyzing s = false -> AIInsights.pending s = [] ->
             Forall (fun ev => ev <> AIInsights.TimeoutFires) mid ->
             let s' := AIInsights.run s (session mid) in
             AIInsights.analysisResult s' = AIInsights.analyze entries
             /\ AIInsights.isAnalyzing s' = false
             /\ AIInsights.pending s' = []).
  { intros s mid Ha Hp Hm. unfold session.
    change (AIInsights.run s (AIInsights.ClickAnalyze entries
                              :: mid ++ [AIInsights.TimeoutFires])%list)
      with (AIInsights.run
              (AIInsights.step s (AIInsights.ClickAnalyze entries))
              (mid ++ [AIInsights.TimeoutFires])%list).
    rewrite run_app. simpl AIInsights.step. rewrite Ha.
    destruct (analysis_pending entries mid
                (AIInsights.handleAnalyzeMistakes s entries) Hm)
      as [_ Hpend].
    - reflexivity.
    - unfold AIInsights.handleAnalyzeMistakes. simpl. rewrite Hp. reflexivity.
    - unfold AIInsights.run at 1. simpl. rewrite Hpend. simpl. auto. }
  destruct (Hrun s1 mid1 Ha1 Hp1 Hm1) as (R1 & A1 & P1).
  destruct (Hrun s2 mid2 Ha2 Hp2 Hm2) as (R2 & _ & _).
  split; [exact R1|]. split; [congruence|].
  rewrite run_app.
  destruct (Hrun (AIInsights.run s1 (session mid1)) mid2 A1 P1 Hm2)
    as (R3 & _ & _).
  congruence.
Qed.

Lemma analysis_deterministic_witness :
  let entries := [entryOf "2024-03-01" 1 10 8 "timing timing? silly"] in
  let idle := AIInsights.mkState false [] 0 [] in
  let stale := AIInsights.mkState false ["old"] 3 [] in
  AIInsights.analysisResult
    (AIInsights.run idle
       [AIInsights.ClickAnalyze entries; AIInsights.TipInterval;
        AIInsights.TimeoutFires])
  = AIInsights.analysisResult
      (AIInsights.run stale
         [AIInsights.ClickAnalyze entries; AIInsights.ClickAnalyze [];
          AIInsights.TimeoutFires]).
Proof.
  intros entries idle stale.
  refine (proj1 (proj2 (analysis_deterministic entries idle stale
            [AIInsights.TipInterval] [AIInsights.ClickAnalyze []]
            eq_refl eq_refl eq_refl eq_refl _ _)));
    repeat constructor; discriminate.
Defined.

(** ** Arrays and plain objects *)

Section SortFacts.
Context {A : Type}.
Variable comparefn : A -> A -> option Z.

Lemma insert_perm (x : A) (l : list A) :
  Permutation (JSArray.insert comparefn x l) (x :: l).
Proof.
  induction l as [|y l IH]; simpl; [reflexivity|].
  destruct (JSArray.notAfter comparefn x y); [reflexivity|].
  rewrite IH. apply perm_swap.
Qed.

Lemma sort_perm (l : list A) : Permutation (JSArray.sort comparefn l) l.
Proof.
  induction l as [|x l IH]; simpl; [reflexivity|].
  rewrite insert_perm. apply perm_skip. exact IH.
Qed.
End SortFacts.

Lemma filter_split_perm {A : Type} (p : A -> bool) (l : list A) :
  Permutation (filter p l ++ filter (fun x => negb (p x)) l) l.
Proof.
  induction l as [|x l IH]; simpl; [reflexivity|].
  destruct (p x); simpl.
  - apply perm_skip. exact IH.
  - rewrite <- Permutation_middle. apply perm_skip. exact IH.
Qed.

Lemma entries_perm {V : Type} (o : JSObject.t V) :
  Permutation (JSObject.entries o) o.
Proof.
  unfold JSObject.entries.
  rewrite sort_perm.
  apply (filter_split_perm (fun p => JSObject.isArrayIndex (fst p))).
Qed.

Lemma filter_all_false {A : Type} (p : A -> bool) (l : list A) :
  Forall (fun x => p x = false) l -> filter p l = [].
Proof.
  induction 1 as [|x l Hx _ IH]; simpl; [reflexivity|].
  rewrite Hx. exact IH.
Qed.

Lemma filter_all_true {A : Type} (p : A -> bool) (l : list A) :
  Forall (fun x => p x = true) l -> filter p l = l.
Proof.
  induction 1 as [|x l Hx _ IH]; simpl; [reflexivity|].
  rewrite Hx, IH. reflexivity.
Qed.

(** Without array-index keys, enumeration follows creation order. *)
Lemma entries_creation_order {V : Type} (o : JSObject.t V) :
  Forall (fun p => JSObject.isArrayIndex (fst p) = false) o ->
  JSObject.entries o = o.
Proof.
  intro H. unfold JSObject.entries.
  rewrite filter_all_false by exact H. simpl.
  apply filter_all_true.
  eapply Forall_impl; [|exact H]. intros p Hp. simpl in Hp. rewrite Hp.
  reflexivity.
Qed.

Section OwnFacts.
Context {V : Type}.

Lemma getOwn_setOwn (o : JSObject.t V) (k k' : string) (v : V) :
  JSObject.getOwn (JSObject.setOwn o k v) k'
  = if String.eqb k k' then Some v else JSObject.getOwn o k'.
Proof.
  induction o as [|[k0 v0] o IH]; simpl.
  - reflexivity.
  - destruct (String.eqb_spec k0 k) as [->|Hne]; simpl.
    + destruct (String.eqb_spec k k'); reflexivity.
    + rewrite IH. destruct (String.eqb_spec k0 k') as [->|];
        [|reflexivity].
      destruct (String.eqb_spec k k'); congruence.
Qed.

Lemma getOwn_None_keys (o : JSObject.t V) (k : string) :
  JSObject.getOwn o k = None <-> ~ In k (map fst o).
Proof.
  induction o as [|[k0 v0] o IH]; simpl; [tauto|].
  destruct (String.eqb_spec k0 k) as [->|Hne].
  - split; [discriminate | tauto].
  - rewrite IH. tauto.
Qed.

Lemma keys_setOwn_old (o : JSObject.t V) (k : string) (v : V) :
  In k (map fst o) -> map fst (JSObject.setOwn o k v) = map fst o.
Proof.
  induction o as [|[k0 v0] o IH]; simpl; [tauto|].
  intros H. destruct (String.eqb_spec k0 k) as [->|Hne]; simpl.
  - reflexivity.
  - rewrite IH; [reflexivity|]. destruct H; congruence.
Qed.

Lemma keys_setOwn_new (o : JSObject.t V) (k : string) (v : V) :
  ~ In k (map fst o) ->
  map fst (JSObject.setOwn o k v) = (map fst o ++ [k])%list.
Proof.
  induction o as [|[k0 v0] o IH]; simpl; [reflexivity|].
  intros H. destruct (String.eqb_spec k0 k) as [->|Hne]; simpl.
  - tauto.
  - rewrite IH; [reflexivity | tauto].
Qed.

Lemma setOwn_setOwn (o : JSObject.t V) (k : string) (v w : V) :
  JSObject.setOwn (JSObject.setOwn o k v) k w = JSObject.setOwn o k w.
Proof.
  induction o as [|[k0 v0] o IH]; simpl.
  - rewrite String.eqb_refl. reflexivity.
  - destruct (String.eqb_spec k0 k) as [->|Hne]; simpl.
    + rewrite String.eqb_refl. reflexivity.
    + destruct (String.eqb_spec k0 k); [congruence|]. rewrite IH.
      reflexivity.
Qed.

Lemma getOwn_In (o : JSObject.t V) (k : string) (v : V) :
  NoDup (map fst o) -> In (k, v) o -> JSObject.getOwn o k = Some v.
Proof.
  induction o as [|[k0 v0] o IH]; simpl; [tauto|].
  intros Hnd [H|H].
  - inversion H; subst. rewrite String.eqb_refl. reflexivity.
  - inversion Hnd as [|? ? Hnotin Hnd']; subst.
    destruct (String.eqb_spec k0 k) as [->|Hne].
    + exfalso. apply Hnotin. change k with (fst (k, v)).
      apply in_map. exact H.
    + apply IH; assumption.
Qed.

Lemma own_explicit (o : JSObject.t V) (G : string -> V) :
  (forall k v, In (k, v) o -> v = G k) ->
  o = map (fun k => (k, G k)) (map fst o).
Proof.
  induction o as [|[k0 v0] o IH]; simpl; intro H; [reflexivity|].
  rewrite <- IH by (intros k v Hin; apply H; right; exact Hin).
  rewrite <- (H k0 v0) by (left; reflexivity). reflexivity.
Qed.
End OwnFacts.

(** ** Keys in the order of first occurrence *)

Lemma firstSeen_In (ks : list string) (k : string) :
  In k (firstSeen ks) <-> In k ks.
Proof.
  induction ks as [|a ks IH]; simpl; [tauto|].
  rewrite filter_In, IH, negb_true_iff.
  destruct (String.eqb_spec k a) as [->|Hne]; split; intro H.
  - left. reflexivity.
  - left. reflexivity.
  - destruct H as [H|[H _]]; [left | right]; assumption.
  - destruct H as [H|H]; [left; exact H | right; split; [exact H | reflexivity]].
Qed.

Lemma firstSeen_NoDup (ks : list string) : NoDup (firstSeen ks).
Proof.
  induction ks as [|a ks IH]; simpl; constructor.
  - rewrite filter_In, String.eqb_refl. intros [_ H]. discriminate H.
  - apply NoDup_filter. exact IH.
Qed.

Lemma firstSeen_snoc (ks : list string) (k : string) :
  firstSeen (ks ++ [k])
  = if in_dec string_dec k ks then firstSeen ks
    else (firstSeen ks ++ [k])%list.
Proof.
  induction ks as [|a ks IH]; simpl; [reflexivity|].
  rewrite IH. destruct (in_dec string_dec k ks) as [Hin|Hnin].
  - destruct (string_dec a k); reflexivity.
  - rewrite filter_app. simpl.
    destruct (string_dec a k) as [->|Hne].
    + rewrite String.eqb_refl. simpl. rewrite app_nil_r. reflexivity.
    + destruct (String.eqb_spec k a); [congruence|]. reflexivity.
Qed.

Section UpsertFacts.
Context {X V : Type}.
Variable key : X -> string.
Variable init : X -> V.
Variable next : V -> X -> V.

Lemma summary_snoc (k : string) (l : list X) (x : X) :
  summary key init next k (l ++ [x])
  = if String.eqb (key x) k
    then Some (match summary key init next k l with
               | Some v => next v x
               | None => init x
               end)
    else summary key init next k l.
Proof. unfold summary. rewrite fold_left_app. reflexivity. Qed.

(** What the loop has built after the elements [l]: one property per
    key, created in the order of first occurrence, holding the summary
    of the elements with that key. *)
Lemma upsert_loop (l : list X) :
  let o := fold_left (upsert key init next) l [] in
  map fst o = firstSeen (map key l)
  /\ (forall k, JSObject.getOwn o k = summary key init next k l).
Proof.
  induction l as [|x l IH] using rev_ind; simpl.
  - split; [reflexivity|]. intro k. reflexivity.
  - rewrite fold_left_app. simpl.
    set (o := fold_left (upsert key init next) l []) in *.
    destruct IH as [Hkeys Hget].
    assert (Hin : In (key x) (map key l) <-> In (key x) (map fst o)).
    { rewrite Hkeys, firstSeen_In. tauto. }
    split.
    + rewrite map_app. simpl. rewrite firstSeen_snoc. unfold upsert.
      destruct (in_dec string_dec (key x) (map key l)) as [Hi|Hni].
      * destruct (JSObject.getOwn o (key x)) eqn:E.
        -- rewrite keys_setOwn_old by tauto. exact Hkeys.
        -- apply getOwn_None_keys in E. tauto.
      * destruct (JSObject.getOwn o (key x)) eqn:E.
        -- exfalso. assert (Hn : JSObject.getOwn o (key x) <> None)
             by congruence.
           rewrite getOwn_None_keys in Hn. tauto.
        -- rewrite keys_setOwn_new by tauto. rewrite Hkeys. reflexivity.
    + intro k. rewrite summary_snoc, <- (Hget k). unfold upsert.
      destruct (JSObject.getOwn o (key x)) eqn:E; rewrite getOwn_setOwn;
        destruct (String.eqb_spec (key x) k) as [<-|Hne];
        try reflexivity; rewrite E; reflexivity.
Qed.
End UpsertFacts.

(** ** TimeBucketAggregator: the groups *)

Lemma sumZ_app (a b : list Z) : sumZ (a ++ b) = sumZ a + sumZ b.
Proof. induction a as [|x a IH]; simpl; lia. Qed.

Lemma sumZ_perm (a b : list Z) : Permutation a b -> sumZ a = sumZ b.
Proof. induction 1; simpl; lia. Qed.

Lemma sumZ_nonneg (l : list Z) : Forall (fun x => 0 <= x) l -> 0 <= sumZ l.
Proof. induction 1; simpl; lia. Qed.

Lemma allDigits_dash (a b : string) (acc : Z) :
  JSObject.allDigits (a ++ String "-" b) acc = None.
Proof.
  revert acc. induction a as [|c a IH]; intro acc; simpl; [reflexivity|].
  destruct (JSString.digitValue c); [apply IH | reflexivity].
Qed.

Lemma isArrayIndex_dash (a b : string) :
  JSObject.isArrayIndex (a ++ String "-" b) = false.
Proof.
  unfold JSObject.isArrayIndex, JSObject.arrayIndex.
  rewrite allDigits_dash. destruct (a ++ String "-" b); reflexivity.
Qed.

Section Groups.
Variable tz : Z.
Variable timePeriod : TimePeriod.

Local Notation key := (PerformanceCharts.groupKey tz timePeriod).

Lemma groupKey_not_index (e : Entry) : JSObject.isArrayIndex (key e) = false.
Proof.
  unfold PerformanceCharts.groupKey.
  destruct timePeriod; apply isArrayIndex_dash.
Qed.

Lemma addToGroup_upsert (o : JSObject.t (list Entry)) (e : Entry) :
  PerformanceCharts.addToGroup tz timePeriod o e
  = upsert key (fun e => [e]) (fun g e => (g ++ [e])%list) o e.
Proof.
  unfold PerformanceCharts.addToGroup, upsert. fold (key e).
  destruct (JSObject.getOwn o (key e)) as [g|] eqn:E.
  - rewrite E. reflexivity.
  - rewrite getOwn_setOwn, String.eqb_refl. apply setOwn_setOwn.
Qed.

Lemma group_summary_from (k : string) (l : list Entry)
    (a : option (list Entry)) :
  fold_left
    (fun a x =>
       if String.eqb (key x) k
       then Some (match a with Some v => (v ++ [x])%list | None => [x] end)
       else a) l a
  = match withKey key k l with
    | [] => a
    | g => Some (match a with Some v => (v ++ g)%list | None => g end)
    end.
Proof.
  revert a. unfold withKey.
  induction l as [|x l IH]; intro a; simpl; [reflexivity|].
  rewrite IH. destruct (String.eqb (key x) k); [|reflexivity].
  destruct (filter (fun e => String.eqb (key e) k) l) as [|y g];
    destruct a as [v|]; simpl; try reflexivity.
  rewrite <- app_assoc. reflexivity.
Qed.

(** [groupedData] holds one group per key, created in the order in which
    the keys first occur, each with the records of that key in order. *)
Lemma groupedData_explicit (sorted : list Entry) :
  PerformanceCharts.groupedData tz timePeriod sorted
  = map (fun k => (k, withKey key k sorted)) (firstSeen (map key sorted)).
Proof.
  unfold PerformanceCharts.groupedData.
  assert (E : fold_left (PerformanceCharts.addToGroup tz timePeriod) sorted []
              = fold_left (upsert key (fun e => [e])
                             (fun g e => (g ++ [e])%list)) sorted []).
  { generalize (@nil (string * list Entry)).
    induction sorted as [|x l IH]; intro o; simpl; [reflexivity|].
    rewrite addToGroup_upsert. apply IH. }
  rewrite E.
  destruct (upsert_loop key (fun e => [e]) (fun g e => (g ++ [e])%list) sorted)
    as [Hkeys Hget].
  set (o := fold_left (upsert key (fun e => [e])
                         (fun g e => (g ++ [e])%list)) sorted []) in *.
  rewrite <- Hkeys. apply own_explicit.
  intros k v Hin.
  assert (Hv : JSObject.getOwn o k = Some v).
  { apply getOwn_In; [|exact Hin]. rewrite Hkeys. apply firstSeen_NoDup. }
  rewrite Hget in Hv. unfold summary in Hv.
  rewrite group_summary_from in Hv.
  destruct (withKey key k sorted); [discriminate|]. congruence.
Qed.

Lemma groups_enumerated (sorted : list Entry) :
  JSObject.entries (PerformanceCharts.groupedData tz timePeriod sorted)
  = map (fun k => (k, withKey key k sorted)) (firstSeen (map key sorted)).
Proof.
  rewrite entries_creation_order; [apply groupedData_explicit|].
  rewrite groupedData_explicit. apply Forall_forall.
  intros p Hp. apply in_map_iff in Hp as [k [<- Hk]]. simpl.
  apply (proj1 (firstSeen_In _ _)) in Hk.
  apply in_map_iff in Hk as [e [<- _]].
  apply groupKey_not_index.
Qed.

(** The groups of distinct keys that cover the keys of [l] partition it. *)
Lemma groups_cover (ks : list string) (l : list Entry) :
  NoDup ks ->
  (forall e, In e l -> In (key e) ks) ->
  Permutation (List.concat (map (fun k => withKey key k l) ks)) l.
Proof.
  intro Hnd. revert l. induction Hnd as [|k ks Hk Hnd IH]; intros l Hall.
  - destruct l as [|e l]; [reflexivity|].
    destruct (Hall e (or_introl eq_refl)).
  - simpl.
    set (rest := filter (fun e => negb (String.eqb (key e) k)) l).
    assert (Hrest : map (fun k' => withKey key k' l) ks
                    = map (fun k' => withKey key k' rest) ks).
    { apply map_ext_in. intros k' Hk'. unfold withKey, rest.
      clear IH Hall. induction l as [|e l IHl]; simpl; [reflexivity|].
      destruct (String.eqb_spec (key e) k) as [E|E]; simpl.
      - destruct (String.eqb_spec (key e) k'); [congruence | exact IHl].
      - destruct (String.eqb (key e) k'); rewrite IHl; reflexivity. }
    rewrite Hrest, IH.
    + apply (filter_split_perm (fun e => String.eqb (key e) k)).
    + intros e He. apply filter_In in He as [He Hne].
      destruct (Hall e He) as [E|Hin]; [|exact Hin].
      rewrite <- E, String.eqb_refl in Hne. discriminate Hne.
Qed.

Lemma groups_partition (sorted : list Entry) :
  Permutation
    (List.concat (map (fun k => withKey key k sorted) (firstSeen (map key sorted))))
    sorted.
Proof.
  apply groups_cover; [apply firstSeen_NoDup|].
  intros e He. apply firstSeen_In. apply in_map. exact He.
Qed.

Lemma bucketPoint_TotalSets (k : string) (g : list Entry) :
  PerformanceCharts.TotalSets (PerformanceCharts.bucketPoint tz timePeriod (k, g))
  = sumZ (map totalSets g).
Proof. simpl. apply fold_left_add. Qed.

Lemma bucketPoint_Accuracy (k : string) (g : list Entry) :
  PerformanceCharts.Accuracy (PerformanceCharts.bucketPoint tz timePeriod (k, g))
  = JSNumber.toFixed2
      (if 0 <? sumZ (map questionsAttempted g)
       then percent64 (sumZ (map correctAnswers g))
              (sumZ (map questionsAttempted g))
       else 0%Q).
Proof.
  unfold PerformanceCharts.bucketPoint. cbn [PerformanceCharts.Accuracy].
  rewrite !fold_left_add. reflexivity.
Qed.
End Groups.

Lemma sortByDate_perm (es : list Entry) :
  Permutation (PerformanceCharts.sortByDate es) es.
Proof. apply sort_perm. Qed.

Lemma sumZ_concat_map {A : Type} (f : A -> Z) (ls : list (list A)) :
  sumZ (map (fun g => sumZ (map f g)) ls) = sumZ (map f (List.concat ls)).
Proof.
  induction ls as [|g ls IH]; simpl; [reflexivity|].
  rewrite map_app, sumZ_app, IH. reflexivity.
Qed.

Lemma sliceLast_map {A B : Type} (f : A -> B) (n : nat) (l : list A) :
  JSArray.sliceLast n (map f l) = map f (JSArray.sliceLast n l).
Proof. unfold JSArray.sliceLast. rewrite length_map, skipn_map. reflexivity. Qed.

Lemma sliceLast_short {A : Type} (n : nat) (l : list A) :
  (List.length l <= n)%nat -> JSArray.sliceLast n l = l.
Proof.
  intro H. unfold JSArray.sliceLast.
  replace (List.length l - n)%nat with 0%nat by lia. reflexivity.
Qed.

(** ** TimeBucketAggregator: volume *)

(** C3, as the specification words it, fails in daily mode: of 31 records
    with one set each, the chart keeps the last 30 points. *)
Lemma daily_sum_truncated :
  let entries := repeat (entryOf "2024-03-01" 1 10 8 "") 31 in
  entries <> []
  /\ sumZ (map PerformanceCharts.TotalSets
             (PerformanceCharts.chartData 0 entries daily Overall)) = 30
  /\ sumZ (map totalSets (matchingSubject Overall entries)) = 31.
Proof. split; [discriminate|]. split; vm_compute; reflexivity. Qed.

(** C3 (amended): for every record collection and subject filter, in weekly
    and in monthly mode the sum of [Total Sets] over the output buckets is
    the sum of [totalSets] over the records that match the filter; in daily
    mode it is the sum over the last 30 of the matching records in date
    order, hence the sum over all of them when at most 30 match. *)
Theorem total_sets_preserved (tz : Z) (entries : list Entry)
    (timePeriod : TimePeriod) (selectedSubject : SubjectFilter) :
  let shown :=
    sumZ (map PerformanceCharts.TotalSets
            (PerformanceCharts.chartData tz entries timePeriod selectedSubject)) in
  let matching := matchingSubject selectedSubject entries in
  (timePeriod <> daily -> shown = sumZ (map totalSets matching))
  /\ (timePeriod = daily ->
      shown = sumZ (map totalSets
                      (JSArray.sliceLast 30
                         (PerformanceCharts.sortByDate matching))))
  /\ (timePeriod = daily -> (List.length matching <= 30)%nat ->
      shown = sumZ (map totalSets matching)).
Proof.
  intros shown matching.
  assert (Hgrouped :
            timePeriod <> daily -> shown = sumZ (map totalSets matching)).
  { intro Hp. subst shown. unfold PerformanceCharts.chartData.
    fold (matchingSubject selectedSubject entries). fold matching.
    set (sorted := PerformanceCharts.sortByDate matching).
    assert (E : map PerformanceCharts.TotalSets
                  (map (PerformanceCharts.bucketPoint tz timePeriod)
                     (JSObject.entries
                        (PerformanceCharts.groupedData tz timePeriod sorted)))
                = map (fun g => sumZ (map totalSets g))
                    (map (fun k =>
                            withKey (PerformanceCharts.groupKey tz timePeriod)
                              k sorted)
                       (firstSeen
                          (map (PerformanceCharts.groupKey tz timePeriod)
                             sorted)))).
    { rewrite groups_enumerated, !map_map. apply map_ext. intro k.
      apply bucketPoint_TotalSets. }
    destruct timePeriod; [congruence| |];
      rewrite E, sumZ_concat_map;
      apply sumZ_perm, Permutation_map;
      (etransitivity; [apply groups_partition | apply sortByDate_perm]). }
  assert (Hdaily :
            timePeriod = daily ->
            shown = sumZ (map totalSets
                            (JSArray.sliceLast 30
                               (PerformanceCharts.sortByDate matching)))).
  { intro Hp. subst shown timePeriod. unfold PerformanceCharts.chartData.
    fold (matchingSubject selectedSubject entries). fold matching.
    rewrite sliceLast_map, map_map. reflexivity. }
  split; [exact Hgrouped|]. split; [exact Hdaily|].
  intros Hp Hlen. rewrite (Hdaily Hp).
  rewrite sliceLast_short.
  - apply sumZ_perm, Permutation_map, sortByDate_perm.
  - rewrite (Permutation_length (sortByDate_perm matching)). exact Hlen.
Qed.

Lemma total_sets_preserved_witness :
  let entries :=
    [entryOf "2024-03-02" 1 8 4 ""; entryOf "2024-03-01" 2 10 8 "";
     entryOf "2023-12-31" 3 5 5 ""] in
  sumZ (map PerformanceCharts.TotalSets
          (PerformanceCharts.chartData 330 entries weekly (Only QUANT)))
  = sumZ (map totalSets (matchingSubject (Only QUANT) entries))
  /\ sumZ (map PerformanceCharts.TotalSets
             (PerformanceCharts.chartData 330 entries daily (Only QUANT)))
     = sumZ (map totalSets (matchingSubject (Only QUANT) entries)).
Proof.
  intro entries. split.
  - apply (proj1 (total_sets_preserved 330 entries weekly (Only QUANT))).
    discriminate.
  - apply (proj2 (proj2 (total_sets_preserved 330 entries daily (Only QUANT))));
      [reflexivity | simpl; lia].
Defined.

(** ** TimeBucketAggregator: accuracy *)

Lemma Forall2_map_same {A B : Type} (P : A -> B -> Prop) (f : A -> B)
    (l : list A) :
  (forall x, In x l -> P x (f x)) -> Forall2 P l (map f l).
Proof.
  induction l as [|x l IH]; simpl; intro H; constructor.
  - apply H. left. reflexivity.
  - apply IH. intros y Hy. apply H. right. exact Hy.
Qed.

Lemma matchingSubject_incl (selectedSubject : SubjectFilter)
    (entries : list Entry) (e : Entry) :
  In e (matchingSubject selectedSubject entries) -> In e entries.
Proof.
  destruct selectedSubject; simpl; [tauto|].
  intro H. apply filter_In in H. tauto.
Qed.

Lemma pooled_as_computed (g : list Entry) :
  Forall (fun e => 0 <= questionsAttempted e) g ->
  (if 0 <? sumZ (map questionsAttempted g)
   then percent64 (sumZ (map correctAnswers g))
          (sumZ (map questionsAttempted g))
   else 0%Q)
  = pooledNumber g.
Proof.
  intro H. unfold pooledNumber.
  assert (Hs : 0 <= sumZ (map questionsAttempted g)).
  { apply sumZ_nonneg. apply Forall_map. exact H. }
  destruct (Z.ltb_spec 0 (sumZ (map questionsAttempted g)));
    destruct (Z.eqb_spec (sumZ (map questionsAttempted g)) 0);
    try reflexivity; lia.
Qed.

(** What is shown for a group is within half a hundredth, and a relative
    [2^-50], of its exact pooled accuracy. *)
Lemma pooled_shown_close (g : list Entry) :
  (Qabs (JSNumber.toFixed2 (pooledNumber g) - pooledAccuracy g)
   <= (1 # 200) + Qabs (pooledAccuracy g) * (1 # 2 ^ 50))%Q.
Proof.
  pose proof (toFixed2_close (pooledNumber g)) as H1.
  assert (H2 : (Qabs (pooledNumber g - pooledAccuracy g)
                <= Qabs (pooledAccuracy g) * (1 # 2 ^ 50))%Q).
  { unfold pooledNumber, pooledAccuracy.
    destruct (sumZ (map questionsAttempted g) =? 0); [discriminate|].
    apply percent64_close. }
  set (shown := JSNumber.toFixed2 (pooledNumber g)) in *.
  set (p := pooledNumber g) in *. set (x := pooledAccuracy g) in *.
  set (b := (Qabs x * (1 # 2 ^ 50))%Q) in *.
  revert H1 H2. do 3 (apply Qabs_case; intro); intros; lra.
Qed.

(** C4: in weekly and in monthly mode there is one bucket per key, and the
    accuracy of a bucket is the summed correct answers over the summed
    attempts of its records, times 100 (0 when the summed attempts are 0),
    as the program evaluates that expression, shown with two decimals: it
    is within half a hundredth, and a relative [2^-50], of the exact pooled
    percentage.  It is not the mean of the accuracies of the records: the
    records (10 attempted, 10 correct) and (100 attempted, 0 correct) of
    one bucket give 9.09, whereas the mean of their accuracies is 50. *)
Theorem bucket_accuracy_pooled :
  (forall (tz : Z) (entries : list Entry) (timePeriod : TimePeriod)
          (selectedSubject : SubjectFilter),
      timePeriod <> daily ->
      Forall (fun e => 0 <= questionsAttempted e) entries ->
      let sorted :=
        PerformanceCharts.sortByDate (matchingSubject selectedSubject entries) in
      let key := PerformanceCharts.groupKey tz timePeriod in
      Forall2
        (fun k point =>
           PerformanceCharts.Accuracy point
           = JSNumber.toFixed2 (pooledNumber (withKey key k sorted))
           /\ (Qabs (PerformanceCharts.Accuracy point
                     - pooledAccuracy (withKey key k sorted))
               <= (1 # 200)
                  + Qabs (pooledAccuracy (withKey key k sorted))
                    * (1 # 2 ^ 50))%Q
           /\ PerformanceCharts.TotalSets point
              = sumZ (map totalSets (withKey key k sorted)))
        (firstSeen (map key sorted))
        (PerformanceCharts.chartData tz entries timePeriod selectedSubject))
  /\ map PerformanceCharts.Accuracy
       (PerformanceCharts.chartData 0 skewedPair weekly Overall) = [909 # 100]
  /\ map PerformanceCharts.Accuracy
       (PerformanceCharts.chartData 0 skewedPair monthly Overall) = [909 # 100]
  /\ JSNumber.toFixed2 (meanAccuracy skewedPair) = 50 # 1.
Proof.
  split; [|repeat split; vm_compute; reflexivity].
  intros tz entries timePeriod selectedSubject Hp Hnn sorted key.
  assert (E : PerformanceCharts.chartData tz entries timePeriod selectedSubject
              = map (fun k => PerformanceCharts.bucketPoint tz timePeriod
                                (k, withKey key k sorted))
                  (firstSeen (map key sorted))).
  { unfold PerformanceCharts.chartData.
    fold (matchingSubject selectedSubject entries). fold sorted.
    destruct timePeriod; [congruence| |];
      rewrite groups_enumerated, map_map; reflexivity. }
  rewrite E. apply Forall2_map_same. intros k _.
  assert (Ea : PerformanceCharts.Accuracy
                 (PerformanceCharts.bucketPoint tz timePeriod
                    (k, withKey key k sorted))
               = JSNumber.toFixed2 (pooledNumber (withKey key k sorted))).
  { rewrite bucketPoint_Accuracy, pooled_as_computed; [reflexivity|].
    apply Forall_forall. intros e He.
    apply filter_In in He as [He _].
    apply (Permutation_in _ (sortByDate_perm _)) in He.
    apply matchingSubject_incl in He.
    exact (proj1 (Forall_forall _ _) Hnn e He). }
  split; [exact Ea|]. split; [|apply bucketPoint_TotalSets].
  rewrite Ea. apply pooled_shown_close.
Qed.

Lemma bucket_accuracy_pooled_witness :
  Forall2
    (fun k point =>
       PerformanceCharts.Accuracy point
       = JSNumber.toFixed2
           (pooledNumber
              (withKey (PerformanceCharts.groupKey 0 monthly) k
                 (PerformanceCharts.sortByDate
                    (matchingSubject Overall marchPair))))
       /\ (Qabs (PerformanceCharts.Accuracy point
                 - pooledAccuracy
                     (withKey (PerformanceCharts.groupKey 0 monthly) k
                        (PerformanceCharts.sortByDate
                           (matchingSubject Overall marchPair))))
           <= (1 # 200)
              + Qabs (pooledAccuracy
                        (withKey (PerformanceCharts.groupKey 0 monthly) k
                           (PerformanceCharts.sortByDate
                              (matchingSubject Overall marchPair))))
                * (1 # 2 ^ 50))%Q
       /\ PerformanceCharts.TotalSets point
          = sumZ (map totalSets
                    (withKey (PerformanceCharts.groupKey 0 monthly) k
                       (PerformanceCharts.sortByDate
                          (matchingSubject Overall marchPair)))))
    (firstSeen
       (map (PerformanceCharts.groupKey 0 monthly)
          (PerformanceCharts.sortByDate (matchingSubject Overall marchPair))))
    (PerformanceCharts.chartData 0 marchPair monthly Overall).
Proof.
  apply (proj1 bucket_accuracy_pooled 0 marchPair monthly Overall).
  - discriminate.
  - repeat constructor; simpl; lia.
Defined.

(** The rounding of the program, not that of the exact percentage, is what
    a bucket shows: 23 correct of 160 is 14.375 exactly, the program holds
    14.374999999999998 and shows 14.37. *)
Example tie_bucket :
  map PerformanceCharts.Accuracy
    (PerformanceCharts.chartData 0 tiePair monthly Overall) = [1437 # 100]
  /\ JSNumber.toFixed2 (pooledAccuracy tiePair) = 719 # 50.
Proof. split; vm_compute; reflexivity. Qed.

(** The end-to-end scenario: the two records of March 2024 make one
    monthly bucket with 4 sets and accuracy 66.67. *)
Example march_bucket :
  PerformanceCharts.chartData 0 marchPair monthly Overall
  = [PerformanceCharts.mkPoint "Mar 2024" (6667 # 100) 4].
Proof. vm_compute. reflexivity. Qed.

(** The table and the dashboard print the same figure. *)
Example tie_row :
  EntriesTable.rowAccuracy
    (EntriesTable.row (entryOf "2024-03-01" 1 160 23 "")) = "14.37%"
  /\ EntriesTable.rowSpeed
       (EntriesTable.row (entryOf "2024-03-01" 7 160 23 "")) = "0.00"
  /\ DashboardMetrics.avgSpeed
       (DashboardMetrics.metrics
          [mkEntry "a" "2024-03-01" LR "" 7 0 0 0 29 10 8 3 "" false])
     = "4.14".
Proof. repeat split; vm_compute; reflexivity. Qed.

(** ** Stable sorting *)

Section Stable.
Context {A : Type}.
Variable comparefn : A -> A -> option Z.
Variable weight : A -> Z.
Variable earlier : A -> A -> Prop.
Hypothesis comparefn_weight :
  forall a b, comparefn a b = Some (weight b - weight a).

Local Notation ranks := (ranksBy weight earlier).

Lemma insert_stable (x : A) (l : list A) :
  StronglySorted ranks l -> Forall (earlier x) l ->
  StronglySorted ranks (JSArray.insert comparefn x l).
Proof.
  induction 1 as [|y l Hl IH Hy]; intro Hx; simpl.
  - constructor; constructor.
  - inversion Hx as [|? ? Hxy Hxl]; subst.
    unfold JSArray.notAfter. rewrite comparefn_weight.
    destruct (Z.leb_spec (weight y - weight x) 0) as [Hle|Hgt].
    + constructor; [constructor; assumption|].
      assert (Hle' : forall z, weight z <= weight x -> earlier x z ->
                               ranks x z).
      { intros z Hz Hxz. unfold ranksBy.
        destruct (Z.eq_dec (weight x) (weight z)); [right; tauto | left; lia]. }
      constructor; [apply Hle'; [lia | exact Hxy]|].
      apply Forall_forall. intros z Hz.
      pose proof (proj1 (Forall_forall _ _) Hy z Hz) as Hyz.
      pose proof (proj1 (Forall_forall _ _) Hxl z Hz) as Hxz.
      apply Hle'; [|exact Hxz]. unfold ranksBy in Hyz. lia.
    + constructor; [apply IH; exact Hxl|].
      apply (Permutation_Forall (Permutation_sym (insert_perm comparefn x l))).
      constructor; [unfold ranksBy; lia | exact Hy].
Qed.

(** Sorting a list that is in [earlier] order puts it in descending
    order of weight and keeps the [earlier] order among equal weights. *)
Lemma sort_stable (l : list A) :
  StronglySorted earlier l -> StronglySorted ranks (JSArray.sort comparefn l).
Proof.
  induction 1 as [|x l Hl IH Hx]; simpl; [constructor|].
  apply insert_stable; [exact IH|].
  apply (Permutation_Forall (Permutation_sym (sort_perm comparefn l))).
  exact Hx.
Qed.
End Stable.

Section SortedFacts.
Context {A : Type}.
Variable comparefn : A -> A -> option Z.
Variable weight : A -> Z.
Variable valid : A -> Prop.
Hypothesis comparefn_valid :
  forall a b, valid a -> valid b -> comparefn a b = Some (weight a - weight b).

Local Notation ascending := (StronglySorted (fun a b => weight a <= weight b)).

Lemma notAfter_valid (a b : A) :
  valid a -> valid b ->
  JSArray.notAfter comparefn a b = (weight a <=? weight b).
Proof.
  intros Ha Hb. unfold JSArray.notAfter. rewrite comparefn_valid by assumption.
  destruct (Z.leb_spec (weight a - weight b) 0);
    destruct (Z.leb_spec (weight a) (weight b)); try reflexivity; lia.
Qed.

Lemma insert_ascending (x : A) (l : list A) :
  valid x -> Forall valid l -> ascending l ->
  ascending (JSArray.insert comparefn x l).
Proof.
  intros Hx Hl Hs. induction Hs as [|y l Hs IH Hy]; simpl.
  - constructor; constructor.
  - inversion Hl as [|? ? Hvy Hvl]; subst.
    rewrite notAfter_valid by assumption.
    destruct (Z.leb_spec (weight x) (weight y)) as [Hle|Hgt].
    + constructor; [constructor; assumption|].
      constructor; [exact Hle|].
      apply Forall_forall. intros z Hz.
      pose proof (proj1 (Forall_forall _ _) Hy z Hz). simpl in *. lia.
    + constructor; [apply IH; exact Hvl|].
      apply (Permutation_Forall (Permutation_sym (insert_perm comparefn x l))).
      constructor; [lia | exact Hy].
Qed.

Lemma sort_ascending (l : list A) :
  Forall valid l -> ascending (JSArray.sort comparefn l).
Proof.
  induction 1 as [|x l Hx Hl IH]; simpl; [constructor|].
  apply insert_ascending; [exact Hx| |exact IH].
  apply (Permutation_Forall (Permutation_sym (sort_perm comparefn l))).
  exact Hl.
Qed.

Lemma insert_least (x : A) (l : list A) :
  valid x -> Forall valid l -> Forall (fun y => weight x <= weight y) l ->
  JSArray.insert comparefn x l = x :: l.
Proof.
  intros Hx Hl Hle. destruct l as [|y l]; simpl; [reflexivity|].
  inversion Hl; subst. inversion Hle; subst.
  rewrite notAfter_valid by assumption.
  destruct (Z.leb_spec (weight x) (weight y)); [reflexivity | lia].
Qed.

(** Sorting a list that is in order leaves it as it is. *)
Lemma sort_ascending_id (l : list A) :
  Forall valid l -> ascending l -> JSArray.sort comparefn l = l.
Proof.
  intros Hl Hs. induction Hs as [|x l Hs IH Hx]; simpl; [reflexivity|].
  inversion Hl; subst. rewrite IH by assumption.
  apply insert_least; assumption.
Qed.

Lemma filter_insert (p : A -> bool) (x : A) (l : list A) :
  valid x -> Forall valid l -> ascending l ->
  filter p (JSArray.insert comparefn x l)
  = if p x then JSArray.insert comparefn x (filter p l) else filter p l.
Proof.
  intros Hx Hl Hs. induction Hs as [|y l Hs IH Hy]; simpl.
  - destruct (p x); reflexivity.
  - inversion Hl as [|? ? Hvy Hvl]; subst.
    rewrite notAfter_valid by assumption.
    destruct (Z.leb_spec (weight x) (weight y)) as [Hle|Hgt].
    + simpl. destruct (p x) eqn:Px; [|reflexivity].
      destruct (p y) eqn:Py.
      * simpl. rewrite notAfter_valid by assumption.
        destruct (Z.leb_spec (weight x) (weight y)); [reflexivity | lia].
      * symmetry. apply insert_least; [exact Hx | |].
        -- apply Forall_forall. intros z Hz. apply filter_In in Hz as [Hz _].
           exact (proj1 (Forall_forall _ _) Hvl z Hz).
        -- apply Forall_forall. intros z Hz. apply filter_In in Hz as [Hz _].
           pose proof (proj1 (Forall_forall _ _) Hy z Hz). simpl in *. lia.
    + simpl. rewrite IH by exact Hvl.
      destruct (p y) eqn:Py; destruct (p x) eqn:Px; try reflexivity.
      simpl. rewrite notAfter_valid by assumption.
      destruct (Z.leb_spec (weight x) (weight y)); [lia | reflexivity].
Qed.

(** Filtering commutes with sorting. *)
Lemma filter_sort (p : A -> bool) (l : list A) :
  Forall valid l ->
  filter p (JSArray.sort comparefn l) = JSArray.sort comparefn (filter p l).
Proof.
  induction 1 as [|x l Hx Hl IH]; simpl; [reflexivity|].
  rewrite filter_insert.
  - rewrite IH. destruct (p x); reflexivity.
  - exact Hx.
  - apply (Permutation_Forall (Permutation_sym (sort_perm comparefn l))).
    exact Hl.
  - apply sort_ascending. exact Hl.
Qed.
End SortedFacts.

Section TiesFacts.
Context {A : Type}.
Variable comparefn : A -> A -> option Z.
Variable p : A -> bool.
(** The elements that [p] selects never compare above one another. *)
Hypothesis ties :
  forall a b, p a = true -> p b = true -> JSArray.notAfter comparefn a b = true.

Lemma filter_insert_ties (x : A) (l : list A) :
  filter p (JSArray.insert comparefn x l)
  = if p x then x :: filter p l else filter p l.
Proof.
  induction l as [|y l IH]; simpl.
  - destruct (p x); reflexivity.
  - destruct (JSArray.notAfter comparefn x y) eqn:E; simpl.
    + destruct (p x); reflexivity.
    + rewrite IH. destruct (p y) eqn:Py; [|reflexivity].
      destruct (p x) eqn:Px; [|reflexivity].
      rewrite (ties x y Px Py) in E. discriminate E.
Qed.

(** The elements that [p] selects keep their order under the sort. *)
Lemma filter_sort_ties (l : list A) :
  filter p (JSArray.sort comparefn l) = filter p l.
Proof.
  induction l as [|x l IH]; simpl; [reflexivity|].
  rewrite filter_insert_ties, IH. destruct (p x); reflexivity.
Qed.
End TiesFacts.

Lemma sort_map {A B : Type} (f : A -> B) (cmpA : A -> A -> option Z)
    (cmpB : B -> B -> option Z) (l : list A) :
  (forall a b, cmpB (f a) (f b) = cmpA a b) ->
  JSArray.sort cmpB (map f l) = map f (JSArray.sort cmpA l).
Proof.
  intro H.
  assert (Hins : forall x s,
             JSArray.insert cmpB (f x) (map f s)
             = map f (JSArray.insert cmpA x s)).
  { intros x s. induction s as [|y s IH]; simpl; [reflexivity|].
    unfold JSArray.notAfter. rewrite H.
    destruct (match cmpA x y with Some v => v <=? 0 | None => true end);
      simpl; [reflexivity | rewrite IH; reflexivity]. }
  induction l as [|x l IH]; simpl; [reflexivity|].
  rewrite IH. apply Hins.
Qed.

Lemma StronglySorted_weaken {A : Type} (R R' : A -> A -> Prop) (l : list A) :
  (forall a b, In a l -> In b l -> R a b -> R' a b) ->
  StronglySorted R l -> StronglySorted R' l.
Proof.
  intros H Hs. induction Hs as [|x l Hl IH Hx]; constructor.
  - apply IH. intros a b Ha Hb. apply H; right; assumption.
  - apply Forall_forall. intros b Hb. apply H.
    + left. reflexivity.
    + right. exact Hb.
    + exact (proj1 (Forall_forall _ _) Hx b Hb).
Qed.

Lemma StronglySorted_filter {A : Type} (R : A -> A -> Prop) (p : A -> bool)
    (l : list A) :
  StronglySorted R l -> StronglySorted R (filter p l).
Proof.
  induction 1 as [|x l Hl IH Hx]; simpl; [constructor|].
  destruct (p x); [|exact IH].
  constructor; [exact IH|].
  apply Forall_forall. intros b Hb. apply filter_In in Hb as [Hb _].
  exact (proj1 (Forall_forall _ _) Hx b Hb).
Qed.

Lemma StronglySorted_firstn {A : Type} (R : A -> A -> Prop) (n : nat)
    (l : list A) :
  StronglySorted R l -> StronglySorted R (firstn n l).
Proof.
  intro H. revert n. induction H as [|x l Hl IH Hx]; intro n.
  - rewrite firstn_nil. constructor.
  - destruct n as [|n]; simpl; constructor; [apply IH|].
    apply Forall_forall. intros b Hb.
    apply (proj1 (Forall_forall _ _) Hx).
    rewrite <- (firstn_skipn n l). apply in_or_app. left. exact Hb.
Qed.

(** ** KeywordFrequencyAnalyzer: ranking *)

Lemma firstSeen_in_text_order (p : string -> bool) (ws : list string) :
  StronglySorted (fun a b => (firstIndex a ws < firstIndex b ws)%nat)
    (firstSeen (filter p ws)).
Proof.
  induction ws as [|x ws IH]; simpl; [constructor|].
  assert (Hshift :
            forall l : list string,
              (forall a, In a l -> a <> x) ->
              StronglySorted
                (fun a b => (firstIndex a ws < firstIndex b ws)%nat) l ->
              StronglySorted
                (fun a b =>
                   ((if String.eqb x a then O else S (firstIndex a ws))
                    < (if String.eqb x b then O else S (firstIndex b ws)))%nat)
                l).
  { intros l Hne. apply StronglySorted_weaken. intros a b Ha Hb Hab.
    destruct (String.eqb_spec x a) as [E|_]; [symmetry in E; destruct (Hne a Ha E)|].
    destruct (String.eqb_spec x b) as [E|_]; [symmetry in E; destruct (Hne b Hb E)|].
    lia. }
  destruct (p x) eqn:Hpx; simpl.
  - constructor.
    + apply Hshift.
      * intros a Ha. apply filter_In in Ha as [_ Ha].
        apply negb_true_iff in Ha. apply String.eqb_neq. exact Ha.
      * apply StronglySorted_filter. exact IH.
    + apply Forall_forall. intros b Hb. apply filter_In in Hb as [_ Hb].
      rewrite String.eqb_refl. apply negb_true_iff in Hb.
      rewrite String.eqb_sym in Hb. rewrite Hb. lia.
  - apply Hshift; [|exact IH].
    intros a Ha. apply (proj1 (firstSeen_In _ _)) in Ha.
    apply filter_In in Ha as [_ Ha]. congruence.
Qed.

Lemma count_occ_filter (p : string -> bool) (ws : list string) (w : string) :
  p w = true -> count_occ string_dec (filter p ws) w = count_occ string_dec ws w.
Proof.
  intro Hw. induction ws as [|x ws IH]; simpl; [reflexivity|].
  destruct (p x) eqn:Hpx; simpl; destruct (string_dec x w) as [->|Hne];
    try congruence.
Qed.

Lemma held_next (n : Z) :
  0 <= n ->
  Some (match held n with
        | Some v => AIInsights.orZeroPlusOne (AIInsights.Own v)
        | None => AIInsights.Num 1
        end) = held (n + 1).
Proof.
  intro Hn. unfold held. destruct (Z.eqb_spec (n + 1) 0); [lia|].
  destruct (Z.eqb_spec n 0) as [->|Hn0]; simpl; [reflexivity|].
  destruct (Z.eqb_spec n 0); [lia | reflexivity].
Qed.

Lemma count_summary_from (k : string) (l : list string) (n : Z) :
  0 <= n ->
  fold_left
    (fun a x =>
       if String.eqb x k
       then Some (match a with
                  | Some v => AIInsights.orZeroPlusOne (AIInsights.Own v)
                  | None => AIInsights.Num 1
                  end)
       else a) l (held n)
  = held (n + Z.of_nat (count_occ string_dec l k)).
Proof.
  revert n. induction l as [|x l IH]; intros n Hn.
  - simpl. rewrite Z.add_0_r. reflexivity.
  - cbn [fold_left count_occ].
    destruct (string_dec x k) as [->|Hne].
    + rewrite String.eqb_refl, held_next by exact Hn.
      rewrite IH by lia. f_equal. lia.
    + destruct (String.eqb_spec x k); [congruence|]. apply IH. exact Hn.
Qed.

Lemma countWord_upsert (o : JSObject.t AIInsights.Value) (w : string) :
  AIInsights.counted w = true -> plainKey w = true ->
  AIInsights.countWord o w
  = upsert (fun w => w) (fun _ => AIInsights.Num 1)
      (fun v _ => AIInsights.orZeroPlusOne (AIInsights.Own v)) o w.
Proof.
  intros Hc Ho. unfold AIInsights.countWord, AIInsights.write, AIInsights.read.
  rewrite Hc. unfold plainKey in Ho.
  apply andb_true_iff in Ho as [Hproto Hctor].
  apply negb_true_iff in Hctor, Hproto. rewrite Hproto, Hctor.
  unfold upsert. destruct (JSObject.getOwn o w); reflexivity.
Qed.

Lemma wordFrequencies_upsert (ws : list string) :
  (forall w, In w ws -> AIInsights.counted w = true -> plainKey w = true) ->
  AIInsights.wordFrequencies ws
  = fold_left
      (upsert (fun w => w) (fun _ => AIInsights.Num 1)
         (fun v _ => AIInsights.orZeroPlusOne (AIInsights.Own v)))
      (filter AIInsights.counted ws) [].
Proof.
  unfold AIInsights.wordFrequencies. generalize (@nil (string * AIInsights.Value)).
  induction ws as [|w ws IH]; intros o H; simpl; [reflexivity|].
  destruct (AIInsights.counted w) eqn:Hc; simpl.
  - rewrite countWord_upsert; [|exact Hc|apply H; [left; reflexivity|exact Hc]].
    apply IH. intros w' Hw'. apply H. right. exact Hw'.
  - unfold AIInsights.countWord at 2. rewrite Hc.
    apply IH. intros w' Hw'. apply H. right. exact Hw'.
Qed.

Lemma filter_of_map {A B : Type} (f : A -> B) (p : B -> bool) (l : list A) :
  filter p (map f l) = map f (filter (fun x => p (f x)) l).
Proof.
  induction l as [|x l IH]; simpl; [reflexivity|].
  destruct (p (f x)); simpl; rewrite IH; reflexivity.
Qed.

Lemma StronglySorted_app {A : Type} (R : A -> A -> Prop) (l1 l2 : list A) :
  StronglySorted R l1 -> StronglySorted R l2 ->
  (forall a b, In a l1 -> In b l2 -> R a b) ->
  StronglySorted R (l1 ++ l2).
Proof.
  intros H1 H2 H12. induction H1 as [|x l1 Hl IH Hx]; simpl; [exact H2|].
  constructor.
  - apply IH. intros a b Ha Hb. apply H12; [right; exact Ha | exact Hb].
  - apply Forall_app. split; [exact Hx|].
    apply Forall_forall. intros b Hb. apply H12; [left; reflexivity | exact Hb].
Qed.

Lemma StronglySorted_distinct {A : Type} (R : A -> A -> Prop) (l : list A) :
  NoDup l -> StronglySorted R l ->
  StronglySorted (fun a b => R a b /\ a <> b) l.
Proof.
  intros Hnd Hs. induction Hs as [|x l Hl IH Hx]; [constructor|].
  inversion Hnd as [|? ? Hnotin Hnd']; subst.
  constructor; [apply IH; exact Hnd'|].
  apply Forall_forall. intros b Hb. split.
  - exact (proj1 (Forall_forall _ _) Hx b Hb).
  - intros ->. contradiction.
Qed.

(** An array-index key is the decimal text of its index. *)
Lemma arrayIndex_text (k : string) (i : Z) :
  JSObject.arrayIndex k = Some i -> k = JSString.ofZ i.
Proof.
  unfold JSObject.arrayIndex. destruct k as [|c k]; [discriminate|].
  destruct (JSObject.allDigits (String c k) 0) as [n|]; [|discriminate].
  destruct (String.eqb_spec (JSString.ofZ n) (String c k)) as [E|_];
    [|discriminate].
  destruct (n <=? 4294967294); [|discriminate].
  intro H. inversion H; subst. symmetry. exact E.
Qed.

(** The keys of a plain object as [Object.entries] lists them. *)
Lemma entries_enumerated {V : Type} (G : string -> V) (ks : list string) :
  JSObject.entries (map (fun k => (k, G k)) ks)
  = map (fun k => (k, G k)) (enumerated ks).
Proof.
  unfold JSObject.entries, enumerated.
  rewrite !filter_of_map. cbn [fst]. rewrite map_app. f_equal.
  apply sort_map. intros a b. reflexivity.
Qed.

Lemma enumerated_perm (ks : list string) : Permutation (enumerated ks) ks.
Proof.
  unfold enumerated. rewrite sort_perm. apply filter_split_perm.
Qed.

Lemma byIndex_valid (a b : string) :
  JSObject.isArrayIndex a = true -> JSObject.isArrayIndex b = true ->
  byIndex a b
  = Some (match JSObject.arrayIndex a with Some i => i | None => 0 end
          - match JSObject.arrayIndex b with Some j => j | None => 0 end).
Proof.
  unfold JSObject.isArrayIndex, byIndex.
  destruct (JSObject.arrayIndex a); [|discriminate].
  destruct (JSObject.arrayIndex b); [|discriminate]. reflexivity.
Qed.

(** The enumeration of keys that were created in the order of first
    occurrence. *)
Lemma enumerated_order (p : string -> bool) (ws : list string) :
  StronglySorted (enumeratedBefore ws) (enumerated (firstSeen (filter p ws))).
Proof.
  set (ks := firstSeen (filter p ws)). unfold enumerated.
  apply StronglySorted_app.
  - (* the array-index keys *)
    set (idx := filter JSObject.isArrayIndex ks).
    assert (Hv : Forall (fun k => JSObject.isArrayIndex k = true) idx).
    { apply Forall_forall. intros k Hk. apply filter_In in Hk. tauto. }
    pose proof (sort_ascending byIndex
                  (fun k => match JSObject.arrayIndex k with
                            | Some i => i | None => 0 end)
                  (fun k => JSObject.isArrayIndex k = true)
                  byIndex_valid idx Hv) as Hs.
    assert (Hnd : NoDup (JSArray.sort byIndex idx)).
    { apply (Permutation_NoDup (Permutation_sym (sort_perm byIndex idx))).
      apply NoDup_filter. apply firstSeen_NoDup. }
    apply (StronglySorted_distinct _ _ Hnd) in Hs.
    revert Hs. apply StronglySorted_weaken. intros a b Ha Hb [Hle Hne].
    apply (Permutation_in _ (sort_perm byIndex idx)) in Ha, Hb.
    apply (proj1 (Forall_forall _ _) Hv) in Ha, Hb.
    unfold JSObject.isArrayIndex in Ha, Hb. unfold enumeratedBefore.
    destruct (JSObject.arrayIndex a) as [i|] eqn:Ea; [|discriminate].
    destruct (JSObject.arrayIndex b) as [j|] eqn:Eb; [|discriminate].
    destruct (Z.eq_dec i j) as [->|Hij]; [|lia].
    apply arrayIndex_text in Ea, Eb. congruence.
  - (* the other keys *)
    pose proof (firstSeen_in_text_order p ws) as Hs.
    apply StronglySorted_filter
      with (p := fun k => negb (JSObject.isArrayIndex k)) in Hs.
    fold ks in Hs.
    assert (Hall : forall a, In a (filter (fun k => negb (JSObject.isArrayIndex k)) ks) ->
                             JSObject.arrayIndex a = None).
    { intros a Ha. apply filter_In in Ha as [_ Ha].
      apply negb_true_iff in Ha. unfold JSObject.isArrayIndex in Ha.
      destruct (JSObject.arrayIndex a); [discriminate | reflexivity]. }
    revert Hs. apply StronglySorted_weaken. intros a b Ha Hb Hab.
    unfold enumeratedBefore. rewrite (Hall a Ha), (Hall b Hb). exact Hab.
  - intros a b Ha Hb.
    apply (Permutation_in _ (sort_perm byIndex _)) in Ha.
    apply filter_In in Ha as [_ Ha]. apply filter_In in Hb as [_ Hb].
    apply negb_true_iff in Hb. unfold JSObject.isArrayIndex in Ha, Hb.
    unfold enumeratedBefore.
    destruct (JSObject.arrayIndex a); [|discriminate].
    destruct (JSObject.arrayIndex b); [discriminate | exact I].
Qed.

Section Ranking.
Variable ws : list string.
Hypothesis plain :
  forall w, In w ws -> AIInsights.counted w = true -> plainKey w = true.

Local Notation survivors := (survivorsOf ws).
Local Notation tally := (tallyOf ws).
Local Notation byTally := (byTallyOf ws).

(** The table after the counting loop: one count per surviving token, in
    the order in which the tokens first occur. *)
Lemma wordFrequencies_explicit :
  AIInsights.wordFrequencies ws
  = map (fun k => (k, tally k)) (firstSeen survivors).
Proof.
  rewrite wordFrequencies_upsert by exact plain. fold survivors.
  destruct (upsert_loop (fun w : string => w) (fun _ => AIInsights.Num 1)
              (fun v _ => AIInsights.orZeroPlusOne (AIInsights.Own v))
              survivors) as [Hkeys Hget].
  rewrite map_id in Hkeys.
  set (o := fold_left
              (upsert (fun w : string => w) (fun _ => AIInsights.Num 1)
                 (fun v _ => AIInsights.orZeroPlusOne (AIInsights.Own v)))
              survivors []) in *.
  rewrite <- Hkeys. apply own_explicit. intros k v Hin.
  assert (Hv : JSObject.getOwn o k = Some v).
  { apply getOwn_In; [|exact Hin]. rewrite Hkeys. apply firstSeen_NoDup. }
  assert (Hk : AIInsights.counted k = true).
  { assert (Hk : In k (map fst o)).
    { change k with (fst (k, v)). apply in_map. exact Hin. }
    rewrite Hkeys in Hk. apply (proj1 (firstSeen_In _ _)) in Hk.
    apply filter_In in Hk. tauto. }
  rewrite Hget in Hv. unfold summary in Hv.
  change (@None AIInsights.Value) with (held 0) in Hv.
  rewrite count_summary_from in Hv by lia.
  unfold survivors in Hv. rewrite count_occ_filter in Hv by exact Hk.
  unfold held in Hv. simpl in Hv. unfold tally, occurrences.
  destruct (Z.of_nat (count_occ string_dec ws k) =? 0); congruence.
Qed.

Lemma ranked_explicit :
  map fst
    (JSArray.sliceFirst 5
       (JSArray.sort AIInsights.byCountDesc
          (JSObject.entries (AIInsights.wordFrequencies ws))))
  = firstn 5 (JSArray.sort byTally (enumerated (firstSeen survivors))).
Proof.
  rewrite wordFrequencies_explicit, entries_enumerated.
  rewrite (sort_map (fun k => (k, tally k)) byTally)
    by (intros a b; reflexivity).
  unfold JSArray.sliceFirst. rewrite firstn_map, map_map. simpl.
  apply map_id.
Qed.

Lemma ranked_sorted :
  StronglySorted (ranksAhead ws)
    (JSArray.sort byTally (enumerated (firstSeen survivors))).
Proof.
  apply StronglySorted_weaken
    with (R := ranksBy (fun k => Z.of_nat (occurrences ws k))
                 (enumeratedBefore ws)).
  - intros a b _ _ [H|[H1 H2]]; [left; lia | right; split; [lia | exact H2]].
  - apply (sort_stable byTally (fun k => Z.of_nat (occurrences ws k))).
    + intros a b. reflexivity.
    + apply enumerated_order.
Qed.

Lemma ranked_perm :
  Permutation (JSArray.sort byTally (enumerated (firstSeen survivors)))
    (firstSeen survivors).
Proof. rewrite sort_perm. apply enumerated_perm. Qed.

Lemma ranked_members (w : string) :
  In w (JSArray.sort byTally (enumerated (firstSeen survivors)))
  <-> In w ws /\ AIInsights.counted w = true.
Proof.
  split; intro H.
  - apply (Permutation_in _ ranked_perm) in H.
    apply (proj1 (firstSeen_In _ _)) in H. apply filter_In in H. exact H.
  - apply (Permutation_in _ (Permutation_sym ranked_perm)).
    apply firstSeen_In. apply filter_In. exact H.
Qed.

Lemma ranked_NoDup :
  NoDup (JSArray.sort byTally (enumerated (firstSeen survivors))).
Proof.
  apply (Permutation_NoDup (Permutation_sym ranked_perm)).
  apply firstSeen_NoDup.
Qed.
End Ranking.

(** Among tokens that are no array index, ranked ahead is the order of
    the specification. *)
Lemma ranksAhead_text_order (ws : list string) (l : list string) :
  StronglySorted (ranksAhead ws) l ->
  StronglySorted (ranksBefore ws)
    (filter (fun w => negb (JSObject.isArrayIndex w)) l).
Proof.
  intro H.
  apply StronglySorted_filter
    with (p := fun w => negb (JSObject.isArrayIndex w)) in H.
  revert H. apply StronglySorted_weaken. intros a b Ha Hb Hab.
  apply filter_In in Ha as [_ Ha]. apply filter_In in Hb as [_ Hb].
  apply negb_true_iff in Ha, Hb. unfold JSObject.isArrayIndex in Ha, Hb.
  unfold ranksAhead, enumeratedBefore in Hab. unfold ranksBefore.
  destruct (JSObject.arrayIndex a); [discriminate|].
  destruct (JSObject.arrayIndex b); [discriminate|]. exact Hab.
Qed.

(** C6, as the specification words it, fails in three ways.  A token that
    is an array index, such as ["2024"], is enumerated before the other
    tokens whatever its place in the text, so with one occurrence each
    ["2024"] is ranked before ["algebra"], which occurs first.  The token
    ["__proto__"] is never stored, so it is not ranked however often it
    occurs.  And the first sighting of ["constructor"] stores a text, not
    a count: the compare function yields [NaN] for it, which the sort
    reads as [+0], so it keeps its place in front of a token that occurs
    more often. *)
Lemma ranking_departures :
  (let entries := [entryOf "2024-03-01" 1 10 8 "Algebra 2024"] in
   let ws := AIInsights.words (AIInsights.allLearnings entries) in
   AIInsights.sortedKeywords entries = ["2024"; "algebra"]
   /\ occurrences ws "2024" = occurrences ws "algebra"
   /\ (firstIndex "algebra" ws < firstIndex "2024" ws)%nat
   /\ ~ StronglySorted (ranksBefore ws) (AIInsights.sortedKeywords entries))
  /\ (let entries := [entryOf "2024-03-01" 1 10 8 "__proto__ algebra __proto__"] in
      let ws := AIInsights.words (AIInsights.allLearnings entries) in
      AIInsights.sortedKeywords entries = ["algebra"]
      /\ AIInsights.counted "__proto__" = true
      /\ occurrences ws "__proto__" = 2%nat)
  /\ (let entries := [entryOf "2024-03-01" 1 10 8 "constructor algebra algebra"] in
      let ws := AIInsights.words (AIInsights.allLearnings entries) in
      AIInsights.sortedKeywords entries = ["constructor"; "algebra"]
      /\ occurrences ws "constructor" = 1%nat
      /\ occurrences ws "algebra" = 2%nat
      /\ ~ StronglySorted (ranksBefore ws) (AIInsights.sortedKeywords entries)).
Proof.
  split; [|split].
  - intros entries ws.
    assert (E : AIInsights.sortedKeywords entries = ["2024"; "algebra"])
      by (vm_compute; reflexivity).
    assert (W : ws = ["algebra"; "2024"]) by (vm_compute; reflexivity).
    split; [exact E|]. rewrite E, W.
    split; [reflexivity|]. split; [simpl; lia|].
    intro H. inversion H as [|? ? _ Hall]; subst.
    inversion Hall as [|? ? Hr _]; subst.
    unfold ranksBefore in Hr. simpl in Hr. lia.
  - intros entries ws. repeat split; vm_compute; reflexivity.
  - intros entries ws.
    assert (E : AIInsights.sortedKeywords entries = ["constructor"; "algebra"])
      by (vm_compute; reflexivity).
    assert (W : ws = ["constructor"; "algebra"; "algebra"])
      by (vm_compute; reflexivity).
    split; [exact E|]. rewrite E, W.
    split; [reflexivity|]. split; [reflexivity|].
    intro H. inversion H as [|? ? _ Hall]; subst.
    inversion Hall as [|? ? Hr _]; subst.
    unfold ranksBefore in Hr. simpl in Hr. lia.
Qed.

(** C6 (amended): when no surviving token is one of the names
    [constructor] and [__proto__], the result is the first five entries of
    a ranking of the distinct surviving tokens in which a token stands
    before every token with fewer occurrences and, among tokens with as
    many occurrences, the array-index tokens stand first in ascending
    numeric order and the other tokens follow in the order of their first
    occurrence in the concatenated text. *)
Theorem keyword_ranking (entries : list Entry) :
  let ws := AIInsights.words (AIInsights.allLearnings entries) in
  (forall w, In w ws -> AIInsights.counted w = true -> plainKey w = true) ->
  exists ranking : list string,
    AIInsights.sortedKeywords entries = firstn 5 ranking
    /\ NoDup ranking
    /\ (forall w, In w ranking <-> In w ws /\ AIInsights.counted w = true)
    /\ StronglySorted (ranksAhead ws) ranking
    /\ StronglySorted (ranksBefore ws)
         (filter (fun w => negb (JSObject.isArrayIndex w)) ranking).
Proof.
  intros ws Hplain.
  exists (JSArray.sort (byTallyOf ws)
            (enumerated (firstSeen (survivorsOf ws)))).
  split; [apply ranked_explicit; exact Hplain|].
  split; [apply ranked_NoDup|].
  split; [apply ranked_members|].
  split; [apply ranked_sorted|].
  apply ranksAhead_text_order, ranked_sorted.
Qed.

Lemma keyword_ranking_witness :
  let entries :=
    [entryOf "2024-03-01" 1 10 8 "Silly slip in ratio 2024, then timing.";
     entryOf "2024-03-02" 1 10 8 "";
     entryOf "2024-03-03" 1 10 8 "Timing again; ratio slip, timing!"] in
  let ws := AIInsights.words (AIInsights.allLearnings entries) in
  exists ranking : list string,
    AIInsights.sortedKeywords entries = firstn 5 ranking
    /\ NoDup ranking
    /\ (forall w, In w ranking <-> In w ws /\ AIInsights.counted w = true)
    /\ StronglySorted (ranksAhead ws) ranking
    /\ StronglySorted (ranksBefore ws)
         (filter (fun w => negb (JSObject.isArrayIndex w)) ranking).
Proof.
  intros entries ws. apply (keyword_ranking entries).
  intros w Hw _. vm_compute in Hw.
  repeat (destruct Hw as [<-|Hw]; [vm_compute; reflexivity|]).
  destruct Hw.
Defined.

(** The ranking of the notes above: the three tokens that occur twice, in
    text order, then of the tokens that occur once the array index and the
    first of the others. *)
Example ranking_of_notes :
  AIInsights.sortedKeywords
    [entryOf "2024-03-01" 1 10 8 "Silly slip in ratio 2024, then timing.";
     entryOf "2024-03-02" 1 10 8 "";
     entryOf "2024-03-03" 1 10 8 "Timing again; ratio slip, timing!"]
  = ["slip"; "ratio"; "timing"; "2024"; "silly"].
Proof. vm_compute. reflexivity. Qed.

(** ** Calendar arithmetic *)

Lemma DayFromYear_succ (y : Z) :
  JSDate.DayFromYear (y + 1) = JSDate.DayFromYear y + JSDate.DaysInYear y.
Proof.
  unfold JSDate.DayFromYear, JSDate.DaysInYear.
  destruct (Z.eqb_spec (y mod 4) 0); destruct (Z.eqb_spec (y mod 100) 0);
    destruct (Z.eqb_spec (y mod 400) 0); cbn [negb];
    Z.div_mod_to_equations; lia.
Qed.

Lemma DayFromYear_mono (y y' : Z) :
  y < y' -> JSDate.DayFromYear y < JSDate.DayFromYear y'.
Proof. unfold JSDate.DayFromYear. intro H. Z.div_mod_to_equations. lia. Qed.

(** [YearFromTime t] is the year whose days hold [t]: the largest year that
    starts at or before [t]. *)
Lemma YearFromTime_spec (t : Z) :
  JSDate.DayFromYear (JSDate.YearFromTime t) <= JSDate.Day t
  < JSDate.DayFromYear (JSDate.YearFromTime t + 1).
Proof.
  unfold JSDate.YearFromTime. set (d := JSDate.Day t).
  set (y := 1970 + 400 * d / 146097).
  assert (Hl : JSDate.DayFromYear (y - 1) <= d).
  { subst y. unfold JSDate.DayFromYear. Z.div_mod_to_equations. lia. }
  assert (Hu : d < JSDate.DayFromYear (y + 2)).
  { subst y. unfold JSDate.DayFromYear. Z.div_mod_to_equations. lia. }
  destruct (Z.leb_spec (JSDate.DayFromYear (y + 1)) d).
  - replace (y + 1 + 1) with (y + 2) by lia. lia.
  - destruct (Z.leb_spec (JSDate.DayFromYear y) d).
    + lia.
    + replace (y - 1 + 1) with y by lia. lia.
Qed.

Lemma YearFromTime_unique (t y : Z) :
  JSDate.DayFromYear y <= JSDate.Day t < JSDate.DayFromYear (y + 1) ->
  JSDate.YearFromTime t = y.
Proof.
  intro H. pose proof (YearFromTime_spec t) as Hs.
  set (Y := JSDate.YearFromTime t) in *.
  destruct (Z.lt_trichotomy Y y) as [Hlt|[Heq|Hgt]]; [|exact Heq|].
  - assert (Y + 1 <= y) by lia.
    destruct (Z.eq_dec (Y + 1) y) as [E|E].
    + rewrite E in Hs. lia.
    + pose proof (DayFromYear_mono (Y + 1) y ltac:(lia)). lia.
  - destruct (Z.eq_dec (y + 1) Y) as [E|E].
    + rewrite E in H. lia.
    + pose proof (DayFromYear_mono (y + 1) Y ltac:(lia)). lia.
Qed.

Lemma DayWithinYear_range (t : Z) :
  0 <= JSDate.DayWithinYear t < JSDate.DaysInYear (JSDate.YearFromTime t).
Proof.
  unfold JSDate.DayWithinYear. pose proof (YearFromTime_spec t) as H.
  rewrite DayFromYear_succ in H. lia.
Qed.

Lemma MakeDay_first (y : Z) : JSDate.MakeDay y 0 1 = JSDate.DayFromYear y.
Proof.
  unfold JSDate.MakeDay. change (0 / 12) with 0. change (0 mod 12) with 0.
  cbn [JSDate.monthStart]. rewrite !Z.add_0_r. lia.
Qed.

Lemma Day_MakeDate (day : Z) : JSDate.Day (JSDate.MakeDate day 0) = day.
Proof.
  unfold JSDate.Day, JSDate.MakeDate, JSDate.msPerDay.
  rewrite Z.add_0_r. apply Z.div_mul. discriminate.
Qed.

Lemma digitValue_range (c : ascii) (v : Z) :
  JSString.digitValue c = Some v -> 0 <= v <= 9.
Proof.
  unfold JSString.digitValue.
  destruct (N.leb_spec 48 (N_of_ascii c)); simpl; [|discriminate].
  destruct (N.leb_spec (N_of_ascii c) 57); simpl; [|discriminate].
  intros [= <-]. lia.
Qed.

Lemma twoDigits_range (a b : ascii) (v : Z) :
  JSDate.twoDigits a b = Some v -> 0 <= v <= 99.
Proof.
  unfold JSDate.twoDigits.
  destruct (JSString.digitValue a) as [x|] eqn:Ea; [|discriminate].
  destruct (JSString.digitValue b) as [z|] eqn:Eb; [|discriminate].
  apply digitValue_range in Ea, Eb. intro E.
  assert (v = 10 * x + z) by congruence. lia.
Qed.

Lemma fourDigits_range (a b c d : ascii) (v : Z) :
  JSDate.fourDigits a b c d = Some v -> 0 <= v <= 9999.
Proof.
  unfold JSDate.fourDigits.
  destruct (JSDate.twoDigits a b) as [x|] eqn:Ea; [|discriminate].
  destruct (JSDate.twoDigits c d) as [z|] eqn:Eb; [|discriminate].
  apply twoDigits_range in Ea, Eb. intro E.
  assert (v = 100 * x + z) by congruence. lia.
Qed.

Lemma dateFields_valid (s : string) (y m d : Z) :
  JSDate.dateFields s = Some (y, m, d) ->
  0 <= y <= 9999 /\ 1 <= m <= 12 /\ 1 <= d <= JSDate.DaysInMonth y (m - 1).
Proof.
  unfold JSDate.dateFields.
  do 10 (destruct s as [|? s]; [discriminate|]).
  destruct s; [|discriminate].
  destruct (Ascii.eqb a3 "-" && Ascii.eqb a6 "-")%bool; [|discriminate].
  destruct (JSDate.fourDigits a a0 a1 a2) as [y'|] eqn:Ey; [|discriminate].
  destruct (JSDate.twoDigits a4 a5) as [m'|] eqn:Em; [|discriminate].
  destruct (JSDate.twoDigits a7 a8) as [d'|] eqn:Ed; [|discriminate].
  destruct ((1 <=? m') && (m' <=? 12) && (1 <=? d')
            && (d' <=? JSDate.DaysInMonth y' (m' - 1)))%bool eqn:Ev;
    [|discriminate].
  intro E. inversion E; subst.
  apply fourDigits_range in Ey.
  repeat (apply andb_true_iff in Ev as [Ev ?]).
  repeat match goal with
         | H : (_ <=? _) = true |- _ => apply Z.leb_le in H
         end.
  lia.
Qed.

Lemma DaysInYear_leap (y : Z) :
  JSDate.DaysInYear y = 365 + (if JSDate.DaysInYear y =? 366 then 1 else 0).
Proof.
  unfold JSDate.DaysInYear.
  destruct (negb (y mod 4 =? 0)); [reflexivity|].
  destruct (negb (y mod 100 =? 0)); [reflexivity|].
  destruct (negb (y mod 400 =? 0)); reflexivity.
Qed.

(** A calendar date lies within the days of its year. *)
Lemma MakeDay_in_year (y m d : Z) :
  1 <= m <= 12 -> 1 <= d <= JSDate.DaysInMonth y (m - 1) ->
  JSDate.DayFromYear y <= JSDate.MakeDay y (m - 1) d
  < JSDate.DayFromYear (y + 1).
Proof.
  intros Hm Hd. rewrite DayFromYear_succ, DaysInYear_leap.
  unfold JSDate.MakeDay, JSDate.DaysInMonth in *.
  rewrite (Z.div_small (m - 1) 12), (Z.mod_small (m - 1) 12), Z.add_0_r by lia.
  set (L := if JSDate.DaysInYear y =? 366 then 1 else 0) in *.
  assert (HL : 0 <= L <= 1) by (subst L; destruct (_ =? _); lia).
  assert (Hcases : m = 1 \/ m = 2 \/ m = 3 \/ m = 4 \/ m = 5 \/ m = 6
                   \/ m = 7 \/ m = 8 \/ m = 9 \/ m = 10 \/ m = 11 \/ m = 12)
    by lia.
  repeat (destruct Hcases as [->|Hcases]); [..|subst m];
    repeat match goal with
           | H : context [JSDate.monthStart ?a L] |- _ =>
               let v := eval vm_compute in a in progress change a with v in H
           | |- context [JSDate.monthStart ?a L] =>
               let v := eval vm_compute in a in progress change a with v
           end;
    unfold JSDate.monthStart in *; cbv beta iota in *; lia.
Qed.

Lemma LocalTime_UTC (tz t : Z) : JSDate.LocalTime tz (JSDate.UTC tz t) = t.
Proof. unfold JSDate.LocalTime, JSDate.UTC. lia. Qed.

Lemma local_day_east (tz day : Z) :
  0 <= tz < 1440 ->
  JSDate.Day (JSDate.LocalTime tz (JSDate.MakeDate day 0)) = day
  /\ JSDate.LocalTime tz (JSDate.MakeDate day 0) mod JSDate.msPerDay
     = tz * JSDate.msPerMinute.
Proof.
  intro H.
  unfold JSDate.Day, JSDate.LocalTime, JSDate.MakeDate, JSDate.msPerDay,
    JSDate.msPerMinute.
  Z.div_mod_to_equations. lia.
Qed.

Lemma elapsed_days_split (a r : Z) :
  (inject_Z (a * 86400000 + r) / inject_Z 86400000
   == inject_Z a + inject_Z r / inject_Z 86400000)%Q.
Proof.
  unfold Qeq, Qdiv, Qplus, Qmult, Qinv, inject_Z. simpl. lia.
Qed.

Lemma ceil_sevenths (a b : Z) :
  JSNumber.ceil ((inject_Z a + inject_Z b + 1) / 7)%Q = (a + b) / 7 + 1.
Proof.
  unfold JSNumber.ceil.
  rewrite (Qceiling_comp _ ((a + b + 1) # 7)).
  - unfold Qceiling, Qfloor, Qopp. simpl. Z.div_mod_to_equations. lia.
  - unfold Qeq, Qdiv, Qplus, Qmult, Qinv, inject_Z. simpl. lia.
Qed.

Section WeekLabel.
Variable tz : Z.

(** The week number of a time value, in terms of the local day within
    the local year and of the part of that day already elapsed. *)
Lemma weekNumber_local (t : Z) :
  let local := JSDate.LocalTime tz t in
  let year := JSDate.YearFromTime local in
  ~ (0 <= year <= 99) ->
  PerformanceCharts.weekNumber tz (Some t)
  = Some (weekOf (inject_Z (JSDate.DayWithinYear local)
                  + inject_Z (local mod JSDate.msPerDay)
                    / inject_Z JSDate.msPerDay)%Q year).
Proof.
  intros local year Hyear.
  unfold PerformanceCharts.weekNumber, JSDate.getFullYear, JSDate.getTime,
    JSDate.fromFields, JSDate.getDay. cbn [option_map].
  fold local. fold year.
  assert (Hy : ((0 <=? year) && (year <=? 99))%bool = false).
  { apply andb_false_iff.
    destruct (Z.leb_spec 0 year); [|left; reflexivity].
    destruct (Z.leb_spec year 99); [lia | right; reflexivity]. }
  rewrite Hy. cbn [option_map]. rewrite LocalTime_UTC.
  fold (firstWeekdayOfYear year). unfold weekOf. f_equal.
  unfold JSNumber.ceil. apply Qceiling_comp.
  assert (E : t - JSDate.UTC tz (JSDate.MakeDate (JSDate.MakeDay year 0 1) 0)
              = JSDate.DayWithinYear local * 86400000
                + local mod JSDate.msPerDay).
  { rewrite MakeDay_first.
    unfold JSDate.DayWithinYear, JSDate.Day, JSDate.UTC, JSDate.MakeDate.
    fold year. subst local. unfold JSDate.LocalTime, JSDate.msPerDay.
    Z.div_mod_to_equations. lia. }
  rewrite E, elapsed_days_split. reflexivity.
Qed.

Lemma weekly_groupKey (e : Entry) (t : Z) :
  JSDate.parse (date e) = Some t ->
  let year := JSDate.YearFromTime (JSDate.LocalTime tz t) in
  forall n, PerformanceCharts.weekNumber tz (Some t) = Some n ->
  PerformanceCharts.groupKey tz weekly e = weekKey year n.
Proof.
  intros Hp year n Hn.
  unfold PerformanceCharts.groupKey, PerformanceCharts.getWeekLabel.
  rewrite Hp, Hn. reflexivity.
Qed.
End WeekLabel.

(** ** TimeBucketAggregator: the weekly key *)




(** The keys of a year end and of the next year's first day: the last day
    of 2023 falls in week 53 of 2023, the first of 2024 in week 1 of
    2024; a Saturday keeps its week at UTC and moves to the next label at
    UTC+5:30. *)
Example year_boundary_keys :
  PerformanceCharts.groupKey 0 weekly (entryOf "2023-12-31" 1 1 1 "") = "2023-W53"
  /\ PerformanceCharts.groupKey 0 weekly (entryOf "2024-01-01" 1 1 1 "") = "2024-W1"
  /\ PerformanceCharts.groupKey 0 weekly (entryOf "2024-01-07" 1 1 1 "") = "2024-W2"
  /\ PerformanceCharts.groupKey 0 weekly (entryOf "2023-01-07" 1 1 1 "") = "2023-W1"
  /\ PerformanceCharts.groupKey 330 weekly (entryOf "2023-01-07" 1 1 1 "") = "2023-W2".
Proof. repeat split; vm_compute; reflexivity. Qed.

(** * Further properties of the components *)

(** ** Per-record metrics *)

(** X2: with attempts, the accuracy of a record is at most 100 exactly
    when the correct answers do not exceed the attempts; nothing clamps a
    record with more correct answers than attempts. *)
Theorem accuracy_at_most_100 (e : PartialEntry) (attempted : Z) :
  p_questionsAttempted e = Some attempted -> 0 < attempted ->
  ((calculateAccuracy e <= 100)%Q
   <-> JSNumber.orZero (p_correctAnswers e) <= attempted).
Proof.
  intros Ha Hpos. unfold calculateAccuracy. rewrite Ha.
  destruct (Z.eqb_spec attempted 0) as [E|_]; [lia|].
  set (c := JSNumber.orZero (p_correctAnswers e)).
  unfold Qle, Qdiv, Qmult, Qinv, inject_Z. simpl.
  destruct attempted as [|p|p]; try lia. simpl. lia.
Qed.

Lemma accuracy_at_most_100_witness :
  let e := countsOnly (Some 10) (Some 12) in
  ~ (calculateAccuracy e <= 100)%Q.
Proof.
  intros e H. subst e.
  apply (accuracy_at_most_100 (countsOnly (Some 10) (Some 12)) 10) in H.
  - apply H. reflexivity.
  - reflexivity.
  - lia.
Defined.

(** ** Daily target *)

Lemma full_percent_iff (s : Z) (g : Q) :
  (0 < g)%Q -> ((100 <= inject_Z s / g * 100)%Q <-> (g <= inject_Z s)%Q).
Proof.
  intro Hg.
  assert (Hne : ~ (g == 0)%Q).
  { intro E. rewrite E in Hg. discriminate Hg. }
  assert (H1 : (100 <= inject_Z s / g * 100)%Q <-> (1 <= inject_Z s / g)%Q).
  { rewrite <- (Qmult_le_r 1 (inject_Z s / g) 100) by reflexivity.
    rewrite Qmult_1_l. reflexivity. }
  rewrite H1.
  rewrite <- (Qmult_le_r 1 (inject_Z s / g) g) by exact Hg.
  rewrite Qmult_1_l, (Qmult_comm (inject_Z s / g) g), Qmult_div_r by exact Hne.
  reflexivity.
Qed.

(** X3: the width of the progress bar never exceeds 100; it is not
    negative when today's sets are not; and for a positive target it is
    100 exactly when the target is met. *)
Theorem progress_bounds (todayStr : string) (entries : list Entry) (goal : Q) :
  let v := DailyTargetProgress.render todayStr entries goal in
  (DailyTargetProgress.progress v <= 100)%Q
  /\ (0 <= DailyTargetProgress.setsToday v ->
      (0 <= DailyTargetProgress.progress v)%Q)
  /\ ((0 < goal)%Q ->
      ((DailyTargetProgress.progress v == 100)%Q
       <-> (goal <= inject_Z (DailyTargetProgress.setsToday v))%Q)).
Proof.
  intro v. subst v. rewrite render_progress, render_setsToday.
  set (sets := setsOfToday todayStr entries).
  destruct (JSNumber.Qltb 0 goal) eqn:Hg.
  - apply Qltb_lt in Hg. split; [apply Q.le_min_r|]. split.
    + intro Hs. apply Q.min_glb; [|discriminate].
      apply Qmult_le_0_compat; [|discriminate].
      apply Qmult_le_0_compat.
      * unfold Qle, inject_Z. simpl. lia.
      * apply Qinv_le_0_compat. apply Qlt_le_weak. exact Hg.
    + intros _. rewrite Q.min_r_iff. apply full_percent_iff. exact Hg.
  - apply Qltb_nlt in Hg. split; [discriminate|]. split.
    + intros _. apply Qle_refl.
    + intro H. contradiction.
Qed.

Lemma progress_bounds_witness :
  let v := DailyTargetProgress.render "2024-03-01"
             [entryOf "2024-03-01" 9 10 8 ""] (6 # 1) in
  (0 <= DailyTargetProgress.progress v)%Q
  /\ (DailyTargetProgress.progress v == 100)%Q.
Proof.
  intro v.
  destruct (progress_bounds "2024-03-01" [entryOf "2024-03-01" 9 10 8 ""] (6 # 1))
    as (_ & Hlow & Hfull).
  split.
  - apply Hlow. vm_compute. discriminate.
  - apply Hfull; [reflexivity|]. vm_compute. discriminate.
Defined.

(** X4: a positive stored target stays positive whatever the user does in
    the editor, and a save with a positive proposal stores the proposal
    and closes the editor. *)
Theorem target_stays_positive (s : DailyTargetProgress.State)
    (evs : list DailyTargetProgress.Event) :
  (0 < DailyTargetProgress.dailyTarget s)%Q ->
  (0 < DailyTargetProgress.dailyTarget (DailyTargetProgress.run s evs))%Q
  /\ ((0 < DailyTargetProgress.target s)%Q ->
      DailyTargetProgress.handleSave s
      = DailyTargetProgress.mkState (DailyTargetProgress.target s) false
          (DailyTargetProgress.target s)).
Proof.
  intro Hpos. split.
  - revert s Hpos. unfold DailyTargetProgress.run.
    induction evs as [|ev evs IH]; intros s Hpos; simpl; [exact Hpos|].
    apply IH. destruct ev; simpl; try exact Hpos.
    unfold DailyTargetProgress.handleSave.
    destruct (JSNumber.Qltb 0 (DailyTargetProgress.target s)) eqn:E;
      [|exact Hpos].
    simpl. apply Qltb_lt. exact E.
  - intro Ht. apply Qltb_lt in Ht.
    unfold DailyTargetProgress.handleSave. rewrite Ht. reflexivity.
Qed.

Lemma target_stays_positive_witness :
  (0 < DailyTargetProgress.dailyTarget
         (DailyTargetProgress.run (DailyTargetProgress.mount (6 # 1))
            [DailyTargetProgress.ClickEdit;
             DailyTargetProgress.Change (- (2 # 1));
             DailyTargetProgress.ClickSave;
             DailyTargetProgress.Change (8 # 1);
             DailyTargetProgress.ClickSave]))%Q.
Proof.
  apply (target_stays_positive (DailyTargetProgress.mount (6 # 1))).
  reflexivity.
Defined.

(** ** The record collection *)

Lemma withId_dataOf (e : Entry) : CatMasteryTracker.withId (CatMasteryTracker.dataOf e) (id e) = e.
Proof. destruct e. reflexivity. Qed.

Lemma same_id_same_entry (l : list Entry) (a b : Entry) :
  NoDup (map id l) -> In a l -> In b l -> id a = id b -> a = b.
Proof.
  induction l as [|x l IH]; simpl; [tauto|].
  intros Hnd Ha Hb E. inversion Hnd as [|? ? Hx Hl]; subst.
  destruct Ha as [->|Ha], Hb as [->|Hb]; [reflexivity| | |auto].
  - exfalso. apply Hx. rewrite E. apply in_map. exact Hb.
  - exfalso. apply Hx. rewrite <- E. apply in_map. exact Ha.
Qed.

(** X5: saving under an existing id rewrites the records of that id in
    place: the collection keeps its length, its order and its ids, every
    record of that id gets the submitted data, and every other record is
    left as it was. *)
Theorem update_in_place (now i : string) (entryData : CatMasteryTracker.EntryData)
    (prev : list Entry) :
  i <> "" ->
  Forall2
    (fun old new =>
       id new = id old
       /\ (id old = i -> new = CatMasteryTracker.withId entryData i)
       /\ (id old <> i -> new = old))
    prev (CatMasteryTracker.handleSaveEntry now entryData (Some i) prev).
Proof.
  intro Hi. unfold CatMasteryTracker.handleSaveEntry.
  destruct i as [|c i]; [congruence|]. cbn [JSString.isEmpty].
  induction prev as [|e prev IH]; simpl; constructor; [|exact IH].
  destruct (String.eqb_spec (id e) (String c i)) as [E|E].
  - split; [reflexivity|]. split; [intros _; rewrite E; reflexivity|].
    intro H. contradiction.
  - split; [reflexivity|]. split; [intro H; contradiction | reflexivity].
Qed.

Lemma update_in_place_witness :
  Forall2
    (fun old new =>
       id new = id old
       /\ (id old = "b" ->
           new = CatMasteryTracker.withId
                   (CatMasteryTracker.dataOf (entryOf "2024-03-05" 4 20 15 "")) "b")
       /\ (id old <> "b" -> new = old))
    [mkEntry "a" "2024-03-01" LR "" 1 0 0 0 10 5 4 3 "" false;
     mkEntry "b" "2024-03-02" DI "" 0 2 0 0 20 8 4 2 "" true]
    (CatMasteryTracker.handleSaveEntry "c"
       (CatMasteryTracker.dataOf (entryOf "2024-03-05" 4 20 15 "")) (Some "b")
       [mkEntry "a" "2024-03-01" LR "" 1 0 0 0 10 5 4 3 "" false;
        mkEntry "b" "2024-03-02" DI "" 0 2 0 0 20 8 4 2 "" true]).
Proof. apply update_in_place. discriminate. Defined.

(** X6: saving without an id (or with the empty id) appends one record
    that carries the creation time as id; when no stored record has that
    id, a confirmed deletion of it restores the previous collection, and a
    deletion that is not confirmed changes nothing. *)
Theorem create_then_delete (now : string)
    (entryData : CatMasteryTracker.EntryData) (prev : list Entry) :
  ~ In now (map id prev) ->
  let created := CatMasteryTracker.handleSaveEntry now entryData None prev in
  created = (prev ++ [CatMasteryTracker.withId entryData now])%list
  /\ CatMasteryTracker.handleSaveEntry now entryData (Some "") prev = created
  /\ CatMasteryTracker.handleDelete true now created = prev
  /\ CatMasteryTracker.handleDelete false now created = created.
Proof.
  intros Hfresh created. subst created.
  unfold CatMasteryTracker.handleSaveEntry, CatMasteryTracker.handleDelete.
  cbn [JSString.isEmpty].
  split; [reflexivity|]. split; [reflexivity|]. split; [|reflexivity].
  rewrite filter_app. simpl. rewrite String.eqb_refl. simpl.
  rewrite app_nil_r. apply filter_all_true.
  apply Forall_forall. intros e He. apply negb_true_iff.
  apply String.eqb_neq. intro E. apply Hfresh. rewrite <- E.
  apply in_map. exact He.
Qed.

Lemma create_then_delete_witness :
  CatMasteryTracker.handleDelete true "2024-03-05T10:00:00.000Z"
    (CatMasteryTracker.handleSaveEntry "2024-03-05T10:00:00.000Z"
       (CatMasteryTracker.dataOf (entryOf "2024-03-05" 4 20 15 "")) None
       [mkEntry "2024-03-01T09:00:00.000Z" "2024-03-01" LR "" 1 0 0 0 10 5 4 3 "" false])
  = [mkEntry "2024-03-01T09:00:00.000Z" "2024-03-01" LR "" 1 0 0 0 10 5 4 3 "" false].
Proof.
  apply (create_then_delete "2024-03-05T10:00:00.000Z"
           (CatMasteryTracker.dataOf (entryOf "2024-03-05" 4 20 15 ""))
           [mkEntry "2024-03-01T09:00:00.000Z" "2024-03-01" LR "" 1 0 0 0 10 5 4 3 "" false]).
  simpl. intros [H|[]]. discriminate H.
Defined.

(** X7: when the ids of the collection are distinct, opening a record in
    the form and submitting it unchanged leaves the collection as it
    was. *)
Theorem submit_unchanged (now : string) (e : Entry) (prev : list Entry) :
  NoDup (map id prev) -> In e prev -> id e <> "" ->
  CatMasteryTracker.handleSubmit now (CatMasteryTracker.dataOf e) (Some e) prev
  = prev.
Proof.
  intros Hnd He Hid.
  unfold CatMasteryTracker.handleSubmit, CatMasteryTracker.handleSaveEntry.
  destruct (id e) as [|c i] eqn:Eid; [congruence|]. cbn [JSString.isEmpty].
  rewrite <- Eid.
  rewrite <- (map_id prev) at 2. apply map_ext_in. intros x Hx.
  destruct (String.eqb_spec (id x) (id e)) as [E|_]; [|reflexivity].
  rewrite (same_id_same_entry prev x e Hnd Hx He E). apply withId_dataOf.
Qed.

Lemma submit_unchanged_witness :
  let a := mkEntry "a" "2024-03-01" LR "" 1 0 0 0 10 5 4 3 "" false in
  let b := mkEntry "b" "2024-03-02" DI "" 0 2 0 0 20 8 4 2 "" true in
  CatMasteryTracker.handleSubmit "c" (CatMasteryTracker.dataOf b) (Some b) [a; b]
  = [a; b].
Proof.
  intros a b. apply submit_unchanged.
  - simpl. repeat constructor; simpl; intuition discriminate.
  - right. left. reflexivity.
  - discriminate.
Defined.

(** ** Table and log *)



Lemma filter_map_swap {A B : Type} (f : A -> B) (p : B -> bool) (l : list A) :
  filter p (map f l) = map f (filter (fun x => p (f x)) l).
Proof.
  induction l as [|x l IH]; simpl; [reflexivity|].
  destruct (p (f x)); simpl; congruence.
Qed.

(** X9: the analysis reads exactly the notes that the mistake log shows,
    in the opposite order, and the log is empty exactly when the analysis
    answers that no mistake is logged. *)
Theorem log_and_analysis (entries : list Entry) :
  AIInsights.allLearnings entries
  = JSString.join " " (map learnings (rev (MistakeLog.mistakes entries)))
  /\ (MistakeLog.mistakes entries = []
      <-> AIInsights.analyze entries = [AIInsights.noMistakesMessage]).
Proof.
  unfold MistakeLog.mistakes. split.
  - rewrite rev_involutive. unfold AIInsights.allLearnings.
    rewrite filter_map_swap. reflexivity.
  - pose proof (allLearnings_blank_iff entries) as Hblank.
    assert (Hnone :
              rev (filter
                     (fun e => negb (JSString.isEmpty (JSString.trim (learnings e))))
                     entries) = []
              <-> (forall e, In e entries -> JSString.trim (learnings e) = "")).
    { split.
      - intros H e He.
        destruct (JSString.trim (learnings e)) eqn:T; [reflexivity|].
        assert (Hin : In e (rev (filter
                  (fun e => negb (JSString.isEmpty (JSString.trim (learnings e))))
                  entries))).
        { apply (proj1 (in_rev _ _)). apply filter_In. split; [exact He|].
          rewrite T. reflexivity. }
        rewrite H in Hin. destruct Hin.
      - intro H. rewrite filter_all_false; [reflexivity|].
        apply Forall_forall. intros e He. rewrite (H e He). reflexivity. }
    rewrite Hnone, <- Hblank. unfold AIInsights.analyze.
    destruct (JSString.isEmpty
                (JSString.trim (AIInsights.allLearnings entries))).
    + split; reflexivity.
    + split; [discriminate|].
      destruct (AIInsights.sortedKeywordsOf (AIInsights.allLearnings entries));
        discriminate.
Qed.

Lemma log_and_analysis_witness :
  AIInsights.analyze [entryOf "2024-03-01" 1 10 8 "  "; entryOf "2024-03-02" 1 10 8 ""]
  = [AIInsights.noMistakesMessage].
Proof.
  apply (proj1 (proj2 (log_and_analysis
                         [entryOf "2024-03-01" 1 10 8 "  ";
                          entryOf "2024-03-02" 1 10 8 ""]))).
  reflexivity.
Defined.

(** ** The keywords that the analysis returns *)

Lemma countWord_keys (o : JSObject.t AIInsights.Value) (w : string) :
  NoDup (map fst o) ->
  NoDup (map fst (AIInsights.countWord o w))
  /\ (forall k, In k (map fst (AIInsights.countWord o w)) ->
                In k (map fst o) \/ (k = w /\ AIInsights.counted w = true)).
Proof.
  intro Hnd. unfold AIInsights.countWord, AIInsights.write.
  destruct (AIInsights.counted w) eqn:Hc; [|split; [exact Hnd | tauto]].
  destruct (String.eqb w "__proto__"); [split; [exact Hnd | tauto]|].
  set (v := AIInsights.orZeroPlusOne (AIInsights.read o w)).
  destruct (in_dec string_dec w (map fst o)) as [Hin|Hnin].
  - rewrite keys_setOwn_old by exact Hin. split; [exact Hnd | tauto].
  - rewrite keys_setOwn_new by exact Hnin. split.
    + apply NoDup_app; [exact Hnd | repeat constructor; simpl; tauto |].
      intros k Hk [<-|[]]. contradiction.
    + intros k Hk. apply in_app_or in Hk as [Hk|[<-|[]]]; [left; exact Hk|].
      right. split; reflexivity.
Qed.

Lemma wordFrequencies_keys (ws : list string) :
  NoDup (map fst (AIInsights.wordFrequencies ws))
  /\ (forall k, In k (map fst (AIInsights.wordFrequencies ws)) ->
                In k ws /\ AIInsights.counted k = true).
Proof.
  unfold AIInsights.wordFrequencies.
  assert (H : forall o,
             NoDup (map fst o) ->
             NoDup (map fst (fold_left AIInsights.countWord ws o))
             /\ (forall k, In k (map fst (fold_left AIInsights.countWord ws o)) ->
                           In k (map fst o)
                           \/ (In k ws /\ AIInsights.counted k = true))).
  { induction ws as [|w ws IH]; intros o Hnd; simpl; [split; [exact Hnd | tauto]|].
    destruct (countWord_keys o w Hnd) as [Hnd' Hk'].
    destruct (IH _ Hnd') as [Hnd'' Hk'']. split; [exact Hnd''|].
    intros k Hk. destruct (Hk'' k Hk) as [H|[H1 H2]]; [|tauto].
    destruct (Hk' k H) as [H0|[-> H0]]; tauto. }
  destruct (H [] (NoDup_nil _)) as [Hnd Hk]. split; [exact Hnd|].
  intros k Hin. destruct (Hk k Hin) as [[]|H0]. exact H0.
Qed.

Lemma NoDup_firstn {A : Type} (n : nat) (l : list A) :
  NoDup l -> NoDup (firstn n l).
Proof.
  intro H. rewrite <- (firstn_skipn n l) in H.
  exact (NoDup_app_remove_r _ _ H).
Qed.

Lemma ranked_keys_perm (text : string) :
  Permutation
    (map fst (JSArray.sort AIInsights.byCountDesc
                (JSObject.entries
                   (AIInsights.wordFrequencies (AIInsights.words text)))))
    (map fst (AIInsights.wordFrequencies (AIInsights.words text))).
Proof.
  apply Permutation_map. rewrite sort_perm. apply entries_perm.
Qed.

(** The keywords are counted tokens of the text, without repetition. *)
Lemma keywords_are_tokens (text : string) :
  NoDup (AIInsights.sortedKeywordsOf text)
  /\ (forall k, In k (AIInsights.sortedKeywordsOf text) ->
                In k (AIInsights.words text) /\ AIInsights.counted k = true).
Proof.
  unfold AIInsights.sortedKeywordsOf, JSArray.sliceFirst.
  rewrite <- firstn_map.
  destruct (wordFrequencies_keys (AIInsights.words text)) as [Hnd Hk].
  split.
  - apply NoDup_firstn.
    apply (Permutation_NoDup (Permutation_sym (ranked_keys_perm text))).
    exact Hnd.
  - intros k Hin. apply Hk.
    apply (Permutation_in _ (ranked_keys_perm text)).
    rewrite <- (firstn_skipn 5). apply in_or_app. left. exact Hin.
Qed.

(** X10: whatever the notes hold, the analysis returns at most five
    keywords, all different, and each of them is a token of the
    concatenated notes that is no stop word and is longer than three
    characters. *)
Theorem keywords_well_formed (entries : list Entry) :
  (List.length (AIInsights.sortedKeywords entries) <= 5)%nat
  /\ NoDup (AIInsights.sortedKeywords entries)
  /\ (forall k, In k (AIInsights.sortedKeywords entries) ->
                In k (AIInsights.words (AIInsights.allLearnings entries))
                /\ AIInsights.isStopWord k = false
                /\ (3 < String.length k)%nat).
Proof.
  unfold AIInsights.sortedKeywords.
  destruct (keywords_are_tokens (AIInsights.allLearnings entries)) as [Hnd Hk].
  split.
  - unfold AIInsights.sortedKeywordsOf, JSArray.sliceFirst.
    rewrite length_map. apply firstn_le_length.
  - split; [exact Hnd|]. intros k Hin. destruct (Hk k Hin) as [Hw Hc].
    split; [exact Hw|]. unfold AIInsights.counted in Hc.
    apply andb_true_iff in Hc as [Hs Hl]. apply negb_true_iff in Hs.
    apply Z.ltb_lt in Hl. split; [exact Hs | lia].
Qed.

Lemma keywords_well_formed_witness :
  AIInsights.isStopWord "slip" = false /\ (3 < String.length "slip")%nat.
Proof.
  destruct (keywords_well_formed
              [entryOf "2024-03-01" 1 10 8 "Silly slip in the ratio, a slip."])
    as (_ & _ & H).
  destruct (H "slip") as (_ & Hs & Hl); [vm_compute; tauto|].
  split; assumption.
Defined.

Lemma lowerChar_idem (c : ascii) :
  JSString.lowerChar (JSString.lowerChar c) = JSString.lowerChar c.
Proof.
  destruct c as [[] [] [] [] [] [] [] []]; reflexivity.
Qed.

Lemma lowerChar_upperChar (c : ascii) :
  JSString.lowerChar (JSString.upperChar c) = JSString.lowerChar c.
Proof.
  destruct c as [[] [] [] [] [] [] [] []]; reflexivity.
Qed.

Lemma toLowerCase_idem (s : string) :
  JSString.toLowerCase (JSString.toLowerCase s) = JSString.toLowerCase s.
Proof.
  unfold JSString.toLowerCase.
  induction s as [|c s IH]; simpl; [reflexivity|].
  rewrite lowerChar_idem, IH. reflexivity.
Qed.

Lemma toLowerCase_toUpperCase (s : string) :
  JSString.toLowerCase (JSString.toUpperCase s) = JSString.toLowerCase s.
Proof.
  unfold JSString.toLowerCase, JSString.toUpperCase.
  induction s as [|c s IH]; simpl; [reflexivity|].
  rewrite lowerChar_upperChar, IH. reflexivity.
Qed.

Lemma stripped_lower_chars (s : string) :
  allChars
    (fun c => (negb (JSString.isDotOrComma c)
               && Ascii.eqb (JSString.lowerChar c) c)%bool)
    (JSString.stripDotComma (JSString.toLowerCase s)) = true.
Proof.
  unfold JSString.toLowerCase.
  induction s as [|c s IH]; simpl; [reflexivity|].
  destruct (JSString.isDotOrComma (JSString.lowerChar c)) eqn:E; [exact IH|].
  simpl. rewrite E, lowerChar_idem, Ascii.eqb_refl, IH. reflexivity.
Qed.

Lemma splitWS_from_chars (s cur : string) (inRun : bool) :
  allChars
    (fun c => (negb (JSString.isDotOrComma c)
               && Ascii.eqb (JSString.lowerChar c) c)%bool) s = true ->
  allChars keptChar cur = true ->
  Forall (fun w => allChars keptChar w = true)
    (JSString.splitWS_from s cur inRun).
Proof.
  revert cur inRun. induction s as [|c s IH]; simpl; intros cur inRun Hs Hcur.
  - constructor; [exact Hcur | constructor].
  - apply andb_true_iff in Hs as [Hc Hs].
    destruct (JSString.isWhiteSpace c) eqn:Hw.
    + destruct inRun.
      * apply IH; assumption.
      * constructor; [exact Hcur|]. apply IH; [exact Hs | reflexivity].
    + apply IH; [exact Hs|]. rewrite allChars_app, Hcur. simpl.
      unfold keptChar. rewrite Hw. simpl.
      rewrite andb_true_r. exact Hc.
Qed.

Lemma words_kept (text w : string) :
  In w (AIInsights.words text) -> allChars keptChar w = true.
Proof.
  intro H. unfold AIInsights.words, JSString.splitWS in H.
  pose proof (splitWS_from_chars _ EmptyString false
                (stripped_lower_chars text) eq_refl) as Hall.
  exact (proj1 (Forall_forall _ _) Hall w H).
Qed.

(** X11: for notes in ASCII, every keyword is free of upper-case letters,
    of [.] and [,] and of blanks, so a keyword analysed again is its own
    single token; and the analysis does not depend on letter case: the
    text in upper case or in lower case ranks the same keywords. *)
Theorem keywords_normalised (text : string) :
  allChars asciiChar text = true ->
  (forall k, In k (AIInsights.sortedKeywordsOf text) ->
             allChars keptChar k = true /\ AIInsights.words k = [k])
  /\ AIInsights.sortedKeywordsOf (JSString.toUpperCase text)
     = AIInsights.sortedKeywordsOf text
  /\ AIInsights.sortedKeywordsOf (JSString.toLowerCase text)
     = AIInsights.sortedKeywordsOf text.
Proof.
  intros _. split.
  - intros k Hk.
    destruct (keywords_are_tokens text) as [_ Htok].
    destruct (Htok k Hk) as [Hw _].
    pose proof (words_kept text k Hw) as Hkept.
    split; [exact Hkept | apply kept_words; exact Hkept].
  - unfold AIInsights.sortedKeywordsOf, AIInsights.words.
    rewrite toLowerCase_toUpperCase, toLowerCase_idem. split; reflexivity.
Qed.

Lemma keywords_normalised_witness :
  (allChars keptChar "timing" = true /\ AIInsights.words "timing" = ["timing"])
  /\ AIInsights.sortedKeywordsOf "TIMING, TIMING. TIMING"
     = AIInsights.sortedKeywordsOf "Timing, TIMING. timing".
Proof.
  destruct (keywords_normalised "Timing, TIMING. timing") as (Hk & Hu & _);
    [reflexivity|].
  split; [apply Hk; vm_compute; tauto | exact Hu].
Defined.

(** ** The states of the insights panel *)

Lemma insights_step_sound (s : AIInsights.State) (ev : AIInsights.Event) :
  insightsSound s -> insightsSound (AIInsights.step s ev).
Proof.
  intros [Htip Hrun]. destruct ev as [entries| |]; simpl.
  - destruct Hrun as [[Ha Hp]|[Ha Hp]]; rewrite Ha.
    + split; [exact Htip|]. right. simpl. split; [reflexivity|].
      exists entries. rewrite Hp. reflexivity.
    + split; [exact Htip|]. right. split; assumption.
  - destruct Hrun as [[Ha Hp]|[Ha [es Hp]]]; rewrite Hp.
    + split; [exact Htip|]. left. split; assumption.
    + split; [exact Htip|]. left. split; reflexivity.
  - split; [|exact Hrun]. simpl.
    apply Z.mod_pos_bound. reflexivity.
Qed.

(** X12: in every state that the insights panel reaches, the tip index
    addresses one of the five tips, at most one analysis timer is pending,
    and the "Analyzing" state is shown exactly while that timer is
    pending, so the button is enabled again once it has fired. *)
Theorem insights_states_sound (evs : list AIInsights.Event) :
  let s := AIInsights.run insightsMounted evs in
  0 <= AIInsights.currentTipIndex s < 5
  /\ (List.length (AIInsights.pending s) <= 1)%nat
  /\ (AIInsights.isAnalyzing s = true <-> AIInsights.pending s <> []).
Proof.
  intro s.
  assert (H : insightsSound s).
  { subst s. unfold AIInsights.run.
    assert (G : forall s0, insightsSound s0 ->
                           insightsSound (fold_left AIInsights.step evs s0)).
    { induction evs as [|ev evs IH]; intros s0 H0; simpl; [exact H0|].
      apply IH. apply insights_step_sound. exact H0. }
    apply G. split; [unfold AIInsights.staticTipsLength; simpl; lia|].
    left. split; reflexivity. }
  destruct H as [Htip Hrun]. split; [exact Htip|].
  destruct Hrun as [[Ha Hp]|[Ha [es Hp]]]; rewrite Ha, Hp; simpl.
  - split; [lia|]. split; [discriminate | congruence].
  - split; [lia|]. split; [discriminate | reflexivity].
Qed.

Lemma insights_states_sound_witness :
  let s := AIInsights.run insightsMounted
             [AIInsights.TipInterval; AIInsights.ClickAnalyze [];
              AIInsights.ClickAnalyze []; AIInsights.TipInterval;
              AIInsights.TimeoutFires; AIInsights.TimeoutFires] in
  AIInsights.isAnalyzing s = true <-> AIInsights.pending s <> [].
Proof.
  intro s.
  exact (proj2 (proj2 (insights_states_sound
           [AIInsights.TipInterval; AIInsights.ClickAnalyze [];
            AIInsights.ClickAnalyze []; AIInsights.TipInterval;
            AIInsights.TimeoutFires; AIInsights.TimeoutFires]))).
Defined.

(** ** Sorting by date *)

Lemma byDateAsc_dated (a b : Entry) :
  dated a -> dated b ->
  CatMasteryTracker.byDateAsc a b = Some (timeOf a - timeOf b).
Proof.
  unfold dated, timeOf, CatMasteryTracker.byDateAsc, JSDate.getTime.
  intros Ha Hb.
  destruct (JSDate.parse (date a)); [|congruence].
  destruct (JSDate.parse (date b)); [reflexivity | congruence].
Qed.

Lemma byDateDesc_dated (a b : Entry) :
  dated a -> dated b ->
  CatMasteryTracker.byDateDesc a b = Some (- timeOf a - - timeOf b).
Proof.
  unfold dated, timeOf, CatMasteryTracker.byDateDesc, JSDate.getTime.
  intros Ha Hb.
  destruct (JSDate.parse (date a)); [|congruence].
  destruct (JSDate.parse (date b)); [f_equal; lia | congruence].
Qed.

Lemma same_date_ties_asc (d : string) (a b : Entry) :
  String.eqb (date a) d = true -> String.eqb (date b) d = true ->
  JSArray.notAfter CatMasteryTracker.byDateAsc a b = true.
Proof.
  intros Ha Hb. apply String.eqb_eq in Ha, Hb.
  unfold JSArray.notAfter, CatMasteryTracker.byDateAsc, JSDate.getTime.
  rewrite Ha, Hb. destruct (JSDate.parse d); [|reflexivity].
  rewrite Z.sub_diag. reflexivity.
Qed.

Lemma same_date_ties_desc (d : string) (a b : Entry) :
  String.eqb (date a) d = true -> String.eqb (date b) d = true ->
  JSArray.notAfter CatMasteryTracker.byDateDesc a b = true.
Proof.
  intros Ha Hb. apply String.eqb_eq in Ha, Hb.
  unfold JSArray.notAfter, CatMasteryTracker.byDateDesc, JSDate.getTime.
  rewrite Ha, Hb. destruct (JSDate.parse d); [|reflexivity].
  rewrite Z.sub_diag. reflexivity.
Qed.

(** X13: the two date orders of the main component hold every stored
    record once; when every date is a calendar date,
    [chronologicalEntries] is in ascending and [sortedEntries] in
    descending order of date, and both keep the records of one date in
    their stored order. *)
Theorem date_orders (entries : list Entry) :
  Permutation (CatMasteryTracker.chronologicalEntries entries) entries
  /\ Permutation (CatMasteryTracker.sortedEntries entries) entries
  /\ (Forall dated entries ->
      StronglySorted (fun a b => timeOf a <= timeOf b)
        (CatMasteryTracker.chronologicalEntries entries)
      /\ StronglySorted (fun a b => timeOf b <= timeOf a)
           (CatMasteryTracker.sortedEntries entries)
      /\ (forall d, datedOn d (CatMasteryTracker.chronologicalEntries entries)
                    = datedOn d entries)
      /\ (forall d, datedOn d (CatMasteryTracker.sortedEntries entries)
                    = datedOn d entries)).
Proof.
  unfold CatMasteryTracker.chronologicalEntries, CatMasteryTracker.sortedEntries.
  split; [apply sort_perm|]. split; [apply sort_perm|].
  intro Hd. split; [|split; [|split]].
  - apply (sort_ascending CatMasteryTracker.byDateAsc timeOf dated
             byDateAsc_dated). exact Hd.
  - apply StronglySorted_weaken
      with (R := fun a b => - timeOf a <= - timeOf b).
    + intros a b _ _ H. lia.
    + apply (sort_ascending CatMasteryTracker.byDateDesc
               (fun e => - timeOf e) dated byDateDesc_dated). exact Hd.
  - intro d. apply filter_sort_ties. apply same_date_ties_asc.
  - intro d. apply filter_sort_ties. apply same_date_ties_desc.
Qed.

Lemma date_orders_witness :
  let entries :=
    [entryOf "2024-03-02" 1 8 4 "first"; entryOf "2024-03-01" 2 10 8 "";
     entryOf "2024-03-02" 3 5 5 "second"] in
  StronglySorted (fun a b => timeOf a <= timeOf b)
    (CatMasteryTracker.chronologicalEntries entries)
  /\ StronglySorted (fun a b => timeOf b <= timeOf a)
       (CatMasteryTracker.sortedEntries entries)
  /\ (forall d, datedOn d (CatMasteryTracker.chronologicalEntries entries)
                = datedOn d entries)
  /\ (forall d, datedOn d (CatMasteryTracker.sortedEntries entries)
                = datedOn d entries).
Proof.
  intro entries.
  apply (proj2 (proj2 (date_orders entries))).
  repeat constructor; discriminate.
Defined.

(** X14: the charts re-sort and filter the collection they are given, so
    when every date is a calendar date the chart of the date-ordered
    collection, which the main component passes, is the chart of the
    stored collection. *)
Theorem chart_of_ordered (tz : Z) (entries : list Entry)
    (timePeriod : TimePeriod) (selectedSubject : SubjectFilter) :
  Forall dated entries ->
  PerformanceCharts.chartData tz (CatMasteryTracker.chronologicalEntries entries)
    timePeriod selectedSubject
  = PerformanceCharts.chartData tz entries timePeriod selectedSubject.
Proof.
  intro Hd.
  assert (E : PerformanceCharts.sortByDate
                (matchingSubject selectedSubject
                   (CatMasteryTracker.chronologicalEntries entries))
              = PerformanceCharts.sortByDate
                  (matchingSubject selectedSubject entries)).
  { change PerformanceCharts.sortByDate
      with (JSArray.sort CatMasteryTracker.byDateAsc).
    unfold CatMasteryTracker.chronologicalEntries.
    assert (Hm : matchingSubject selectedSubject
                   (JSArray.sort CatMasteryTracker.byDateAsc entries)
                 = JSArray.sort CatMasteryTracker.byDateAsc
                     (matchingSubject selectedSubject entries)).
    { destruct selectedSubject as [|s]; simpl; [reflexivity|].
      apply (filter_sort CatMasteryTracker.byDateAsc timeOf dated
               byDateAsc_dated). exact Hd. }
    rewrite Hm.
    apply (sort_ascending_id CatMasteryTracker.byDateAsc timeOf dated
             byDateAsc_dated).
    - apply (Permutation_Forall (Permutation_sym (sort_perm _ _))).
      apply Forall_forall. intros e He.
      apply matchingSubject_incl in He.
      exact (proj1 (Forall_forall _ _) Hd e He).
    - apply (sort_ascending CatMasteryTracker.byDateAsc timeOf dated
               byDateAsc_dated).
      apply Forall_forall. intros e He.
      apply matchingSubject_incl in He.
      exact (proj1 (Forall_forall _ _) Hd e He). }
  unfold PerformanceCharts.chartData.
  fold (matchingSubject selectedSubject
          (CatMasteryTracker.chronologicalEntries entries)).
  fold (matchingSubject selectedSubject entries).
  rewrite E. reflexivity.
Qed.

Lemma chart_of_ordered_witness :
  let entries :=
    [entryOf "2024-03-02" 1 8 4 ""; entryOf "2024-03-01" 2 10 8 "";
     entryOf "2023-12-31" 3 5 5 ""] in
  PerformanceCharts.chartData 330 (CatMasteryTracker.chronologicalEntries entries)
    weekly Overall
  = PerformanceCharts.chartData 330 entries weekly Overall.
Proof.
  intro entries. apply chart_of_ordered.
  repeat constructor; discriminate.
Defined.

(** ** Calendar fields of a day *)

Ltac month_cases L :=
  repeat match goal with
         | H : context [JSDate.monthStart ?a L] |- _ =>
             let v := eval vm_compute in a in progress change a with v in H
         | |- context [JSDate.monthStart ?a L] =>
             let v := eval vm_compute in a in progress change a with v
         end;
  unfold JSDate.monthStart, JSDate.monthOfDay in *; cbv beta iota in *.

Lemma leapOf_range (y : Z) : 0 <= leapOf y <= 1.
Proof. unfold leapOf. destruct (_ =? _); lia. Qed.

Lemma monthOfDay_start (k L d : Z) :
  0 <= k <= 11 -> 0 <= L <= 1 ->
  1 <= d <= JSDate.monthStart (k + 1) L - JSDate.monthStart k L ->
  JSDate.monthOfDay (JSDate.monthStart k L + d - 1) L = k.
Proof.
  intros Hk HL Hd.
  assert (Hcases : k = 0 \/ k = 1 \/ k = 2 \/ k = 3 \/ k = 4 \/ k = 5
                   \/ k = 6 \/ k = 7 \/ k = 8 \/ k = 9 \/ k = 10 \/ k = 11)
    by lia.
  repeat (destruct Hcases as [->|Hcases]); [..|subst k];
    month_cases L;
    repeat match goal with
           | |- context [?a <? ?b] => destruct (Z.ltb_spec a b); try lia
           end.
Qed.

Lemma monthOfDay_range (d L : Z) :
  0 <= L <= 1 -> 0 <= d < 365 + L ->
  let k := JSDate.monthOfDay d L in
  0 <= k <= 11
  /\ JSDate.monthStart k L <= d < JSDate.monthStart (k + 1) L.
Proof.
  intros HL Hd. unfold JSDate.monthOfDay.
  repeat match goal with
         | |- context [?a <? ?b] =>
             destruct (Z.ltb_spec a b);
             [cbv zeta; split; [lia|];
              repeat match goal with
                     | |- context [JSDate.monthStart ?a L] =>
                         let v := eval vm_compute in a in
                         progress change a with v
                     end;
              unfold JSDate.monthStart; cbv beta iota; lia|]
         end.
  cbv zeta. split; [lia|].
  change (11 + 1) with 12. unfold JSDate.monthStart. cbv beta iota. lia.
Qed.

Lemma InLeapYear_leapOf (t : Z) :
  JSDate.InLeapYear t = leapOf (JSDate.YearFromTime t).
Proof. reflexivity. Qed.

(** The fields read from the time value of a calendar date are the
    fields it was made of. *)
Lemma fields_of_MakeDay (y k d : Z) :
  0 <= k <= 11 -> 1 <= d <= JSDate.DaysInMonth y k ->
  let t := JSDate.MakeDate (JSDate.MakeDay y k d) 0 in
  JSDate.YearFromTime t = y
  /\ JSDate.MonthFromTime t = k
  /\ JSDate.DateFromTime t = d.
Proof.
  intros Hk Hd t.
  assert (Hy : JSDate.YearFromTime t = y).
  { apply YearFromTime_unique. subst t. rewrite Day_MakeDate.
    replace k with (k + 1 - 1) by lia.
    apply MakeDay_in_year; [lia|].
    replace (k + 1 - 1) with k by lia. exact Hd. }
  assert (Hdwy : JSDate.DayWithinYear t
                 = JSDate.monthStart k (leapOf y) + d - 1).
  { unfold JSDate.DayWithinYear. rewrite Hy. subst t. rewrite Day_MakeDate.
    unfold JSDate.MakeDay, leapOf.
    rewrite (Z.div_small k 12), (Z.mod_small k 12), Z.add_0_r by lia. lia. }
  assert (Hm : JSDate.MonthFromTime t = k).
  { unfold JSDate.MonthFromTime. rewrite InLeapYear_leapOf, Hy, Hdwy.
    apply monthOfDay_start; [exact Hk | apply leapOf_range | exact Hd]. }
  split; [exact Hy|]. split; [exact Hm|].
  unfold JSDate.DateFromTime. rewrite Hm, InLeapYear_leapOf, Hy, Hdwy. lia.
Qed.

(** The fields of any time value name a calendar date, of which the time
    value's day is the day number. *)
Lemma MakeDay_of_fields (t : Z) :
  let y := JSDate.YearFromTime t in
  let k := JSDate.MonthFromTime t in
  let d := JSDate.DateFromTime t in
  0 <= k <= 11
  /\ 1 <= d <= JSDate.DaysInMonth y k
  /\ JSDate.MakeDay y k d = JSDate.Day t.
Proof.
  intros y k d.
  pose proof (DayWithinYear_range t) as Hr. fold y in Hr.
  rewrite DaysInYear_leap in Hr. fold (leapOf y) in Hr.
  pose proof (leapOf_range y) as HL.
  destruct (monthOfDay_range (JSDate.DayWithinYear t) (leapOf y) HL Hr)
    as [Hk Hd].
  assert (Ek : JSDate.monthOfDay (JSDate.DayWithinYear t) (leapOf y) = k)
    by reflexivity.
  rewrite Ek in Hk, Hd.
  assert (Ed : d = JSDate.DayWithinYear t - JSDate.monthStart k (leapOf y) + 1)
    by reflexivity.
  split; [exact Hk|]. split.
  - unfold JSDate.DaysInMonth. fold (leapOf y). lia.
  - unfold JSDate.MakeDay.
    rewrite (Z.div_small k 12), (Z.mod_small k 12), Z.add_0_r by lia.
    fold (leapOf y). rewrite Ed. unfold JSDate.DayWithinYear. fold y. lia.
Qed.

Lemma DaysInMonth_range (y k : Z) :
  0 <= k <= 11 -> 28 <= JSDate.DaysInMonth y k <= 31.
Proof.
  intro Hk. unfold JSDate.DaysInMonth. fold (leapOf y).
  pose proof (leapOf_range y) as HL. set (L := leapOf y) in *.
  assert (Hcases : k = 0 \/ k = 1 \/ k = 2 \/ k = 3 \/ k = 4 \/ k = 5
                   \/ k = 6 \/ k = 7 \/ k = 8 \/ k = 9 \/ k = 10 \/ k = 11)
    by lia.
  repeat (destruct Hcases as [->|Hcases]); [..|subst k];
    month_cases L; lia.
Qed.

(** ** Date texts *)

Lemma digitValue_digitChar (k : Z) :
  0 <= k <= 9 -> JSString.digitValue (JSFormat.digitChar k) = Some k.
Proof.
  intro Hk.
  assert (Hcases : k = 0 \/ k = 1 \/ k = 2 \/ k = 3 \/ k = 4 \/ k = 5
                   \/ k = 6 \/ k = 7 \/ k = 8 \/ k = 9) by lia.
  repeat (destruct Hcases as [->|Hcases]); [..|subst k]; reflexivity.
Qed.

Lemma digitChar_digitValue (c : ascii) (k : Z) :
  JSString.digitValue c = Some k -> JSFormat.digitChar k = c.
Proof.
  unfold JSString.digitValue, JSFormat.digitChar.
  destruct (N.leb_spec 48 (N_of_ascii c)) as [H1|]; [|discriminate].
  destruct (N.leb_spec (N_of_ascii c) 57) as [H2|]; [|discriminate].
  cbn [andb]. intro E. assert (Ek : k = Z.of_N (N_of_ascii c) - 48) by congruence.
  rewrite Ek.
  replace (48 + Z.to_N (Z.of_N (N_of_ascii c) - 48))%N with (N_of_ascii c) by lia.
  apply ascii_N_embedding.
Qed.

Lemma twoDigits_pad2 (n : Z) :
  0 <= n <= 99 ->
  JSDate.twoDigits (JSFormat.digitChar (n / 10)) (JSFormat.digitChar (n mod 10))
  = Some n.
Proof.
  intro Hn. unfold JSDate.twoDigits.
  rewrite !digitValue_digitChar by (Z.div_mod_to_equations; lia).
  f_equal. Z.div_mod_to_equations. lia.
Qed.

Lemma pad2_twoDigits (a b : ascii) (n : Z) :
  JSDate.twoDigits a b = Some n ->
  JSFormat.pad2 n = String a (String b EmptyString).
Proof.
  unfold JSDate.twoDigits, JSFormat.pad2.
  destruct (JSString.digitValue a) as [x|] eqn:Ea; [|discriminate].
  destruct (JSString.digitValue b) as [z|] eqn:Eb; [|discriminate].
  intro E. assert (En : n = 10 * x + z) by congruence.
  pose proof (digitValue_range _ _ Ea). pose proof (digitValue_range _ _ Eb).
  replace (n / 10) with x by (Z.div_mod_to_equations; lia).
  replace (n mod 10) with z by (Z.div_mod_to_equations; lia).
  rewrite (digitChar_digitValue _ _ Ea), (digitChar_digitValue _ _ Eb).
  reflexivity.
Qed.

Lemma pad4_fourDigits (a b c d : ascii) (n : Z) :
  JSDate.fourDigits a b c d = Some n ->
  JSFormat.pad4 n = String a (String b (String c (String d EmptyString))).
Proof.
  unfold JSDate.fourDigits, JSFormat.pad4.
  destruct (JSDate.twoDigits a b) as [x|] eqn:Ea; [|discriminate].
  destruct (JSDate.twoDigits c d) as [z|] eqn:Eb; [|discriminate].
  intro E. assert (En : n = 100 * x + z) by congruence.
  pose proof (twoDigits_range _ _ _ Ea). pose proof (twoDigits_range _ _ _ Eb).
  replace (n / 100) with x by (Z.div_mod_to_equations; lia).
  replace (n mod 100) with z by (Z.div_mod_to_equations; lia).
  rewrite (pad2_twoDigits _ _ _ Ea), (pad2_twoDigits _ _ _ Eb). reflexivity.
Qed.

(** A date text is the ISO text of its fields. *)
Lemma dateFields_isoText (s : string) (y m d : Z) :
  JSDate.dateFields s = Some (y, m, d) -> s = isoText y m d.
Proof.
  unfold JSDate.dateFields.
  do 10 (destruct s as [|? s]; [discriminate|]).
  destruct s; [|discriminate].
  destruct (Ascii.eqb_spec a3 "-") as [->|]; [|discriminate].
  destruct (Ascii.eqb_spec a6 "-") as [->|]; [|discriminate].
  cbn [andb].
  destruct (JSDate.fourDigits a a0 a1 a2) as [y'|] eqn:Ey; [|discriminate].
  destruct (JSDate.twoDigits a4 a5) as [m'|] eqn:Em; [|discriminate].
  destruct (JSDate.twoDigits a7 a8) as [d'|] eqn:Ed; [|discriminate].
  destruct ((1 <=? m') && (m' <=? 12) && (1 <=? d')
            && (d' <=? JSDate.DaysInMonth y' (m' - 1)))%bool; [|discriminate].
  intro E. assert (y' = y /\ m' = m /\ d' = d) as (-> & -> & ->)
    by (repeat split; congruence).
  unfold isoText.
  rewrite (pad4_fourDigits _ _ _ _ _ Ey), (pad2_twoDigits _ _ _ Em),
    (pad2_twoDigits _ _ _ Ed).
  reflexivity.
Qed.

(** The ISO text of a calendar date of the years 0 .. 9999 is a date text
    with these fields. *)
Lemma isoText_dateFields (y m d : Z) :
  0 <= y <= 9999 -> 1 <= m <= 12 -> 1 <= d <= JSDate.DaysInMonth y (m - 1) ->
  JSDate.dateFields (isoText y m d) = Some (y, m, d).
Proof.
  intros Hy Hm Hd.
  pose proof (DaysInMonth_range y (m - 1) ltac:(lia)) as Hr.
  unfold isoText, JSFormat.pad4, JSFormat.pad2. cbn [String.append].
  unfold JSDate.dateFields. rewrite !Ascii.eqb_refl. cbn [andb].
  unfold JSDate.fourDigits.
  rewrite !twoDigits_pad2 by (Z.div_mod_to_equations; lia).
  replace (100 * (y / 100) + y mod 100) with y
    by (Z.div_mod_to_equations; lia).
  destruct (Z.leb_spec 1 m); [|lia]. destruct (Z.leb_spec m 12); [|lia].
  destruct (Z.leb_spec 1 d); [|lia].
  destruct (Z.leb_spec d (JSDate.DaysInMonth y (m - 1))); [|lia].
  reflexivity.
Qed.

Lemma isoDate_fields (t : Z) :
  0 <= JSDate.YearFromTime t <= 9999 ->
  JSFormat.isoDate t
  = isoText (JSDate.YearFromTime t) (JSDate.MonthFromTime t + 1)
      (JSDate.DateFromTime t).
Proof.
  intro Hy. unfold JSFormat.isoDate, JSFormat.isoYear, isoText.
  destruct (Z.leb_spec 0 (JSDate.YearFromTime t)); [|lia].
  destruct (Z.leb_spec (JSDate.YearFromTime t) 9999); [|lia].
  reflexivity.
Qed.

(** X15: date texts and time values round-trip: formatting the Date made
    from a date text gives the text back, and the text that [formatDate]
    makes of a time value of the years 0 .. 9999 is read back as the
    midnight (UTC) of the same day. *)
Theorem date_text_round_trip :
  (forall (s : string) (y m d : Z),
      JSDate.dateFields s = Some (y, m, d) ->
      formatDate (JSDate.parse s) = Some s)
  /\ (forall t : Z,
         0 <= JSDate.YearFromTime t <= 9999 ->
         match formatDate (Some t) with
         | Some s => JSDate.parse s = Some (JSDate.Day t * JSDate.msPerDay)
         | None => False
         end).
Proof.
  split.
  - intros s y m d Hf.
    destruct (dateFields_valid _ _ _ _ Hf) as (Hy & Hm & Hd).
    unfold JSDate.parse. rewrite Hf. unfold formatDate. cbn [option_map].
    f_equal.
    destruct (fields_of_MakeDay y (m - 1) d ltac:(lia) Hd) as (Ey & Em & Ed).
    rewrite isoDate_fields by (rewrite Ey; exact Hy).
    rewrite Ey, Em, Ed. replace (m - 1 + 1) with m by lia.
    symmetry. apply dateFields_isoText. exact Hf.
  - intros t Hy. unfold formatDate. cbn [option_map].
    destruct (MakeDay_of_fields t) as (Hk & Hd & Hday).
    rewrite isoDate_fields by exact Hy. unfold JSDate.parse.
    rewrite isoText_dateFields;
      [| exact Hy | lia
       | replace (JSDate.MonthFromTime t + 1 - 1)
           with (JSDate.MonthFromTime t) by lia; exact Hd].
    replace (JSDate.MonthFromTime t + 1 - 1)
      with (JSDate.MonthFromTime t) by lia.
    rewrite Hday. unfold JSDate.MakeDate. f_equal. lia.
Qed.

Lemma date_text_round_trip_witness :
  formatDate (JSDate.parse "2024-02-29") = Some "2024-02-29"
  /\ JSDate.parse "2024-03-01" = Some (JSDate.Day 1709290000000 * JSDate.msPerDay).
Proof.
  split.
  - apply (proj1 date_text_round_trip "2024-02-29" 2024 2 29). reflexivity.
  - apply (proj2 date_text_round_trip 1709290000000). vm_compute.
    split; discriminate.
Defined.

(** ** The calendar *)

Lemma MakeDay_normal (y m d : Z) :
  JSDate.MakeDay y m d = JSDate.MakeDay (y + m / 12) (m mod 12) d.
Proof.
  unfold JSDate.MakeDay.
  rewrite (Z.div_small (m mod 12) 12), (Z.mod_small (m mod 12) 12), Z.add_0_r
    by (apply Z.mod_pos_bound; reflexivity).
  reflexivity.
Qed.

Lemma MakeDay_day (y m d : Z) :
  JSDate.MakeDay y m d = JSDate.MakeDay y m 1 + d - 1.
Proof. unfold JSDate.MakeDay. lia. Qed.

(** Day 0 of the next month is the last day of the month. *)
Lemma MakeDay_last (y k : Z) :
  0 <= k <= 11 ->
  JSDate.MakeDay y (k + 1) 0 = JSDate.MakeDay y k (JSDate.DaysInMonth y k).
Proof.
  intro Hk. unfold JSDate.DaysInMonth. fold (leapOf y).
  destruct (Z.eq_dec k 11) as [->|Hne].
  - unfold JSDate.MakeDay. change ((11 + 1) / 12) with 1.
    change ((11 + 1) mod 12) with 0. change (11 / 12) with 0.
    change (11 mod 12) with 11.
    rewrite DayFromYear_succ, (DaysInYear_leap y), !Z.add_0_r.
    fold (leapOf y). fold (leapOf (y + 1)).
    change (11 + 1) with 12.
    unfold JSDate.monthStart. cbv beta iota. lia.
  - unfold JSDate.MakeDay.
    rewrite (Z.div_small (k + 1) 12), (Z.mod_small (k + 1) 12),
      (Z.div_small k 12), (Z.mod_small k 12) by lia.
    rewrite !Z.add_0_r. fold (leapOf y). lia.
Qed.

Lemma fromFields_local (tz y m d : Z) :
  ~ (0 <= y <= 99) ->
  JSDate.fromFields tz (Some y) (Some m) d
  = Some (JSDate.UTC tz (JSDate.MakeDate (JSDate.MakeDay y m d) 0)).
Proof.
  intro Hy. unfold JSDate.fromFields.
  destruct (Z.leb_spec 0 y); destruct (Z.leb_spec y 99); try reflexivity.
  lia.
Qed.

Section Calendar.
Variable tz : Z.
Variable currentDate : Z.

Local Notation year := (JSDate.YearFromTime (JSDate.LocalTime tz currentDate)).
Local Notation month := (JSDate.MonthFromTime (JSDate.LocalTime tz currentDate)).

Lemma month_range : 0 <= month <= 11.
Proof.
  destruct (MakeDay_of_fields (JSDate.LocalTime tz currentDate)) as [H _].
  exact H.
Qed.

(** X16: for a current date outside the years 0 .. 99, the calendar lays
    out as many days as the local month has (28 to 31), and with
    [firstDayOfMonth] empty cells in front each day stands in the column
    of its weekday. *)
Theorem calendar_grid :
  ~ (0 <= year <= 99) ->
  CalendarView.daysInMonth tz currentDate
  = Some (JSDate.DaysInMonth year month)
  /\ 28 <= JSDate.DaysInMonth year month <= 31
  /\ exists first : Z,
       CalendarView.firstDayOfMonth tz currentDate = Some first
       /\ 0 <= first <= 6
       /\ forall day : Z,
            JSDate.WeekDay (JSDate.MakeDate (JSDate.MakeDay year month day) 0)
            = (first + day - 1) mod 7.
Proof.
  intro Hy. pose proof month_range as Hk.
  pose proof (DaysInMonth_range year month Hk) as Hr.
  split; [|split; [exact Hr|]].
  - unfold CalendarView.daysInMonth, JSDate.getFullYear, JSDate.getMonth,
      JSDate.getDate. cbn [option_map].
    rewrite fromFields_local by exact Hy. cbn [option_map].
    rewrite LocalTime_UTC, MakeDay_last by exact Hk. f_equal.
    apply fields_of_MakeDay; [exact Hk | lia].
  - exists (JSDate.WeekDay (JSDate.MakeDate (JSDate.MakeDay year month 1) 0)).
    split; [|split].
    + unfold CalendarView.firstDayOfMonth, JSDate.getFullYear, JSDate.getMonth,
        JSDate.getDay. cbn [option_map].
      rewrite fromFields_local by exact Hy. cbn [option_map].
      rewrite LocalTime_UTC. reflexivity.
    + unfold JSDate.WeekDay.
      pose proof (Z.mod_pos_bound
                    (JSDate.Day (JSDate.MakeDate (JSDate.MakeDay year month 1) 0) + 4)
                    7 ltac:(lia)). lia.
    + intro day. unfold JSDate.WeekDay. rewrite !Day_MakeDate.
      rewrite (MakeDay_day year month day).
      set (D := JSDate.MakeDay year month 1).
      Z.div_mod_to_equations. lia.
Qed.

(** X17: from a current date of a year after 100, "previous month" and
    "next month" undo each other: each lands on the local midnight of the
    first day of a month, and going there and back gives the first day of
    the current month. *)
Theorem calendar_navigation :
  101 <= year ->
  let first :=
    JSDate.UTC tz (JSDate.MakeDate (JSDate.MakeDay year month 1) 0) in
  exists previous next : Z,
    CalendarView.handlePrevMonth tz currentDate = Some previous
    /\ CalendarView.handleNextMonth tz currentDate = Some next
    /\ CalendarView.handleNextMonth tz previous = Some first
    /\ CalendarView.handlePrevMonth tz next = Some first
    /\ JSDate.getDate tz (Some previous) = Some 1
    /\ JSDate.getDate tz (Some next) = Some 1.
Proof.
  intros Hy first. pose proof month_range as Hk.
  assert (Hstep :
            forall delta : Z,
              -1 <= delta <= 1 ->
              let y' := year + (month + delta) / 12 in
              let k' := (month + delta) mod 12 in
              let moved :=
                JSDate.UTC tz
                  (JSDate.MakeDate (JSDate.MakeDay year (month + delta) 1) 0) in
              JSDate.fromFields tz (Some year) (Some (month + delta)) 1
              = Some moved
              /\ JSDate.YearFromTime (JSDate.LocalTime tz moved) = y'
              /\ JSDate.MonthFromTime (JSDate.LocalTime tz moved) = k'
              /\ JSDate.DateFromTime (JSDate.LocalTime tz moved) = 1
              /\ 100 <= y' /\ 0 <= k' <= 11).
  { intros delta Hd y' k' moved.
    assert (Hk' : 0 <= k' <= 11).
    { subst k'. pose proof (Z.mod_pos_bound (month + delta) 12 ltac:(lia)). lia. }
    assert (Hy' : 100 <= y').
    { subst y'. Z.div_mod_to_equations. lia. }
    split; [apply fromFields_local; lia|].
    subst moved. rewrite LocalTime_UTC, MakeDay_normal. fold y' k'.
    pose proof (DaysInMonth_range y' k' Hk').
    destruct (fields_of_MakeDay y' k' 1 Hk' ltac:(lia)) as (E1 & E2 & E3).
    repeat split; try assumption; lia. }
  assert (Hback :
            forall delta : Z,
              -1 <= delta <= 1 ->
              let y' := year + (month + delta) / 12 in
              let k' := (month + delta) mod 12 in
              JSDate.fromFields tz (Some y') (Some (k' - delta)) 1 = Some first).
  { intros delta Hd y' k'.
    rewrite fromFields_local by (subst y'; Z.div_mod_to_equations; lia).
    subst first. do 3 f_equal.
    rewrite (MakeDay_normal y' (k' - delta) 1).
    rewrite (MakeDay_normal year month 1).
    f_equal; subst y' k'; Z.div_mod_to_equations; lia. }
  destruct (Hstep (-1) ltac:(lia)) as (Ep & Yp & Mp & Dp & _ & _).
  destruct (Hstep 1 ltac:(lia)) as (En & Yn & Mn & Dn & _ & _).
  eexists. eexists.
  unfold CalendarView.handlePrevMonth, CalendarView.handleNextMonth,
    JSDate.getFullYear, JSDate.getMonth, JSDate.getDate. cbn [option_map].
  change (month - 1) with (month + -1).
  split; [exact Ep|]. split; [exact En|].
  rewrite Yp, Mp, Yn, Mn, Dp, Dn.
  split; [|split; [|split; reflexivity]].
  - exact (Hback (-1) ltac:(lia)).
  - exact (Hback 1 ltac:(lia)).
Qed.
End Calendar.

Lemma calendar_grid_witness :
  CalendarView.daysInMonth 330 1709251200000 = Some 31
  /\ exists first : Z,
       CalendarView.firstDayOfMonth 330 1709251200000 = Some first
       /\ 0 <= first <= 6.
Proof.
  destruct (calendar_grid 330 1709251200000) as (Hd & _ & first & Hf & Hr & _).
  - vm_compute. intros [_ H]. apply H. reflexivity.
  - split; [exact Hd|]. exists first. split; [exact Hf | exact Hr].
Defined.

Lemma calendar_navigation_witness :
  exists previous next : Z,
    CalendarView.handlePrevMonth (-300) 1704100000000 = Some previous
    /\ CalendarView.handleNextMonth (-300) 1704100000000 = Some next
    /\ CalendarView.handleNextMonth (-300) previous
       = CalendarView.handlePrevMonth (-300) next.
Proof.
  destruct (calendar_navigation (-300) 1704100000000)
    as (previous & next & Hp & Hn & Hpn & Hnp & _).
  - vm_compute. discriminate.
  - exists previous, next. split; [exact Hp|]. split; [exact Hn|].
    rewrite Hpn, Hnp. reflexivity.
Defined.

Lemma isoDate_Day (t t' : Z) :
  JSDate.Day t = JSDate.Day t' -> JSFormat.isoDate t = JSFormat.isoDate t'.
Proof.
  intro H.
  assert (Hy : JSDate.YearFromTime t = JSDate.YearFromTime t').
  { unfold JSDate.YearFromTime. rewrite H. reflexivity. }
  assert (Hw : JSDate.DayWithinYear t = JSDate.DayWithinYear t').
  { unfold JSDate.DayWithinYear. rewrite H, Hy. reflexivity. }
  assert (Hl : JSDate.InLeapYear t = JSDate.InLeapYear t').
  { unfold JSDate.InLeapYear. rewrite Hy. reflexivity. }
  assert (Hm : JSDate.MonthFromTime t = JSDate.MonthFromTime t').
  { unfold JSDate.MonthFromTime. rewrite Hw, Hl. reflexivity. }
  unfold JSFormat.isoDate, JSDate.DateFromTime.
  rewrite Hy, Hm, Hw, Hl. reflexivity.
Qed.

Lemma Day_of_local_midnight (tz day : Z) :
  (-1440 < tz <= 0 ->
   JSDate.Day (JSDate.UTC tz (JSDate.MakeDate day 0)) = day)
  /\ (0 < tz < 1440 ->
      JSDate.Day (JSDate.UTC tz (JSDate.MakeDate day 0)) = day - 1).
Proof.
  unfold JSDate.Day, JSDate.UTC, JSDate.MakeDate, JSDate.msPerDay,
    JSDate.msPerMinute.
  split; intro H; Z.div_mod_to_equations; lia.
Qed.

Lemma isoDate_of_date (y k d : Z) :
  0 <= y <= 9999 -> 0 <= k <= 11 -> 1 <= d <= JSDate.DaysInMonth y k ->
  JSFormat.isoDate (JSDate.MakeDate (JSDate.MakeDay y k d) 0)
  = isoText y (k + 1) d.
Proof.
  intros Hy Hk Hd.
  destruct (fields_of_MakeDay y k d Hk Hd) as (Ey & Em & Ed).
  rewrite isoDate_fields by (rewrite Ey; exact Hy).
  rewrite Ey, Em, Ed. reflexivity.
Qed.

Lemma isEmpty_isoDate (t : Z) : JSString.isEmpty (JSFormat.isoDate t) = false.
Proof.
  unfold JSFormat.isoDate, JSFormat.isoYear, JSFormat.pad6, JSFormat.pad4,
    JSFormat.pad2.
  destruct ((0 <=? JSDate.YearFromTime t) && (JSDate.YearFromTime t <=? 9999))%bool;
    [reflexivity|].
  destruct (JSDate.YearFromTime t <? 0); reflexivity.
Qed.

Lemma hasEntry_iff (tz : Z) (entries : list Entry) (currentDate day : Z)
    (s : string) :
  CalendarView.cellDateStr tz currentDate day = Some s ->
  (CalendarView.hasEntry tz entries currentDate day = true
   <-> exists e, In e entries /\ date e = s).
Proof.
  intro Hs. unfold CalendarView.hasEntry. rewrite Hs, existsb_exists.
  split; intros [e [He Hd]]; exists e; (split; [exact He|]);
    apply String.eqb_eq; exact Hd.
Qed.

(** X18: the text under which a calendar cell looks for records is the UTC
    date of the cell's local midnight.  At UTC and west of it (by less
    than a day) that is the date of the cell itself; east of UTC it is
    the date of the day before, so there the dot of a day marks the
    records dated the previous day. *)
Theorem calendar_cell_text (tz currentDate day : Z) (entries : list Entry) :
  let year := JSDate.YearFromTime (JSDate.LocalTime tz currentDate) in
  let month := JSDate.MonthFromTime (JSDate.LocalTime tz currentDate) in
  100 <= year <= 9999 ->
  (-1440 < tz <= 0 -> 1 <= day <= JSDate.DaysInMonth year month ->
   CalendarView.cellDateStr tz currentDate day
   = Some (isoText year (month + 1) day)
   /\ (CalendarView.hasEntry tz entries currentDate day = true
       <-> exists e, In e entries /\ date e = isoText year (month + 1) day))
  /\ (0 < tz < 1440 -> 2 <= day <= JSDate.DaysInMonth year month ->
      CalendarView.cellDateStr tz currentDate day
      = Some (isoText year (month + 1) (day - 1))
      /\ (CalendarView.hasEntry tz entries currentDate day = true
          <-> exists e,
                In e entries /\ date e = isoText year (month + 1) (day - 1))).
Proof.
  intros year month Hy.
  pose proof (month_range tz currentDate) as Hk. fold month in Hk.
  assert (Hcell : CalendarView.cellDateStr tz currentDate day
                  = Some (JSFormat.isoDate
                            (JSDate.UTC tz
                               (JSDate.MakeDate (JSDate.MakeDay year month day) 0)))).
  { unfold CalendarView.cellDateStr, JSDate.getFullYear, JSDate.getMonth,
      formatDate. cbn [option_map]. fold year month.
    rewrite fromFields_local by lia. reflexivity. }
  destruct (Day_of_local_midnight tz (JSDate.MakeDay year month day))
    as [Hwest Heast].
  split; intros Htz Hday.
  - assert (E : CalendarView.cellDateStr tz currentDate day
                = Some (isoText year (month + 1) day)).
    { rewrite Hcell. f_equal.
      rewrite (isoDate_Day _ (JSDate.MakeDate (JSDate.MakeDay year month day) 0))
        by (rewrite Day_MakeDate; apply Hwest; exact Htz).
      apply isoDate_of_date; [lia | exact Hk | exact Hday]. }
    split; [exact E | apply hasEntry_iff; exact E].
  - assert (E : CalendarView.cellDateStr tz currentDate day
                = Some (isoText year (month + 1) (day - 1))).
    { rewrite Hcell. f_equal.
      rewrite (isoDate_Day _
                 (JSDate.MakeDate (JSDate.MakeDay year month (day - 1)) 0)).
      - apply isoDate_of_date; [lia | exact Hk | lia].
      - rewrite Day_MakeDate, (Heast Htz).
        rewrite (MakeDay_day year month day), (MakeDay_day year month (day - 1)).
        lia. }
    split; [exact E | apply hasEntry_iff; exact E].
Qed.

Lemma calendar_cell_text_witness :
  CalendarView.cellDateStr 330 1709251200000 15 = Some (isoText 2024 3 14)
  /\ CalendarView.cellDateStr (-300) 1709700000000 15 = Some (isoText 2024 3 15).
Proof.
  split.
  - destruct (calendar_cell_text 330 1709251200000 15 []) as [_ H].
    + vm_compute. split; discriminate.
    + apply H; [lia|]. vm_compute. split; discriminate.
  - destruct (calendar_cell_text (-300) 1709700000000 15 []) as [H _].
    + vm_compute. split; discriminate.
    + apply H; [lia|]. vm_compute. split; discriminate.
Defined.

(** X19: a day of the calendar carries a dot exactly when selecting it
    makes the table show at least one row. *)
Theorem dot_iff_rows (tz : Z) (entries : list Entry) (currentDate day : Z) :
  match CalendarView.cellDateStr tz currentDate day with
  | Some dateStr =>
      CalendarView.hasEntry tz entries currentDate day = true
      <-> EntriesTable.body (CatMasteryTracker.sortedEntries entries)
            (Some dateStr) <> None
  | None => True
  end.
Proof.
  destruct (CalendarView.cellDateStr tz currentDate day) as [s|] eqn:Hs;
    [|exact I].
  rewrite (hasEntry_iff tz entries currentDate day s Hs).
  assert (Hne : JSString.isEmpty s = false).
  { unfold CalendarView.cellDateStr, formatDate in Hs.
    destruct (JSDate.fromFields tz _ _ day) as [t|]; [|discriminate].
    cbn [option_map] in Hs. assert (s = JSFormat.isoDate t) by congruence.
    subst s. apply isEmpty_isoDate. }
  unfold EntriesTable.body, EntriesTable.filteredEntries. rewrite Hne.
  set (shown := filter (fun entry => String.eqb (date entry) s)
                  (CatMasteryTracker.sortedEntries entries)).
  assert (Hshown : forall e, In e shown <-> In e entries /\ date e = s).
  { intro e. unfold shown. rewrite filter_In, String.eqb_eq.
    unfold CatMasteryTracker.sortedEntries.
    split; intros [H1 H2]; (split; [|exact H2]).
    - exact (Permutation_in _ (sort_perm _ _) H1).
    - exact (Permutation_in _ (Permutation_sym (sort_perm _ _)) H1). }
  split.
  - intros [e He]. apply Hshown in He.
    destruct shown; [destruct He | discriminate].
  - intro H. destruct shown as [|e rest] eqn:E; [congruence|].
    exists e. apply Hshown. left. reflexivity.
Qed.

Lemma dot_iff_rows_witness :
  CalendarView.hasEntry 0 [entryOf "2024-03-15" 1 10 8 ""] 1709251200000 15 = true
  <-> EntriesTable.body
        (CatMasteryTracker.sortedEntries [entryOf "2024-03-15" 1 10 8 ""])
        (Some "2024-03-15") <> None.
Proof.
  exact (dot_iff_rows 0 [entryOf "2024-03-15" 1 10 8 ""] 1709251200000 15).
Defined.

(** ** The dashboard figures *)

Lemma metrics_from_sums (entries : list Entry) :
  DashboardMetrics.metrics entries
  = DashboardMetrics.mkMetrics (sumZ (map totalSets entries))
      (JSFormat.toFixed2Text
         (if 0 <? sumZ (map questionsAttempted entries)
          then percent64 (sumZ (map correctAnswers entries))
                 (sumZ (map questionsAttempted entries))
          else 0%Q))
      (JSFormat.toFixed2Text
         (if 0 <? sumZ (map totalSets entries)
          then quotient64 (sumZ (map timeTaken entries))
                 (sumZ (map totalSets entries))
          else 0%Q)).
Proof.
  destruct entries as [|e entries]; [reflexivity|].
  unfold DashboardMetrics.metrics. rewrite !fold_left_add. reflexivity.
Qed.

Lemma grouped_total_sets (tz : Z) (entries : list Entry)
    (timePeriod : TimePeriod) (selectedSubject : SubjectFilter) :
  timePeriod <> daily ->
  sumZ (map PerformanceCharts.TotalSets
          (PerformanceCharts.chartData tz entries timePeriod selectedSubject))
  = sumZ (map totalSets (matchingSubject selectedSubject entries)).
Proof.
  intro Hp. unfold PerformanceCharts.chartData.
  fold (matchingSubject selectedSubject entries).
  set (sorted := PerformanceCharts.sortByDate
                   (matchingSubject selectedSubject entries)).
  assert (E : forall period,
             map PerformanceCharts.TotalSets
               (map (PerformanceCharts.bucketPoint tz period)
                  (JSObject.entries
                     (PerformanceCharts.groupedData tz period sorted)))
             = map (fun g => sumZ (map totalSets g))
                 (map (fun k =>
                         withKey (PerformanceCharts.groupKey tz period) k sorted)
                    (firstSeen
                       (map (PerformanceCharts.groupKey tz period) sorted)))).
  { intro period. rewrite groups_enumerated, !map_map. apply map_ext.
    intro k. apply bucketPoint_TotalSets. }
  destruct timePeriod; [congruence| |];
    rewrite E, sumZ_concat_map;
    apply sumZ_perm, Permutation_map;
    (etransitivity; [apply groups_partition | apply sortByDate_perm]).
Qed.

(** X20: the dashboard figures do not depend on the order of the records
    (so the date-ordered collection gives those of the stored one);
    "Cumulative Sets" is the total of the bars of the weekly and of the
    monthly chart over all subjects; and for records with non-negative
    attempts "Overall Accuracy" is the two-decimal text of the accuracy
    pooled over all records, as the program evaluates it: 23 correct of
    160 is shown as 14.37. *)
Theorem dashboard_figures (entries : list Entry) :
  (forall entries', Permutation entries entries' ->
                    DashboardMetrics.metrics entries'
                    = DashboardMetrics.metrics entries)
  /\ DashboardMetrics.metrics (CatMasteryTracker.chronologicalEntries entries)
     = DashboardMetrics.metrics entries
  /\ (forall tz timePeriod,
         timePeriod <> daily ->
         sumZ (map PerformanceCharts.TotalSets
                 (PerformanceCharts.chartData tz entries timePeriod Overall))
         = DashboardMetrics.totalSets (DashboardMetrics.metrics entries))
  /\ (Forall (fun e => 0 <= questionsAttempted e) entries ->
      DashboardMetrics.overallAccuracy (DashboardMetrics.metrics entries)
      = JSFormat.toFixed2Text (pooledNumber entries))
  /\ DashboardMetrics.overallAccuracy (DashboardMetrics.metrics tiePair)
     = "14.37".
Proof.
  assert (Hperm : forall entries', Permutation entries entries' ->
                    DashboardMetrics.metrics entries'
                    = DashboardMetrics.metrics entries).
  { intros entries' H. rewrite !metrics_from_sums.
    rewrite (sumZ_perm _ _ (Permutation_map totalSets H)).
    rewrite (sumZ_perm _ _ (Permutation_map questionsAttempted H)).
    rewrite (sumZ_perm _ _ (Permutation_map correctAnswers H)).
    rewrite (sumZ_perm _ _ (Permutation_map timeTaken H)). reflexivity. }
  split; [exact Hperm|]. split.
  - apply Hperm. apply Permutation_sym. apply sort_perm.
  - split.
    + intros tz timePeriod Hp. rewrite grouped_total_sets by exact Hp.
      rewrite metrics_from_sums. reflexivity.
    + split; [|vm_compute; reflexivity].
      intro Hnn. rewrite metrics_from_sums.
      cbn [DashboardMetrics.overallAccuracy].
      rewrite pooled_as_computed by exact Hnn. reflexivity.
Qed.

Lemma dashboard_figures_witness :
  DashboardMetrics.overallAccuracy (DashboardMetrics.metrics marchPair)
  = JSFormat.toFixed2Text (pooledNumber marchPair)
  /\ sumZ (map PerformanceCharts.TotalSets
             (PerformanceCharts.chartData 330 marchPair weekly Overall))
     = DashboardMetrics.totalSets (DashboardMetrics.metrics marchPair).
Proof.
  destruct (dashboard_figures marchPair) as (_ & _ & Hsum & Hacc & _).
  split.
  - apply Hacc. repeat constructor; simpl; lia.
  - apply Hsum. discriminate.
Defined.

(** ** The size of a chart *)

Lemma firstSeen_length (ks : list string) :
  (List.length (firstSeen ks) <= List.length ks)%nat.
Proof.
  induction ks as [|k ks IH]; simpl; [lia|].
  pose proof (filter_length_le (fun k' => negb (String.eqb k' k)) (firstSeen ks)).
  lia.
Qed.

(** X21: the daily chart shows one point per matching record, up to 30;
    the weekly and the monthly chart show one point per distinct key,
    never more points than matching records, and no point exactly when no
    record matches. *)
Theorem chart_sizes (tz : Z) (entries : list Entry)
    (timePeriod : TimePeriod) (selectedSubject : SubjectFilter) :
  let matching := matchingSubject selectedSubject entries in
  let shown :=
    PerformanceCharts.chartData tz entries timePeriod selectedSubject in
  (timePeriod = daily ->
   List.length shown = Nat.min 30 (List.length matching))
  /\ (timePeriod <> daily ->
      List.length shown
      = List.length
          (firstSeen
             (map (PerformanceCharts.groupKey tz timePeriod)
                (PerformanceCharts.sortByDate matching)))
      /\ (List.length shown <= List.length matching)%nat
      /\ (shown = [] <-> matching = [])).
Proof.
  intros matching shown. subst shown. unfold PerformanceCharts.chartData.
  fold (matchingSubject selectedSubject entries). fold matching.
  pose proof (Permutation_length (sortByDate_perm matching)) as Hlen.
  split.
  - intros ->. unfold JSArray.sliceLast.
    rewrite length_skipn, !length_map, Hlen. lia.
  - intro Hp.
    set (sorted := PerformanceCharts.sortByDate matching) in *.
    set (keys := map (PerformanceCharts.groupKey tz timePeriod) sorted).
    assert (E : List.length
                  (map (PerformanceCharts.bucketPoint tz timePeriod)
                     (JSObject.entries
                        (PerformanceCharts.groupedData tz timePeriod sorted)))
                = List.length (firstSeen keys)).
    { rewrite groups_enumerated, !length_map. reflexivity. }
    assert (Hk : (List.length (firstSeen keys) <= List.length matching)%nat).
    { pose proof (firstSeen_length keys) as H. unfold keys in H at 2.
      rewrite length_map, Hlen in H. exact H. }
    assert (Hnil : firstSeen keys = [] <-> matching = []).
    { split; intro H.
      - destruct matching as [|e m]; [reflexivity|]. exfalso.
        destruct sorted as [|x s] eqn:Es; [simpl in Hlen; discriminate|].
        subst keys. simpl in H. discriminate H.
      - rewrite H in Hlen. destruct sorted; [reflexivity | discriminate]. }
    destruct timePeriod; [congruence| |];
      (split; [exact E|]; split; [rewrite E; exact Hk|];
       rewrite <- Hnil; split; intro H;
       [ apply length_zero_iff_nil; rewrite <- E, H; reflexivity
       | apply length_zero_iff_nil; rewrite E, H; reflexivity ]).
Qed.

Lemma chart_sizes_witness :
  List.length
    (PerformanceCharts.chartData 0 (repeat (entryOf "2024-03-01" 1 10 8 "") 31)
       daily Overall)
  = 30%nat.
Proof.
  apply (proj1 (chart_sizes 0 (repeat (entryOf "2024-03-01" 1 10 8 "") 31)
                  daily Overall)).
  reflexivity.
Defined.

(** ** Bucket keys *)

Lemma ofZ_inj (n n' : Z) : JSString.ofZ n = JSString.ofZ n' -> n = n'.
Proof.
  unfold JSString.ofZ. intro H.
  assert (Hparse : forall z, NilZero.int_of_string
                               (NilZero.string_of_int (Z.to_int z))
                             = Some (Z.to_int z)).
  { intro z. apply NilZero.isi; destruct z as [|p|p]; simpl; try discriminate;
      intro E; inversion E as [E'];
      exact (DecimalPos.Unsigned.to_uint_nonnil p E'). }
  apply DecimalZ.to_int_inj.
  pose proof (Hparse n) as H1. rewrite H, Hparse in H1. congruence.
Qed.

Lemma uint_text_noDash (d : Decimal.uint) :
  allChars noDash (NilEmpty.string_of_uint d) = true.
Proof. induction d; simpl; trivial. Qed.

Lemma ofZ_noDash (n : Z) : 0 <= n -> allChars noDash (JSString.ofZ n) = true.
Proof.
  intro Hn. unfold JSString.ofZ.
  destruct n as [|p|p]; [reflexivity| |lia].
  simpl. unfold NilZero.string_of_uint.
  destruct (Pos.to_uint p) eqn:E; try reflexivity;
    rewrite <- E; apply uint_text_noDash.
Qed.

(** A text is cut at its first dash in one way only. *)
Lemma dash_split_unique (a a' b b' : string) :
  allChars noDash a = true -> allChars noDash a' = true ->
  a ++ String "-" b = a' ++ String "-" b' -> a = a' /\ b = b'.
Proof.
  revert a'. induction a as [|c a IH]; intros [|c' a'] Ha Ha' H; simpl in *.
  - inversion H. split; reflexivity.
  - inversion H; subst. apply andb_true_iff in Ha' as [Hc _].
    discriminate Hc.
  - inversion H; subst. apply andb_true_iff in Ha as [Hc _].
    discriminate Hc.
  - inversion H; subst.
    apply andb_true_iff in Ha as [_ Ha]. apply andb_true_iff in Ha' as [_ Ha'].
    destruct (IH a' Ha Ha' ltac:(assumption)) as [-> ->].
    split; reflexivity.
Qed.

Lemma month_text_inj (m m' : Z) :
  0 <= m <= 11 -> 0 <= m' <= 11 ->
  JSString.padStart2 (JSString.ofZ (m + 1))
  = JSString.padStart2 (JSString.ofZ (m' + 1)) ->
  m = m'.
Proof.
  intros Hm Hm'.
  assert (Hc : m = 0 \/ m = 1 \/ m = 2 \/ m = 3 \/ m = 4 \/ m = 5
               \/ m = 6 \/ m = 7 \/ m = 8 \/ m = 9 \/ m = 10 \/ m = 11) by lia.
  assert (Hc' : m' = 0 \/ m' = 1 \/ m' = 2 \/ m' = 3 \/ m' = 4 \/ m' = 5
                \/ m' = 6 \/ m' = 7 \/ m' = 8 \/ m' = 9 \/ m' = 10 \/ m' = 11)
    by lia.
  repeat (destruct Hc as [->|Hc]); try subst m;
    repeat (destruct Hc' as [->|Hc']); try subst m';
    vm_compute; intro H; first [reflexivity | discriminate H].
Qed.

Lemma weekNumber_some (tz t : Z) :
  exists n, PerformanceCharts.weekNumber tz (Some t) = Some n.
Proof.
  unfold PerformanceCharts.weekNumber, JSDate.getFullYear, JSDate.getTime,
    JSDate.fromFields, JSDate.getDay. cbn [option_map].
  eexists. reflexivity.
Qed.

(** X22: the text keys keep the groups apart: two records with calendar
    dates and non-negative local years fall into the same monthly bucket
    exactly when their local year and month agree, and into the same
    weekly bucket exactly when their local year and week number agree. *)
Theorem same_bucket_iff (tz : Z) (a b : Entry) (ta tb : Z) :
  JSDate.parse (date a) = Some ta -> JSDate.parse (date b) = Some tb ->
  0 <= JSDate.YearFromTime (JSDate.LocalTime tz ta) ->
  0 <= JSDate.YearFromTime (JSDate.LocalTime tz tb) ->
  (PerformanceCharts.groupKey tz monthly a = PerformanceCharts.groupKey tz monthly b
   <-> JSDate.YearFromTime (JSDate.LocalTime tz ta)
       = JSDate.YearFromTime (JSDate.LocalTime tz tb)
       /\ JSDate.MonthFromTime (JSDate.LocalTime tz ta)
          = JSDate.MonthFromTime (JSDate.LocalTime tz tb))
  /\ (PerformanceCharts.groupKey tz weekly a = PerformanceCharts.groupKey tz weekly b
      <-> JSDate.YearFromTime (JSDate.LocalTime tz ta)
          = JSDate.YearFromTime (JSDate.LocalTime tz tb)
          /\ PerformanceCharts.weekNumber tz (Some ta)
             = PerformanceCharts.weekNumber tz (Some tb)).
Proof.
  intros Ha Hb Hya Hyb.
  set (ya := JSDate.YearFromTime (JSDate.LocalTime tz ta)) in *.
  set (yb := JSDate.YearFromTime (JSDate.LocalTime tz tb)) in *.
  split.
  - unfold PerformanceCharts.groupKey, JSDate.getFullYear, JSDate.getMonth.
    rewrite Ha, Hb. cbn [option_map JSNumber.toString]. fold ya yb.
    set (ma := JSDate.MonthFromTime (JSDate.LocalTime tz ta)).
    set (mb := JSDate.MonthFromTime (JSDate.LocalTime tz tb)).
    pose proof (month_range tz ta) as Hma. pose proof (month_range tz tb) as Hmb.
    fold ma in Hma. fold mb in Hmb.
    split.
    + intro H.
      change (JSString.ofZ ya ++ String "-" (JSString.padStart2 (JSString.ofZ (ma + 1)))
              = JSString.ofZ yb ++ String "-" (JSString.padStart2 (JSString.ofZ (mb + 1))))
        in H.
      apply dash_split_unique in H as [Hy Hm]; try (apply ofZ_noDash; assumption).
      split; [apply ofZ_inj; exact Hy | apply month_text_inj; assumption].
    + intros [-> ->]. reflexivity.
  - destruct (weekNumber_some tz ta) as [na Hna].
    destruct (weekNumber_some tz tb) as [nb Hnb].
    rewrite (weekly_groupKey tz a ta Ha na Hna),
      (weekly_groupKey tz b tb Hb nb Hnb), Hna, Hnb.
    fold ya yb. unfold weekKey. split.
    + intro H.
      change (JSString.ofZ ya ++ String "-" (String "W" (JSString.ofZ na))
              = JSString.ofZ yb ++ String "-" (String "W" (JSString.ofZ nb)))
        in H.
      apply dash_split_unique in H as [Hy Hn]; try (apply ofZ_noDash; assumption).
      split; [apply ofZ_inj; exact Hy|].
      f_equal. apply ofZ_inj. congruence.
    + intros [-> E]. congruence.
Qed.

Lemma same_bucket_iff_witness :
  PerformanceCharts.groupKey 330 monthly (entryOf "2024-03-01" 1 1 1 "")
  <> PerformanceCharts.groupKey 330 monthly (entryOf "2024-02-29" 1 1 1 "").
Proof.
  intro H.
  apply (proj1 (same_bucket_iff 330 (entryOf "2024-03-01" 1 1 1 "")
                  (entryOf "2024-02-29" 1 1 1 "") 1709251200000 1709164800000
                  eq_refl eq_refl ltac:(vm_compute; discriminate)
                  ltac:(vm_compute; discriminate))) in H.
  destruct H as [_ H]. vm_compute in H. discriminate H.
Defined.

(** ** Chart colours and table flags *)

Lemma toFixed2_keeps_60 (x : Q) :
  (59995 # 1000 <= x)%Q -> (60 <= JSNumber.toFixed2 x)%Q.
Proof.
  intro H. unfold JSNumber.toFixed2.
  assert (H0 : Qle_bool 0 x = true).
  { apply Qle_bool_iff. apply Qle_trans with (59995 # 1000)%Q;
      [discriminate | exact H]. }
  rewrite H0. unfold JSNumber.roundHalfUp2. rewrite Qred_correct.
  assert (Hf : 6000 <= Qfloor (x * 100 + (1 # 2))).
  { rewrite <- (Qfloor_Z 6000). apply Qfloor_resp_le.
    change (inject_Z 6000) with (6000 # 1)%Q. lra. }
  unfold Qle. cbn [Qnum Qden]. lia.
Qed.

(** An exact accuracy of 60 or more is shown as 60.00 or more. *)
Lemma shown_keeps_60 (e : PartialEntry) :
  (60 <= calculateAccuracy e)%Q ->
  (60 <= JSNumber.toFixed2 (Binary64.calculateAccuracy e))%Q.
Proof.
  intro H. apply toFixed2_keeps_60.
  pose proof (accuracy_binary64_close e) as Hc.
  set (x := calculateAccuracy e) in *.
  set (y := Binary64.calculateAccuracy e) in *.
  rewrite (Qabs_pos x) in Hc by lra.
  change (1 # 2 ^ 50)%Q with (1 # 1125899906842624)%Q in Hc.
  revert Hc. apply Qabs_case; intros; lra.
Qed.

(** X23: a bar that the daily chart draws in the warning colour belongs to
    a record that the table flags red.  The converse fails, because the
    chart compares the accuracy rounded to two decimals: 14999 correct of
    25000 attempts is flagged red and drawn in the secondary colour. *)
Theorem warning_bar_is_red_flag (tz : Z) (e : Entry) :
  (ChartColors.cellFill (PerformanceCharts.dailyPoint tz e) = ChartColors.warning ->
   EntriesTable.isRedFlag e = true)
  /\ (let close := entryOf "2024-03-01" 1 25000 14999 "" in
      EntriesTable.isRedFlag close = true
      /\ ChartColors.cellFill (PerformanceCharts.dailyPoint tz close)
         = ChartColors.secondary).
Proof.
  split; [|split; vm_compute; reflexivity].
  unfold ChartColors.cellFill, PerformanceCharts.dailyPoint.
  cbn [PerformanceCharts.Accuracy].
  set (y := Binary64.calculateAccuracy (asPartial e)).
  destruct (Qle_bool 80 (JSNumber.toFixed2 y)); [discriminate|].
  destruct (Qle_bool 60 (JSNumber.toFixed2 y)) eqn:E; [discriminate|].
  intros _. unfold EntriesTable.isRedFlag. apply Qltb_lt.
  apply Qnot_le_lt. intro H. apply shown_keeps_60 in H. fold y in H.
  apply Qle_bool_iff in H. congruence.
Qed.

Lemma warning_bar_is_red_flag_witness :
  EntriesTable.isRedFlag (entryOf "2024-03-01" 1 10 5 "") = true.
Proof.
  apply (proj1 (warning_bar_is_red_flag 0 (entryOf "2024-03-01" 1 10 5 ""))).
  reflexivity.
Defined.

(** X24: the accuracy of a point of the daily chart is the exact accuracy
    of its record up to half a hundredth and a relative [2^-50]; it is the
    two-decimal rounding of the Number that the program holds, not of the
    exact percentage: 23 correct of 160 attempts, 14.375 exactly, is shown
    as 14.37. *)
Theorem shown_accuracy_close (tz : Z) (e : Entry) :
  (Qabs (PerformanceCharts.Accuracy (PerformanceCharts.dailyPoint tz e)
         - calculateAccuracy (asPartial e))
   <= (1 # 200) + Qabs (calculateAccuracy (asPartial e)) * (1 # 2 ^ 50))%Q
  /\ (let tie := entryOf "2024-03-01" 1 160 23 "" in
      PerformanceCharts.Accuracy (PerformanceCharts.dailyPoint tz tie)
      = 1437 # 100
      /\ (calculateAccuracy (asPartial tie) == 14375 # 1000)%Q).
Proof.
  split; [|split; vm_compute; reflexivity].
  unfold PerformanceCharts.dailyPoint. cbn [PerformanceCharts.Accuracy].
  pose proof (toFixed2_close (Binary64.calculateAccuracy (asPartial e))) as H1.
  pose proof (accuracy_binary64_close (asPartial e)) as H2.
  set (shown := JSNumber.toFixed2 (Binary64.calculateAccuracy (asPartial e)))
    in *.
  set (y := Binary64.calculateAccuracy (asPartial e)) in *.
  set (x := calculateAccuracy (asPartial e)) in *.
  set (b := (Qabs x * (1 # 2 ^ 50))%Q) in *.
  revert H1 H2. do 3 (apply Qabs_case; intro); intros; lra.
Qed.

(** X25: for counts of the sizes that the form can hold, correct answers
    of at most 53 bits over attempts of fewer than 48 bits, the red flag
    of a row is the test [accuracy < 60] on the Number that the row
    prints: the rounding of the program does not move an accuracy across
    the threshold. *)
Theorem red_flag_on_number (e : Entry) :
  0 <= correctAnswers e <= 2 ^ 53 -> 0 <= questionsAttempted e < 2 ^ 48 ->
  EntriesTable.isRedFlag e
  = JSNumber.Qltb (Binary64.calculateAccuracy (asPartial e)) 60.
Proof.
  intros Hc Ha. unfold EntriesTable.isRedFlag.
  unfold calculateAccuracy, Binary64.calculateAccuracy.
  cbn [asPartial p_questionsAttempted p_correctAnswers JSNumber.orZero].
  destruct (Z.eqb_spec (questionsAttempted e) 0) as [_|Hne]; [reflexivity|].
  symmetry. apply below_60_binary64; [exact Hc | lia].
Qed.

Lemma red_flag_on_number_witness :
  EntriesTable.isRedFlag (entryOf "2024-03-01" 1 25000 14999 "")
  = JSNumber.Qltb
      (Binary64.calculateAccuracy
         (asPartial (entryOf "2024-03-01" 1 25000 14999 ""))) 60.
Proof.
  apply (red_flag_on_number (entryOf "2024-03-01" 1 25000 14999 ""));
    simpl; lia.
Defined.
